(** * CAL-KG: the extraction-and-fusion pipeline, embedded and verified

    A shallow embedding of the Python modules under [SRC/]:
    [utils.py], [document_splitter.py], [main_logic_generator.py],
    [sub_logic_generator.py], [connection_analyzer.py],
    [knowledge_graph_fuser.py] and the graph building of [visualizer.py].

    Conventions of the embedding.
    - A Python [str] is the list of its Unicode code points ([str := list N]),
      so that [len], slicing and [in] count code points as Python does.
      Literals are written as UTF-8 text and decoded by [u].
    - A JSON dictionary read with [d.get(k, default)] is a record whose fields
      are [option]s ([None]: the key is absent); a dictionary built by the
      program itself is a record with plain fields.
    - A number read from JSON is a [number]: a finite value, held exactly,
      or one of [NaN], [Infinity] and [-Infinity], which [json.loads]
      accepts. The similarity that the fuser computes and compares with the
      literals 0.2 and 0.4 is an exact rational.
    - Exceptions are explicit: [option] where a single error is possible,
      the [outcome] type where the code catches and retries. *)

From Stdlib Require Import ZArith QArith List Ascii String Floats Uint63.
From stdpp Require Import base option list gmap sets strings numbers sorting.

Open Scope Z_scope.

(* ===================================================================== *)
(** * Python strings *)
(* ===================================================================== *)

Module PyStr.

(** A string is its sequence of code points. *)
Definition str := list N.

(** UTF-8 decoding of a well-formed byte sequence; used for literals only. *)
Fixpoint utf8_decode (bs : list N) : str :=
  match bs with
  | [] => []
  | b0 :: r0 =>
    if (b0 <? 128)%N then b0 :: utf8_decode r0
    else match r0 with
      | [] => []
      | b1 :: r1 =>
        if (b0 <? 224)%N
        then ((b0 - 192) * 64 + (b1 - 128))%N :: utf8_decode r1
        else match r1 with
          | [] => []
          | b2 :: r2 =>
            if (b0 <? 240)%N
            then ((b0 - 224) * 4096 + (b1 - 128) * 64 + (b2 - 128))%N
                   :: utf8_decode r2
            else match r2 with
              | [] => []
              | b3 :: r3 =>
                ((b0 - 240) * 262144 + (b1 - 128) * 4096
                 + (b2 - 128) * 64 + (b3 - 128))%N :: utf8_decode r3
              end
          end
      end
  end.

(** The code points of a literal. *)
Definition u (s : string) : str :=
  utf8_decode (map N_of_ascii (list_ascii_of_string s)).

(** [len(s)] *)
Definition len (s : str) : Z := Z.of_nat (length s).

(** [s[:n]] for a non-negative constant [n]. *)
Definition slice_to (n : nat) (s : str) : str := take n s.

(** The characters [str.strip()] removes: those for which
    [str.isspace()] holds. *)
Definition is_space (c : N) : bool :=
  ((9 <=? c) && (c <=? 13) || (28 <=? c) && (c <=? 32)
   || (c =? 133) || (c =? 160) || (c =? 5760)
   || (8192 <=? c) && (c <=? 8202)
   || (c =? 8232) || (c =? 8233) || (c =? 8239) || (c =? 8287)
   || (c =? 12288))%N.

Fixpoint lstrip (s : str) : str :=
  match s with
  | c :: r => if is_space c then lstrip r else s
  | [] => []
  end.

(** [s.strip()] *)
Definition strip (s : str) : str := rev (lstrip (rev (lstrip s))).

(** [s.startswith(p)] *)
Fixpoint startswith (s p : str) : bool :=
  match p, s with
  | [], _ => true
  | _ :: _, [] => false
  | a :: p', b :: s' => (a =? b)%N && startswith s' p'
  end.

(** [p in s] *)
Fixpoint contains (s p : str) : bool :=
  startswith s p
  || match s with
     | [] => false
     | _ :: r => contains r p
     end.

(** [s.split(sep)] for a non-empty separator: the pieces between the
    non-overlapping occurrences of [sep], found from left to right.
    [skip] counts the characters of a matched separator still to be
    passed over; [cur] is the current piece, reversed. *)
Fixpoint split_go (sep : str) (skip : nat) (cur : str) (s : str)
  : list str :=
  match s with
  | [] => [rev cur]
  | c :: r =>
    match skip with
    | S k => split_go sep k cur r
    | O =>
      if startswith s sep
      then rev cur :: split_go sep (length sep - 1) [] r
      else split_go sep 0 (c :: cur) r
    end
  end.

Definition split (s sep : str) : list str := split_go sep 0 [] s.

(** [sep.join(parts)] *)
Fixpoint join (sep : str) (parts : list str) : str :=
  match parts with
  | [] => []
  | [p] => p
  | p :: r => p ++ sep ++ join sep r
  end.

(** [str(n)] for a natural number. *)
Fixpoint digits_go (fuel : nat) (n : N) (acc : str) : str :=
  match fuel with
  | O => acc
  | S f =>
    let acc' := (48 + n mod 10)%N :: acc in
    if (n <? 10)%N then acc' else digits_go f (n / 10)%N acc'
  end.

Definition of_nat (n : nat) : str :=
  digits_go (S n) (N.of_nat n) [].

(** [str.lower()] on the ASCII letters. The full Unicode case table is
    not part of the program; functions that call [lower()] take the
    mapping as a parameter, and the examples instantiate it with this
    one, which agrees with Python on ASCII and on caseless scripts. *)
Definition lower_ascii (s : str) : str :=
  map (fun c => if ((65 <=? c) && (c <=? 90))%N then (c + 32)%N else c) s.

(** [lst[i]] with Python's negative indices; [None] is [IndexError]. *)
Definition index {A} (l : list A) (i : Z) : option A :=
  if 0 <=? i then l !! Z.to_nat i
  else if - Z.of_nat (length l) <=? i
       then l !! Z.to_nat (Z.of_nat (length l) + i)
       else None.

(** [s.find(c)] for a single character [c]: the first index of [c] at or
    after index [i], or [-1]. *)
Fixpoint find_from (c : N) (s : str) (i : Z) : Z :=
  match s with
  | [] => -1
  | x :: r => if (x =? c)%N then i else find_from c r (i + 1)
  end.

Definition str_find (s : str) (c : N) : Z := find_from c s 0.

(** [s.rfind(c)] for a single character [c]. *)
Definition str_rfind (s : str) (c : N) : Z :=
  let i := str_find (rev s) c in
  if i =? -1 then -1 else len s - 1 - i.

(** [s[a:b]] for [0 <= a <= b]. *)
Definition slice (a b : Z) (s : str) : str :=
  take (Z.to_nat (b - a)) (drop (Z.to_nat a) s).

End PyStr.

Import PyStr.

(* ===================================================================== *)
(** * JSON payloads and control outcomes *)
(* ===================================================================== *)

(** Free-form JSON carried through the pipeline without being inspected. *)
#[warnings="-register-all"]
(** A number as [json.loads] gives it: a finite value, held exactly, or one
    of the values that Python reads from [NaN], [Infinity] and
    [-Infinity]. *)
Inductive number : Type :=
| Num (q : Q)
| NaN
| Infinity
| NegInfinity.

Coercion Num : Q >-> number.
Bind Scope Q_scope with number.

(** Python's [x < y] on numbers: false whenever [x] or [y] is [NaN]. *)
Definition number_lt (x y : number) : bool :=
  match x, y with
  | NaN, _ => false
  | _, NaN => false
  | Num a, Num b => negb (Qle_bool b a)
  | Num _, Infinity => true
  | Num _, NegInfinity => false
  | Infinity, _ => false
  | NegInfinity, NegInfinity => false
  | NegInfinity, _ => true
  end.

Inductive json : Type :=
| JNull
| JBool (b : bool)
| JNum (n : number)
| JStr (s : str)
| JArr (items : list json)
| JObj (fields : list (str * json)).

(** [d.get(k, default)] on an optional field. *)
Notation "o '.get' d" := (default d o) (at level 9, d at level 9, only parsing).

(** The result of a call that may raise: [Raise e] or [Return a]. *)
Inductive outcome (E A : Type) : Type :=
| Raise (e : E)
| Return (a : A).
Arguments Raise {E A} e.
Arguments Return {E A} a.

(** An exception value. *)
Definition exn : Type := str.

(* ===================================================================== *)
(** * knowledge_graph_fuser.py *)
(* ===================================================================== *)

(** A node of [main_logic_kg.json]. *)
Module MainNode.
Record t := mk {
  id : option str;
  label : option str;
  summary : option str;
  difficulty : option Z;
  section_num : option str;
  key_concepts : option (list str);
  learning_objectives : option (list str);
  knowledge_layer : option str;
  prerequisites : option (list str)
}.
End MainNode.

(** An edge of [main_logic_kg.json]. *)
Module MainEdge.
Record t := mk {
  source_id : option str;
  target_id : option str;
  relationship : option str;
  description : option str;
  weight : option number;
  reasoning : option str
}.
End MainEdge.

Module MainKG.
Record t := mk {
  nodes : option (list MainNode.t);
  edges : option (list MainEdge.t)
}.
End MainKG.

(** A node of a section fragment, as read back from
    [sub_logic_summary.json]. *)
Module SubNode.
Record t := mk {
  id : option str;
  label : option str;
  node_type : option str;
  summary : option str;
  difficulty : option Z;
  keywords : option (list str);
  formulas : option (list str);
  applications : option (list str);
  properties : option json
}.
End SubNode.

Module SubEdge.
Record t := mk {
  source_id : option str;
  target_id : option str;
  relationship : option str;
  description : option str;
  weight : option number;
  evidence : option str;
  bidirectional : option bool
}.
End SubEdge.

Module SubKG.
Record t := mk {
  section_num : option str;
  nodes : option (list SubNode.t);
  edges : option (list SubEdge.t)
}.
End SubKG.

(** An entry of [cross_section_connections.json]. *)
Module Conn.
Record t := mk {
  has_connection : option bool;
  source_id : option str;
  target_id : option str;
  connection_type : option str;
  connection_strength : option number;
  description : option str;
  technical_evidence : option str
}.
End Conn.

(** A node of the unified graph. *)
Module UNode.
Record t := mk {
  id : str;
  label : str;
  node_type : str;
  summary : str;
  difficulty : Z;
  section_num : str;
  keywords : list str;
  formulas : list str;
  applications : list str;
  properties : json;
  level : Z;
  source : str
}.
End UNode.

(** An edge of the unified graph. *)
Module UEdge.
Record t := mk {
  source_id : str;
  target_id : str;
  relationship : str;
  description : str;
  weight : number;
  evidence : str;
  bidirectional : bool;
  edge_type : str;
  source : str
}.
End UEdge.

Module Statistics.
Record t := mk {
  total_nodes : Z;
  total_edges : Z;
  main_logic_nodes : Z;
  basic_concept_nodes : Z;
  core_technology_nodes : Z;
  circuit_application_nodes : Z;
  cross_section_edges : Z
}.
End Statistics.

Module Metadata.
Record t := mk {
  fusion_method : str;
  main_logic_source : str;
  sub_logic_source : str;
  cross_connections_source : str;
  fusion_timestamp : str
}.
End Metadata.

Module UnifiedKG.
Record t := mk {
  title : str;
  timestamp : str;
  nodes : list UNode.t;
  edges : list UEdge.t;
  statistics : Statistics.t;
  metadata : Metadata.t
}.
End UnifiedKG.

(** The three per-section node lists of [_fuse_graphs]. *)
Module SectionNodes.
Record t := mk {
  basic_concepts : list UNode.t;
  core_technologies : list UNode.t;
  circuit_applications : list UNode.t
}.
End SectionNodes.

Module Fuser.

(** The loop shared by the two passes of [_optimize_unified_kg]: keep an
    item when its key is not in [seen], and add the key to [seen]. *)
Fixpoint dedup_by {K A} `{Countable K} (key : A -> K) (seen : gset K)
  (items : list A) : list A :=
  match items with
  | [] => []
  | x :: rest =>
    if decide (key x ∈ seen) then dedup_by key seen rest
    else x :: dedup_by key ({[key x]} ∪ seen) rest
  end.

(** [_get_node_level] *)
Definition _get_node_level (node_type : str) : Z :=
  if decide (node_type = u "main_logic") then 0
  else if decide (node_type = u "basic_concept") then 1
  else if decide (node_type = u "core_technology") then 2
  else if decide (node_type = u "circuit_application") then 3
  else 1.

(** [_find_main_logic_node_for_section] *)
Definition _find_main_logic_node_for_section
  (main_logic_nodes : list UNode.t) (section_num : str) : option UNode.t :=
  match find (fun node => bool_decide (UNode.section_num node = section_num))
             main_logic_nodes with
  | Some node => Some node
  | None =>
    let section_prefix :=
      if contains section_num (u ".")
      then hd [] (split section_num (u "."))
      else section_num in
    find (fun node => startswith (UNode.section_num node) section_prefix)
         main_logic_nodes
  end.

(** The Jaccard similarity of two keyword sets, in the words of the
    specification: the size of the intersection over the size of the union,
    and 0 when the union is empty. *)
Definition jaccard (K1 K2 : gset str) : Q :=
  if bool_decide (K1 ∪ K2 = ∅) then 0%Q
  else (inject_Z (Z.of_nat (size (K1 ∩ K2)))
        / inject_Z (Z.of_nat (size (K1 ∪ K2))))%Q.

(** [set(node.get('keywords', []))] *)
Definition keyword_set (node : UNode.t) : gset str :=
  list_to_set (UNode.keywords node).

(** [_has_keyword_similarity]; the callers that rely on the default
    pass [default_threshold]. *)
Definition _has_keyword_similarity (node1 node2 : UNode.t) (threshold : Q)
  : bool :=
  let keywords1 : gset str := list_to_set (UNode.keywords node1) in
  let keywords2 : gset str := list_to_set (UNode.keywords node2) in
  if bool_decide (keywords1 = ∅) || bool_decide (keywords2 = ∅) then false
  else
    let intersection := keywords1 ∩ keywords2 in
    let union := keywords1 ∪ keywords2 in
    let similarity :=
      if bool_decide (union = ∅) then 0%Q
      else (inject_Z (Z.of_nat (size intersection))
            / inject_Z (Z.of_nat (size union)))%Q in
    Qle_bool threshold similarity.

Definition default_threshold : Q := 0.2.
Definition strong_threshold : Q := 0.4.

(** The comparison [len(intersection) / len(union) >= threshold] as
    Python performs it, in binary64: the quotient of the two sizes, rounded
    to nearest, against the threshold. The float literals 0.2 and 0.4 are
    the doubles nearest to 1/5 and 2/5, and rounding is monotone, so this
    comparison and the exact one of [_has_keyword_similarity] agree unless
    the exact ratio lies within one rounding step of the threshold without
    being equal to it, which takes a union of more than 2^52 keywords. *)
Definition reaches_binary64 (threshold : float) (intersection union : Z)
  : bool :=
  PrimFloat.leb threshold
    (PrimFloat.div (PrimFloat.of_uint63 (Uint63.of_Z intersection))
                   (PrimFloat.of_uint63 (Uint63.of_Z union))).

(** The float literals [0.2] and [0.4]. *)
Definition binary64_0_2 : float := 0x1.999999999999ap-3.
Definition binary64_0_4 : float := 0x1.999999999999ap-2.

(** [_has_strong_keyword_similarity] *)
Definition _has_strong_keyword_similarity (node1 node2 : UNode.t)
  (threshold : Q) : bool :=
  _has_keyword_similarity node1 node2 threshold.

Definition enables_edge (concept tech : UNode.t) : UEdge.t :=
  {| UEdge.source_id := UNode.id concept;
     UEdge.target_id := UNode.id tech;
     UEdge.relationship := u "enables";
     UEdge.description :=
       u "基础概念" ++ UNode.label concept ++ u "使能核心技术"
       ++ UNode.label tech;
     UEdge.weight := 0.7;
     UEdge.evidence := u "基于关键词相似性的层次连接";
     UEdge.bidirectional := false;
     UEdge.edge_type := u "hierarchical";
     UEdge.source := u "hierarchical_connection" |}.

Definition implements_edge (tech app : UNode.t) : UEdge.t :=
  {| UEdge.source_id := UNode.id tech;
     UEdge.target_id := UNode.id app;
     UEdge.relationship := u "implements";
     UEdge.description :=
       u "核心技术" ++ UNode.label tech ++ u "实现电路应用"
       ++ UNode.label app;
     UEdge.weight := 0.8;
     UEdge.evidence := u "基于关键词相似性的层次连接";
     UEdge.bidirectional := false;
     UEdge.edge_type := u "hierarchical";
     UEdge.source := u "hierarchical_connection" |}.

Definition supports_edge (concept app : UNode.t) : UEdge.t :=
  {| UEdge.source_id := UNode.id concept;
     UEdge.target_id := UNode.id app;
     UEdge.relationship := u "supports";
     UEdge.description :=
       u "基础概念" ++ UNode.label concept ++ u "支撑电路应用"
       ++ UNode.label app;
     UEdge.weight := 0.6;
     UEdge.evidence := u "基于强关键词相似性的直接支撑";
     UEdge.bidirectional := false;
     UEdge.edge_type := u "hierarchical";
     UEdge.source := u "hierarchical_connection" |}.

(** The nested loops of the fuser: for [x] in [xs], for [y] in [ys],
    append [mk x y] when [test x y] holds. *)
Definition pairs_where {A B C} (test : A -> B -> bool) (mk : A -> B -> C)
  (xs : list A) (ys : list B) : list C :=
  flat_map (fun x =>
    flat_map (fun y => if test x y then [mk x y] else []) ys) xs.

(** [_build_hierarchical_connections]: the edges it appends to
    [unified_edges], in order. *)
Definition _build_hierarchical_connections (section_nodes : SectionNodes.t)
  : list UEdge.t :=
  pairs_where (fun concept tech =>
                 _has_keyword_similarity concept tech default_threshold)
              enables_edge
              (SectionNodes.basic_concepts section_nodes)
              (SectionNodes.core_technologies section_nodes)
  ++ pairs_where (fun tech app =>
                    _has_keyword_similarity tech app default_threshold)
                 implements_edge
                 (SectionNodes.core_technologies section_nodes)
                 (SectionNodes.circuit_applications section_nodes)
  ++ pairs_where (fun concept app =>
                    _has_strong_keyword_similarity concept app
                      strong_threshold)
                 supports_edge
                 (SectionNodes.basic_concepts section_nodes)
                 (SectionNodes.circuit_applications section_nodes).

Definition relates_edge (app other_app : UNode.t) : UEdge.t :=
  {| UEdge.source_id := UNode.id app;
     UEdge.target_id := UNode.id other_app;
     UEdge.relationship := u "relates_to_application";
     UEdge.description :=
       u "电路应用" ++ UNode.label app ++ u "与" ++ UNode.label other_app
       ++ u "技术相关";
     UEdge.weight := 0.5;
     UEdge.evidence := u "基于关键词相似性的应用关联";
     UEdge.bidirectional := true;
     UEdge.edge_type := u "application_network";
     UEdge.source := u "application_connection" |}.

(** [_build_circuit_application_connections]: the edges it appends. *)
Definition _build_circuit_application_connections
  (circuit_applications : list UNode.t) : list UEdge.t :=
  pairs_where
    (fun app other_app =>
       negb (bool_decide (UNode.id app = UNode.id other_app))
       && negb (bool_decide
                  (UNode.section_num app = UNode.section_num other_app))
       && _has_keyword_similarity app other_app default_threshold)
    relates_edge circuit_applications circuit_applications.

(** Step 1 of [_fuse_graphs]: the unified node of a main-logic node. *)
Definition unify_main_node (node : MainNode.t) : UNode.t :=
  {| UNode.id := (MainNode.id node).get [];
     UNode.label := (MainNode.label node).get [];
     UNode.node_type := u "main_logic";
     UNode.summary := (MainNode.summary node).get [];
     UNode.difficulty := (MainNode.difficulty node).get 3;
     UNode.section_num := (MainNode.section_num node).get [];
     UNode.keywords := (MainNode.key_concepts node).get [];
     UNode.formulas := [];
     UNode.applications := (MainNode.learning_objectives node).get [];
     UNode.properties :=
       JObj [(u "knowledge_layer",
              JStr ((MainNode.knowledge_layer node).get []));
             (u "prerequisites",
              JArr (map JStr ((MainNode.prerequisites node).get [])))];
     UNode.level := 0;
     UNode.source := u "main_logic" |}.

(** Step 2: the unified edge of a main-logic edge. *)
Definition unify_main_edge (edge : MainEdge.t) : UEdge.t :=
  {| UEdge.source_id := (MainEdge.source_id edge).get [];
     UEdge.target_id := (MainEdge.target_id edge).get [];
     UEdge.relationship := (MainEdge.relationship edge).get [];
     UEdge.description := (MainEdge.description edge).get [];
     UEdge.weight := (MainEdge.weight edge).get (Num 0.5);
     UEdge.evidence := (MainEdge.reasoning edge).get [];
     UEdge.bidirectional := false;
     UEdge.edge_type := u "main_logic";
     UEdge.source := u "main_logic" |}.

(** Step 3: the unified node of a fragment node of section [section_num]. *)
Definition unify_sub_node (section_num : str) (node : SubNode.t) : UNode.t :=
  {| UNode.id := (SubNode.id node).get [];
     UNode.label := (SubNode.label node).get [];
     UNode.node_type := (SubNode.node_type node).get (u "basic_concept");
     UNode.summary := (SubNode.summary node).get [];
     UNode.difficulty := (SubNode.difficulty node).get 3;
     UNode.section_num := section_num;
     UNode.keywords := (SubNode.keywords node).get [];
     UNode.formulas := (SubNode.formulas node).get [];
     UNode.applications := (SubNode.applications node).get [];
     UNode.properties := (SubNode.properties node).get (JObj []);
     UNode.level :=
       _get_node_level ((SubNode.node_type node).get (u "basic_concept"));
     UNode.source := u "sub_logic" |}.

Definition has_type (node_type : str) (node : UNode.t) : bool :=
  bool_decide (UNode.node_type node = node_type).

(** The classification of a section's nodes by type. *)
Definition classify_section (nodes : list UNode.t) : SectionNodes.t :=
  {| SectionNodes.basic_concepts :=
       List.filter (has_type (u "basic_concept")) nodes;
     SectionNodes.core_technologies :=
       List.filter (has_type (u "core_technology")) nodes;
     SectionNodes.circuit_applications :=
       List.filter (has_type (u "circuit_application")) nodes |}.

Definition contains_application_edge (section_num : str)
  (main_node app_node : UNode.t) : UEdge.t :=
  {| UEdge.source_id := UNode.id main_node;
     UEdge.target_id := UNode.id app_node;
     UEdge.relationship := u "contains_application";
     UEdge.description :=
       u "主逻辑章节" ++ section_num ++ u "包含电路应用"
       ++ UNode.label app_node;
     UEdge.weight := 0.9;
     UEdge.evidence := u "章节" ++ section_num ++ u "的主要应用";
     UEdge.bidirectional := false;
     UEdge.edge_type := u "main_to_sub";
     UEdge.source := u "hierarchical_connection" |}.

(** The state of the loop of step 3: [unified_nodes], [unified_edges]
    and [circuit_applications]. *)
Definition fuse_state : Type := list UNode.t * list UEdge.t * list UNode.t.

(** The unified nodes the loop of step 3 makes of the fragment [kg]. *)
Definition section_unified_nodes (kg : SubKG.t) : list UNode.t :=
  map (unify_sub_node ((SubKG.section_num kg).get []))
      ((SubKG.nodes kg).get []).

(** The edges the loop of step 3 appends for the fragment [kg]: from the
    main-logic node of the section to its circuit applications, then the
    hierarchical connections. *)
Definition section_edges (main_logic_nodes : list UNode.t) (kg : SubKG.t)
  : list UEdge.t :=
  let section_num := (SubKG.section_num kg).get [] in
  let section_nodes := classify_section (section_unified_nodes kg) in
  match _find_main_logic_node_for_section main_logic_nodes section_num with
  | Some main_node =>
    map (contains_application_edge section_num main_node)
        (SectionNodes.circuit_applications section_nodes)
  | None => []
  end
  ++ _build_hierarchical_connections section_nodes.

(** One iteration of the loop of step 3, for the fragment [kg]. *)
Definition fuse_section (main_logic_nodes : list UNode.t)
  (st : fuse_state) (kg : SubKG.t) : fuse_state :=
  let '(unified_nodes, unified_edges, circuit_applications) := st in
  (unified_nodes ++ section_unified_nodes kg,
   unified_edges ++ section_edges main_logic_nodes kg,
   circuit_applications
     ++ SectionNodes.circuit_applications
          (classify_section (section_unified_nodes kg))).

(** Step 4: the unified edge of a fragment edge. *)
Definition unify_sub_edge (edge : SubEdge.t) : UEdge.t :=
  {| UEdge.source_id := (SubEdge.source_id edge).get [];
     UEdge.target_id := (SubEdge.target_id edge).get [];
     UEdge.relationship := (SubEdge.relationship edge).get [];
     UEdge.description := (SubEdge.description edge).get [];
     UEdge.weight := (SubEdge.weight edge).get (Num 0.5);
     UEdge.evidence := (SubEdge.evidence edge).get [];
     UEdge.bidirectional := (SubEdge.bidirectional edge).get false;
     UEdge.edge_type := u "intra_section";
     UEdge.source := u "sub_logic" |}.

(** Step 6: the unified edge of a cross-section connection. *)
Definition unify_connection (conn : Conn.t) : UEdge.t :=
  {| UEdge.source_id := (Conn.source_id conn).get [];
     UEdge.target_id := (Conn.target_id conn).get [];
     UEdge.relationship := (Conn.connection_type conn).get (u "relates_to");
     UEdge.description := (Conn.description conn).get [];
     UEdge.weight := (Conn.connection_strength conn).get (Num 0.5);
     UEdge.evidence := (Conn.technical_evidence conn).get [];
     UEdge.bidirectional := false;
     UEdge.edge_type := u "inter_section";
     UEdge.source := u "cross_connection" |}.

Definition count {A} (p : A -> bool) (l : list A) : Z :=
  Z.of_nat (length (List.filter p l)).

(** [_fuse_graphs]; [now1] and [now2] are the two readings of the clock. *)
Definition _fuse_graphs (now1 now2 : str) (main_logic_kg : MainKG.t)
  (sub_logic_kgs : list SubKG.t) (cross_connections : list Conn.t)
  : UnifiedKG.t :=
  let main_logic_nodes :=
    map unify_main_node ((MainKG.nodes main_logic_kg).get []) in
  let main_logic_edges :=
    map unify_main_edge ((MainKG.edges main_logic_kg).get []) in
  let '(unified_nodes, unified_edges, circuit_applications) :=
    foldl (fuse_section main_logic_nodes)
          (main_logic_nodes, main_logic_edges, []) sub_logic_kgs in
  let unified_edges :=
    unified_edges
    ++ flat_map (fun kg => map unify_sub_edge ((SubKG.edges kg).get []))
                sub_logic_kgs in
  let unified_edges :=
    unified_edges
    ++ _build_circuit_application_connections circuit_applications in
  let unified_edges :=
    unified_edges
    ++ map unify_connection
           (List.filter (fun conn => (Conn.has_connection conn).get false)
                        cross_connections) in
  {| UnifiedKG.title := u "CAL-KG统一知识图谱";
     UnifiedKG.timestamp := now1;
     UnifiedKG.nodes := unified_nodes;
     UnifiedKG.edges := unified_edges;
     UnifiedKG.statistics :=
       {| Statistics.total_nodes := Z.of_nat (length unified_nodes);
          Statistics.total_edges := Z.of_nat (length unified_edges);
          Statistics.main_logic_nodes :=
            count (has_type (u "main_logic")) unified_nodes;
          Statistics.basic_concept_nodes :=
            count (has_type (u "basic_concept")) unified_nodes;
          Statistics.core_technology_nodes :=
            count (has_type (u "core_technology")) unified_nodes;
          Statistics.circuit_application_nodes :=
            count (has_type (u "circuit_application")) unified_nodes;
          Statistics.cross_section_edges :=
            count (fun e => bool_decide
                              (UEdge.edge_type e = u "inter_section"))
                  unified_edges |};
     UnifiedKG.metadata :=
       {| Metadata.fusion_method := u "hierarchical_integration";
          Metadata.main_logic_source := u "main_logic_kg.json";
          Metadata.sub_logic_source := u "sub_logic_summary.json";
          Metadata.cross_connections_source :=
            u "cross_section_connections.json";
          Metadata.fusion_timestamp := now2 |} |}.

(** The key under which [_optimize_unified_kg] deduplicates edges. *)
Definition edge_key (edge : UEdge.t) : str * str * str :=
  (UEdge.source_id edge, UEdge.target_id edge, UEdge.relationship edge).

(** [_optimize_unified_kg] *)
Definition _optimize_unified_kg (unified_kg : UnifiedKG.t) : UnifiedKG.t :=
  let unique_nodes := dedup_by UNode.id ∅ (UnifiedKG.nodes unified_kg) in
  let unique_edges := dedup_by edge_key ∅ (UnifiedKG.edges unified_kg) in
  let statistics := UnifiedKG.statistics unified_kg in
  {| UnifiedKG.title := UnifiedKG.title unified_kg;
     UnifiedKG.timestamp := UnifiedKG.timestamp unified_kg;
     UnifiedKG.nodes := unique_nodes;
     UnifiedKG.edges := unique_edges;
     UnifiedKG.statistics :=
       {| Statistics.total_nodes := Z.of_nat (length unique_nodes);
          Statistics.total_edges := Z.of_nat (length unique_edges);
          Statistics.main_logic_nodes :=
            Statistics.main_logic_nodes statistics;
          Statistics.basic_concept_nodes :=
            Statistics.basic_concept_nodes statistics;
          Statistics.core_technology_nodes :=
            Statistics.core_technology_nodes statistics;
          Statistics.circuit_application_nodes :=
            Statistics.circuit_application_nodes statistics;
          Statistics.cross_section_edges :=
            Statistics.cross_section_edges statistics |};
     UnifiedKG.metadata := UnifiedKG.metadata unified_kg |}.

(** [fuse_knowledge_graphs] on the three loaded inputs. A loader that
    fails returns an empty dictionary or list; [None] stands for the empty
    dictionary, both as the loaded main graph and as the result. *)
Definition fuse_knowledge_graphs (now1 now2 : str)
  (main_logic_kg : option MainKG.t) (sub_logic_kgs : list SubKG.t)
  (cross_connections : list Conn.t) : option UnifiedKG.t :=
  match main_logic_kg with
  | None => None
  | Some main_logic_kg =>
    match sub_logic_kgs with
    | [] => None
    | _ :: _ =>
      Some (_optimize_unified_kg
              (_fuse_graphs now1 now2 main_logic_kg sub_logic_kgs
                 cross_connections))
    end
  end.

End Fuser.

(* ===================================================================== *)
(** * sub_logic_generator.py *)
(* ===================================================================== *)

(** A section of [document_sections.json], as the splitter writes it. *)
Module Section.
Record t := mk {
  section_num : str;
  title : str;
  start_line : Z;
  end_line : Z;
  content : str
}.
End Section.

(** A node dictionary of an analysis: one the service returned, or one the
    rule-based extraction built. *)
Module Concept.
Record t := mk {
  id : option str;
  label : option str;
  node_type : option str;
  summary : option str;
  difficulty : option Z;
  keywords : option (list str);
  formulas : option (list str);
  applications : option (list str);
  prerequisite_knowledge : option (list str);
  related_sections : option (list str);
  prerequisites : option (list str);
  derived_concepts : option (list str);
  practical_examples : option (list str);
  technical_details : option str
}.
End Concept.

(** An entry of the [relationships] list of an analysis. *)
Module Rel.
Record t := mk {
  source_id : option str;
  target_id : option str;
  relationship : option str;
  description : option str;
  weight : option number;
  evidence : option str;
  bidirectional : option bool
}.
End Rel.

(** A non-empty analysis dictionary. *)
Module Analysis.
Record t := mk {
  basic_concepts : option (list Concept.t);
  core_technologies : option (list Concept.t);
  circuit_applications : option (list Concept.t);
  relationships : option (list Rel.t)
}.
End Analysis.

(** A node built by [_build_kg_from_analysis]. *)
Module KGNode.
Record t := mk {
  id : str;
  label : str;
  node_type : str;
  summary : str;
  difficulty : Z;
  keywords : list str;
  formulas : list str;
  applications : list str;
  related_sections : list str;
  prerequisites : list str;
  derived_concepts : list str;
  practical_examples : list str;
  technical_details : str
}.
End KGNode.

Module KGEdge.
Record t := mk {
  source_id : str;
  target_id : str;
  relationship : str;
  description : str;
  weight : number;
  evidence : str;
  bidirectional : bool
}.
End KGEdge.

(** A section fragment, as [_extract_concurrent] collects it. *)
Module KG.
Record t := mk {
  nodes : list KGNode.t;
  edges : list KGEdge.t;
  section_num : str;
  title : str;
  extraction_timestamp : str
}.
End KG.

Module SubLogic.

(** [circuit_terms], in the order of the dictionary literal. *)
Definition circuit_terms : list (str * list str) :=
  [ (u "basic_concept",
     [u "定义"; u "原理"; u "定律"; u "公式"; u "概念"; u "理论"; u "基础"]);
    (u "core_technology",
     [u "方法"; u "技术"; u "算法"; u "分析"; u "设计技巧"; u "实现方法"]);
    (u "circuit_application",
     [u "电路"; u "放大器"; u "滤波器"; u "振荡器"; u "比较器"; u "开关";
      u "变换器"; u "应用"; u "实例"; u "设计"]);
    (u "design_method",
     [u "流程"; u "步骤"; u "准则"; u "优化"; u "设计方法"]);
    (u "analysis_tool",
     [u "仿真"; u "测试"; u "工具"; u "软件"; u "SPICE"; u "Matlab"]) ].

(** [sum(1 for keyword in keywords if keyword in text)] *)
Definition score (text : str) (keywords : list str) : Z :=
  Z.of_nat (length (List.filter (fun keyword => contains text keyword)
                                keywords)).

(** [type_scores]: the score of every type, in dictionary order. *)
Definition type_scores (lower : str -> str) (para : str)
  : list (str * Z) :=
  map (fun '(type_name, keywords) => (type_name, score (lower para) keywords))
      circuit_terms.

(** [max(d, key=d.get)] on a non-empty dictionary: the first key, in
    insertion order, whose value is maximal. *)
Fixpoint max_key_go (best : str * Z) (rest : list (str * Z)) : str * Z :=
  match rest with
  | [] => best
  | x :: rest' =>
    if snd best <? snd x then max_key_go x rest' else max_key_go best rest'
  end.

(** The node type the loop body assigns to a paragraph. *)
Definition classify (lower : str -> str) (para : str) : str :=
  match type_scores lower para with
  | [] => u "basic_concept"
  | first :: rest =>
    let '(node_type, best_score) := max_key_go first rest in
    if best_score =? 0 then u "basic_concept" else node_type
  end.

(** The node the loop body builds for a retained paragraph. *)
Definition fallback_node (lower : str -> str) (section_num : str)
  (node_id : nat) (para : str) : Concept.t :=
  let node_type := classify lower para in
  let sentences := split para (u "。") in
  let first := hd [] sentences in
  let label :=
    if 50 <? len first then slice_to 50 first ++ u "..." else first in
  {| Concept.id :=
       Some (section_num ++ u "_" ++ node_type ++ u "_" ++ of_nat node_id);
     Concept.label := Some label;
     Concept.node_type := Some node_type;
     Concept.summary :=
       Some (if 300 <? len para then slice_to 300 para ++ u "..." else para);
     Concept.difficulty := Some 3;
     Concept.keywords := Some [];
     Concept.formulas := Some [];
     Concept.applications := Some [];
     Concept.prerequisite_knowledge := None;
     Concept.related_sections := Some [section_num];
     Concept.prerequisites := Some [];
     Concept.derived_concepts := Some [];
     Concept.practical_examples := Some [];
     Concept.technical_details := Some (slice_to 200 para) |}.

(** The paragraph loop of [_rule_based_extraction]: [node_id] is the
    ordinal of the next node. *)
Fixpoint fallback_nodes (lower : str -> str) (section_num : str)
  (node_id : nat) (paragraphs : list str) : list Concept.t :=
  match paragraphs with
  | [] => []
  | para :: rest =>
    if len para <? 50 then fallback_nodes lower section_num node_id rest
    else fallback_node lower section_num node_id para
         :: fallback_nodes lower section_num (S node_id) rest
  end.

Definition is_type (node_type : str) (n : Concept.t) : bool :=
  bool_decide (Concept.node_type n = Some node_type).

(** The paragraphs of a section: the stripped, non-empty pieces between
    blank lines. *)
Definition paragraphs_of (content : str) : list str :=
  List.filter (fun p => negb (bool_decide (p = [])))
              (map strip (split content [10; 10]%N)).

(** [_rule_based_extraction] *)
Definition _rule_based_extraction (lower : str -> str)
  (section_num title content : str) : Analysis.t :=
  let paragraphs := paragraphs_of content in
  let nodes := fallback_nodes lower section_num 1 (take 10 paragraphs) in
  {| Analysis.basic_concepts :=
       Some (List.filter (is_type (u "basic_concept")) nodes);
     Analysis.core_technologies :=
       Some (List.filter (is_type (u "core_technology")) nodes);
     Analysis.circuit_applications :=
       Some (List.filter (is_type (u "circuit_application")) nodes);
     Analysis.relationships := Some [] |}.

(** A truthy value that the extraction call returns as analysis: a
    dictionary with entries of the shape that [_build_kg_from_analysis]
    reads, or a value on which the body of [_build_kg_from_analysis]
    raises. The latter is what [json.loads] gives for a reply that is no
    dictionary (then [.get] is no attribute), or for a dictionary in which
    one of the four lists is no list of dictionaries, a [properties] is no
    dictionary, or a [summary] is [null] or a number, which cannot be
    sliced. *)
Inductive analysis : Type :=
| Dict (analysis_data : Analysis.t)
| IllTyped.

(** What one request to the extraction service comes to: a transport
    error, a reply that [json.loads] rejects, or a parsed value, [None]
    when that value is falsy (an empty dictionary, list or string, [null],
    [false] or zero). *)
Inductive reply : Type :=
| TransportError
| Malformed
| Parsed (kg_data : option analysis).

(** [_call_deepseek_with_cot_triplet_extraction], given the reply the
    service makes to this request. *)
Definition _call_deepseek_with_cot_triplet_extraction (lower : str -> str)
  (service_reply : reply) (section : Section.t) : option analysis :=
  match service_reply with
  | Parsed kg_data => kg_data
  | Malformed =>
    Some (Dict (_rule_based_extraction lower (Section.section_num section)
                  (Section.title section) (Section.content section)))
  | TransportError =>
    Some (Dict (_rule_based_extraction lower (Section.section_num section)
                  (Section.title section) (Section.content section)))
  end.

(** The node [_build_kg_from_analysis] makes of a dictionary of the list
    [basic_concepts], [core_technologies] or [circuit_applications]. *)
Definition build_node (node_type : str) (default_difficulty : Z)
  (with_prerequisites : bool) (c : Concept.t) : KGNode.t :=
  {| KGNode.id := (Concept.id c).get [];
     KGNode.label := (Concept.label c).get [];
     KGNode.node_type := node_type;
     KGNode.summary := (Concept.summary c).get [];
     KGNode.difficulty := (Concept.difficulty c).get default_difficulty;
     KGNode.keywords := (Concept.keywords c).get [];
     KGNode.formulas := (Concept.formulas c).get [];
     KGNode.applications := (Concept.applications c).get [];
     KGNode.related_sections := [];
     KGNode.prerequisites :=
       if with_prerequisites
       then (Concept.prerequisite_knowledge c).get []
       else [];
     KGNode.derived_concepts := [];
     KGNode.practical_examples := [];
     KGNode.technical_details :=
       slice_to 200 ((Concept.summary c).get []) |}.

Definition build_edge (rel : Rel.t) : KGEdge.t :=
  {| KGEdge.source_id := (Rel.source_id rel).get [];
     KGEdge.target_id := (Rel.target_id rel).get [];
     KGEdge.relationship := (Rel.relationship rel).get (u "relates_to");
     KGEdge.description := (Rel.description rel).get [];
     KGEdge.weight := (Rel.weight rel).get (Num 0.5);
     KGEdge.evidence := (Rel.evidence rel).get [];
     KGEdge.bidirectional := (Rel.bidirectional rel).get false |}.

(** The body of the [try] block of [_build_kg_from_analysis], on a
    dictionary: the [nodes] and [edges] of the fragment. *)
Definition build_kg (analysis_data : Analysis.t)
  : list KGNode.t * list KGEdge.t :=
  (map (build_node (u "basic_concept") 2 true)
       ((Analysis.basic_concepts analysis_data).get [])
   ++ map (build_node (u "core_technology") 3 false)
          ((Analysis.core_technologies analysis_data).get [])
   ++ map (build_node (u "circuit_application") 4 false)
          ((Analysis.circuit_applications analysis_data).get []),
   map build_edge ((Analysis.relationships analysis_data).get [])).

(** [_build_kg_from_analysis]: the [nodes] and [edges] of the fragment;
    [None] is the empty dictionary that the [except] branch returns when
    the body raises. *)
Definition _build_kg_from_analysis (analysis_data : analysis)
  : option (list KGNode.t * list KGEdge.t) :=
  match analysis_data with
  | Dict analysis_data => Some (build_kg analysis_data)
  | IllTyped => None
  end.

(** The extraction call as [process_single_section] sees it: the outcome
    of the call made for a section when [k] calls were made for it before. *)
Definition worker : Type :=
  Section.t -> nat -> outcome exn (option analysis).

(** The retry loop of [process_single_section]: [rem] attempts remain,
    [calls] calls of the worker were made so far. The result carries the
    number of calls made. *)
Fixpoint process_attempts (w : worker) (section : Section.t)
  (rem calls : nat) : (Section.t * option analysis * bool) * nat :=
  match rem with
  | O => ((section, None, false), calls)
  | S rem' =>
    match w section calls with
    | Return (Some analysis_data) =>
      ((section, Some analysis_data, true), S calls)
    | Return None => process_attempts w section rem' (S calls)
    | Raise _ => process_attempts w section rem' (S calls)
    end
  end.

(** [process_single_section] *)
Definition process_single_section (w : worker) (max_retries : nat)
  (section : Section.t) : Section.t * option analysis * bool :=
  fst (process_attempts w section max_retries 0).

(** The number of times [process_single_section] calls the worker. *)
Definition section_attempts (w : worker) (max_retries : nat)
  (section : Section.t) : nat :=
  snd (process_attempts w section max_retries 0).

(** The body of the collecting loop of [_extract_concurrent]: the state is
    [results] and [self.failed_sections]; [clock] reads the time at which
    the fragment of a section is collected. When the task succeeded and
    [_build_kg_from_analysis] returns the empty dictionary, [if kg_data:]
    has no [else]: the section goes to neither list. *)
Definition collect_section (clock : Section.t -> str)
  (st : list KG.t * list str)
  (r : Section.t * option analysis * bool) : list KG.t * list str :=
  let '(results, failed_sections) := st in
  let '(section_data, analysis_data, success) := r in
  match success, analysis_data with
  | true, Some analysis_data =>
    match _build_kg_from_analysis analysis_data with
    | Some (nodes, edges) =>
      (results ++ [ {| KG.nodes := nodes;
                       KG.edges := edges;
                       KG.section_num := Section.section_num section_data;
                       KG.title := Section.title section_data;
                       KG.extraction_timestamp := clock section_data |} ],
       failed_sections)
    | None => (results, failed_sections)
    end
  | _, _ =>
    (results, failed_sections ++ [Section.section_num section_data])
  end.

(** [_extract_concurrent]: every section is submitted to the pool, and the
    results are collected in the order [as_completed] yields them, which is
    some permutation of the submitted tasks. Returns [results] and
    [self.failed_sections]. *)
Definition _extract_concurrent
  (as_completed : forall A : Type, list A -> list A)
  (w : worker) (max_retries : nat) (clock : Section.t -> str)
  (sections : list Section.t) : list KG.t * list str :=
  foldl (collect_section clock) ([], [])
        (as_completed _ (map (process_single_section w max_retries)
                             sections)).

(** [_is_valid_kg] *)
Definition _is_valid_kg (kg : KG.t) : bool :=
  if bool_decide (KG.nodes kg = []) then false
  else if Z.of_nat (length (KG.nodes kg)) <? 2 then false
  else forallb (fun node =>
                  negb (bool_decide (KGNode.id node = [])
                        || bool_decide (KGNode.label node = [])))
               (KG.nodes kg).

(** [_validate_sub_logic_kgs] *)
Definition _validate_sub_logic_kgs (sub_logic_kgs : list KG.t) : list KG.t :=
  List.filter _is_valid_kg sub_logic_kgs.

(** [_load_sections_data] on the sections of [document_sections.json];
    [None] when the file cannot be read. *)
Definition _load_sections_data (sections_file : option (list Section.t))
  : option (list Section.t) :=
  match sections_file with
  | None => None
  | Some sections =>
    Some (List.filter (fun section => 200 <? len (Section.content section))
                      sections)
  end.

(** [generate_sub_logic]: the validated fragments. *)
Definition generate_sub_logic
  (as_completed : forall A : Type, list A -> list A)
  (w : worker) (max_retries : nat) (clock : Section.t -> str)
  (sections_file : option (list Section.t)) : list KG.t :=
  match _load_sections_data sections_file with
  | None => []
  | Some sections =>
    _validate_sub_logic_kgs
      (fst (_extract_concurrent as_completed w max_retries clock sections))
  end.

(** The worker of the section workload: the extraction call, answered by
    [service]. Every failure of the service is caught inside the call. *)
Definition extraction_worker (lower : str -> str)
  (service : Section.t -> nat -> reply) : worker :=
  fun section k =>
    Return (_call_deepseek_with_cot_triplet_extraction lower
              (service section k) section).

(** The service when it is entirely unavailable. *)
Definition unavailable : Section.t -> nat -> reply :=
  fun _ _ => TransportError.

(** [self.max_retries] *)
Definition max_retries : nat := 3.

End SubLogic.

(* ===================================================================== *)
(** * utils.py *)
(* ===================================================================== *)

Module Utils.

(** The loop of the wrapper [retry_on_failure(max_retries, delay)(func)].
    [func k] is the outcome of calling the wrapped function when it was
    called [k] times before; [rem] attempts remain, so the attempt number
    is [max_retries - rem]. The wrapper returns what [func] returns, raises
    what the last attempt raises, and returns [None] when the loop is
    empty; the second component is the number of calls made so far. *)
Fixpoint retry_attempts {A} (func : nat -> outcome exn A)
  (max_retries rem calls : nat) : outcome exn (option A) * nat :=
  match rem with
  | O => (Return None, calls)
  | S rem' =>
    match func calls with
    | Return a => (Return (Some a), S calls)
    | Raise e =>
      if bool_decide (max_retries - rem = max_retries - 1)%nat
      then (Raise e, S calls)
      else retry_attempts func max_retries rem' (S calls)
    end
  end.

(** [retry_on_failure] *)
Definition retry_on_failure {A} (max_retries : nat)
  (func : nat -> outcome exn A) (calls : nat)
  : outcome exn (option A) * nat :=
  retry_attempts func max_retries max_retries calls.


(** The characters [safe_filename] keeps: those the class [[\w\-_.]]
    holds; [is_word] is the class [\w]. *)
Definition safe_char (is_word : N -> bool) (c : N) : bool :=
  (is_word c || (c =? 45) || (c =? 95) || (c =? 46))%N.

(** [safe_filename] *)
Definition safe_filename (is_word : N -> bool) (text : str) : str :=
  let safe_text :=
    map (fun c => if safe_char is_word c then c else 95%N) text in
  slice_to 100 safe_text.

End Utils.

(* ===================================================================== *)
(** * main_logic_generator.py *)
(* ===================================================================== *)

(** An entry of [section_summaries]. *)
Module SectionSummary.
Record t := mk {
  section_num : str;
  title : str;
  content_preview : str;
  content_length : Z;
  word_count : Z
}.
End SectionSummary.

(** The analysis of the chapters that the service returns, a dictionary,
    as [_build_main_logic_kg] reads it. *)
Module MainAnalysis.
Record t := mk {
  main_knowledge_points : option (list MainNode.t);
  section_relationships : option (list MainEdge.t);
  knowledge_hierarchy : option json;
  learning_paths : option (list json);
  analysis_summary : option json
}.
End MainAnalysis.

Module MainLogicMetadata.
Record t := mk {
  generator : str;
  analysis_summary : json;
  total_nodes : Z;
  total_edges : Z
}.
End MainLogicMetadata.

(** The dictionary [_build_main_logic_kg] returns, written to
    [main_logic_kg.json]. *)
Module MainLogicKG.
Record t := mk {
  title : str;
  timestamp : str;
  nodes : list MainNode.t;
  edges : list MainEdge.t;
  knowledge_hierarchy : json;
  learning_paths : list json;
  metadata : MainLogicMetadata.t
}.
End MainLogicKG.

Module MainLogic.

(** [len(s.split())]: the number of maximal runs of characters that are
    not white space; [in_word] tells that the previous character was
    none. *)
Fixpoint count_words (in_word : bool) (s : str) : nat :=
  match s with
  | [] => 0
  | c :: r =>
    if is_space c then count_words false r
    else ((if in_word then 0 else 1) + count_words true r)%nat
  end.

(** The summary [_analyze_sections_with_cot] makes of a section. *)
Definition section_summary (section : Section.t) : SectionSummary.t :=
  let content := Section.content section in
  {| SectionSummary.section_num := Section.section_num section;
     SectionSummary.title := Section.title section;
     SectionSummary.content_preview :=
       if 800 <? len content then slice_to 800 content ++ u "..."
       else content;
     SectionSummary.content_length := len content;
     SectionSummary.word_count := Z.of_nat (count_words false content) |}.

(** What the request of the analysis comes to: [Failed] when the request
    or [json.loads] raises, else the dictionary parsed, [None] when it is
    empty. *)
Inductive reply : Type :=
| Failed
| Parsed (analysis_data : option MainAnalysis.t).

(** The body of [_call_deepseek_with_cot_analysis], given the reply: every
    exception of the request is caught and gives the empty dictionary. *)
Definition _call_deepseek_with_cot_analysis (service_reply : reply)
  : option MainAnalysis.t :=
  match service_reply with
  | Parsed analysis_data => analysis_data
  | Failed => None
  end.

(** [_analyze_sections_with_cot]: the call is the body above decorated
    with [retry_on_failure(max_retries=3, delay=2.0)]; [service summaries
    k] is the reply to the request made when [k] were made before. The
    second component is the number of requests. *)
Definition _analyze_sections_with_cot
  (service : list SectionSummary.t -> nat -> reply)
  (sections : list Section.t)
  : outcome exn (option MainAnalysis.t) * nat :=
  let section_summaries := map section_summary sections in
  match Utils.retry_on_failure 3
          (fun k => Return (_call_deepseek_with_cot_analysis
                              (service section_summaries k))) 0 with
  | (Return analysis_result, calls) =>
    (Return (analysis_result ≫= id), calls)
  | (Raise e, calls) => (Raise e, calls)
  end.

(** [_build_main_logic_kg] *)
Definition _build_main_logic_kg (now : str)
  (analysis_result : MainAnalysis.t) : MainLogicKG.t :=
  {| MainLogicKG.title := u "主逻辑知识图谱";
     MainLogicKG.timestamp := now;
     MainLogicKG.nodes :=
       (MainAnalysis.main_knowledge_points analysis_result).get [];
     MainLogicKG.edges :=
       (MainAnalysis.section_relationships analysis_result).get [];
     MainLogicKG.knowledge_hierarchy :=
       (MainAnalysis.knowledge_hierarchy analysis_result).get (JObj []);
     MainLogicKG.learning_paths :=
       (MainAnalysis.learning_paths analysis_result).get [];
     MainLogicKG.metadata :=
       {| MainLogicMetadata.generator := u "MainLogicGenerator";
          MainLogicMetadata.analysis_summary :=
            (MainAnalysis.analysis_summary analysis_result).get (JObj []);
          MainLogicMetadata.total_nodes :=
            Z.of_nat
              (length ((MainAnalysis.main_knowledge_points
                          analysis_result).get []));
          MainLogicMetadata.total_edges :=
            Z.of_nat
              (length ((MainAnalysis.section_relationships
                          analysis_result).get [])) |} |}.

(** [generate_main_logic], from the loaded [document_sections.json] on:
    [sections_data] is its list of sections, [None] when the file could
    not be loaded. [Return None] is the empty dictionary. *)
Definition generate_main_logic (now : str)
  (service : list SectionSummary.t -> nat -> reply)
  (sections_data : option (list Section.t))
  : outcome exn (option MainLogicKG.t) * nat :=
  match sections_data with
  | None => (Return None, 0%nat)
  | Some sections =>
    match _analyze_sections_with_cot service sections with
    | (Return None, calls) => (Return None, calls)
    | (Return (Some analysis_result), calls) =>
      (Return (Some (_build_main_logic_kg now analysis_result)), calls)
    | (Raise e, calls) => (Raise e, calls)
    end
  end.

End MainLogic.

(* ===================================================================== *)
(** * Cleaning a reply of the service *)
(* ===================================================================== *)

(** The method [_clean_json_response], which [document_splitter.py],
    [main_logic_generator.py], [sub_logic_generator.py] and
    [connection_analyzer.py] each define with the same body. *)
Module Reply.

(** [re.sub(r'```json\s*', '', content)]: scanning from the left, every
    occurrence of the fence [```json] is removed together with the white
    space that follows it, and the scan resumes after the match. [skip]
    counts the characters of a matched fence still to be passed over;
    [space] tells that the white space after a fence is being passed. *)
Fixpoint sub_json_fence (skip : nat) (space : bool) (s : str) : str :=
  match s with
  | [] => []
  | c :: r =>
    match skip with
    | S k => sub_json_fence k true r
    | O =>
      if space && is_space c then sub_json_fence 0 true r
      else if startswith s (u "```json") then sub_json_fence 6 true r
      else c :: sub_json_fence 0 false r
    end
  end.

(** [re.sub(r'```\s*$', '', content)]: the leftmost fence [```] that only
    white space follows is removed with that white space. The end anchor
    also matches before a final newline, which the greedy white space
    takes anyway. *)
Fixpoint sub_closing_fence (s : str) : str :=
  match s with
  | [] => []
  | c :: r =>
    if startswith s (u "```") && forallb is_space (drop 3 s)
    then []
    else c :: sub_closing_fence r
  end.

(** [_clean_json_response] *)
Definition _clean_json_response (content : str) : str :=
  let content := sub_json_fence 0 false content in
  let content := sub_closing_fence content in
  let content := strip content in
  let start_idx := str_find content 123 in
  let end_idx := str_rfind content 125 in
  if negb (start_idx =? -1) && negb (end_idx =? -1)
     && (start_idx <? end_idx)
  then slice start_idx (end_idx + 1) content
  else content.

End Reply.

(* ===================================================================== *)
(** * connection_analyzer.py *)
(* ===================================================================== *)

(** A circuit-application node, as [_extract_circuit_applications]
    builds it. *)
Module AppNode.
Record t := mk {
  id : str;
  label : str;
  summary : str;
  keywords : list str;
  applications : list str;
  section_num : str;
  section_title : str;
  difficulty : Z
}.
End AppNode.

(** An entry of the list [sub_logic_kgs] of [sub_logic_summary.json], as
    this module reads it. *)
Module LoadedKG.
Record t := mk {
  section_num : option str;
  title : option str;
  nodes : option (list SubNode.t)
}.
End LoadedKG.

Module ConnectionAnalyzer.

Definition node_pair : Type := AppNode.t * AppNode.t.

(** The nested loops of [_generate_node_pairs]: [app1] runs over the list
    and [app2] over the nodes after it. *)
Fixpoint cross_section_pairs (circuit_apps : list AppNode.t)
  : list node_pair :=
  match circuit_apps with
  | [] => []
  | app1 :: rest =>
    map (fun app2 => (app1, app2))
        (List.filter (fun app2 =>
                        negb (bool_decide (AppNode.section_num app1
                                           = AppNode.section_num app2)))
                     rest)
    ++ cross_section_pairs rest
  end.

(** What [random.sample(population, k)] may return: [k] elements of the
    population taken at pairwise distinct positions. *)
Definition is_sample {A} (population : list A) (k : nat) (chosen : list A)
  : Prop :=
  exists positions : list nat,
    length positions = k /\ NoDup positions
    /\ Forall2 (fun i x => population !! i = Some x) positions chosen.

(** [_generate_node_pairs]; [sample] is [random.sample]. *)
Definition _generate_node_pairs
  (sample : list node_pair -> nat -> list node_pair)
  (circuit_apps : list AppNode.t) : list node_pair :=
  let node_pairs := cross_section_pairs circuit_apps in
  if 1000 <? Z.of_nat (length node_pairs)
  then sample node_pairs 1000%nat
  else node_pairs.

(** The body of [_call_deepseek_for_connection_analysis] as its callers
    see it: the outcome of running it for a pair when it ran [k] times
    for that pair before. [Return None] is the empty dictionary. *)
Definition pair_call : Type :=
  node_pair -> nat -> outcome exn (option Conn.t).

(** [self.max_retries] *)
Definition max_retries : nat := 3.

(** The retry loop of [analyze_single_pair] around the call decorated with
    [retry_on_failure(max_retries=3, delay=1.0)]. *)
Fixpoint analyze_attempts (call : pair_call) (pair : node_pair)
  (rem calls : nat) : option Conn.t * nat :=
  match rem with
  | O => (None, calls)
  | S rem' =>
    match Utils.retry_on_failure 3 (call pair) calls with
    | (Return connection, calls') =>
      (match connection with
       | Some (Some connection) =>
         if (Conn.has_connection connection).get false
         then Some connection else None
       | _ => None
       end, calls')
    | (Raise _, calls') => analyze_attempts call pair rem' calls'
    end
  end.

(** [analyze_single_pair] *)
Definition analyze_single_pair (call : pair_call) (max_retries : nat)
  (pair : node_pair) : option Conn.t :=
  fst (analyze_attempts call pair max_retries 0).

(** The number of times [analyze_single_pair] runs the body of the
    decorated call. *)
Definition pair_attempts (call : pair_call) (max_retries : nat)
  (pair : node_pair) : nat :=
  snd (analyze_attempts call pair max_retries 0).

(** The body of the collecting loop of [_analyze_concurrent]: the state is
    [results] and [self.failed_pairs]; [r] is what [future.result()]
    does for the pair. *)
Definition collect_pair (st : list Conn.t * list str)
  (r : node_pair * outcome exn (option Conn.t)) : list Conn.t * list str :=
  let '(results, failed_pairs) := st in
  match r with
  | (_, Return (Some connection)) => (results ++ [connection], failed_pairs)
  | (_, Return None) => (results, failed_pairs)
  | ((app1, app2), Raise _) =>
    (results, failed_pairs ++ [AppNode.id app1 ++ u "-" ++ AppNode.id app2])
  end.

(** [_analyze_concurrent]: returns [results] and [self.failed_pairs].
    [analyze_single_pair] catches every exception of its attempts, so the
    future of a pair always holds a returned value. *)
Definition _analyze_concurrent
  (as_completed : forall A : Type, list A -> list A)
  (call : pair_call) (max_retries : nat) (node_pairs : list node_pair)
  : list Conn.t * list str :=
  foldl collect_pair ([], [])
        (as_completed _
           (map (fun pair =>
                   (pair, Return (analyze_single_pair call max_retries pair)))
                node_pairs)).

(** [_extract_circuit_applications] *)
Definition _extract_circuit_applications (sub_logic_data : list LoadedKG.t)
  : list AppNode.t :=
  flat_map
    (fun kg =>
       let section_num := (LoadedKG.section_num kg).get [] in
       let title := (LoadedKG.title kg).get [] in
       map (fun node =>
              {| AppNode.id := (SubNode.id node).get [];
                 AppNode.label := (SubNode.label node).get [];
                 AppNode.summary := (SubNode.summary node).get [];
                 AppNode.keywords := (SubNode.keywords node).get [];
                 AppNode.applications := (SubNode.applications node).get [];
                 AppNode.section_num := section_num;
                 AppNode.section_title := title;
                 AppNode.difficulty := (SubNode.difficulty node).get 3 |})
           (List.filter
              (fun node => bool_decide (SubNode.node_type node
                                        = Some (u "circuit_application")))
              ((LoadedKG.nodes kg).get [])))
    sub_logic_data.

(** What one request for a pair comes to: [Failed] when the request or
    [json.loads] raises, else the dictionary parsed. *)
Inductive reply : Type :=
| Failed
| Parsed (connection_data : Conn.t).

(** The body of [_call_deepseek_for_connection_analysis], given the reply
    of the service: on a connection the ids of the two nodes are written
    into the dictionary (with the sections, the labels and a timestamp,
    which nothing here reads); every exception of the request is caught
    and gives the empty dictionary, here [None]. *)
Definition _call_deepseek_for_connection_analysis (service_reply : reply)
  (app1 app2 : AppNode.t) : option Conn.t :=
  match service_reply with
  | Parsed connection_data =>
    if (Conn.has_connection connection_data).get false
    then Some {| Conn.has_connection := Conn.has_connection connection_data;
                 Conn.source_id := Some (AppNode.id app1);
                 Conn.target_id := Some (AppNode.id app2);
                 Conn.connection_type :=
                   Conn.connection_type connection_data;
                 Conn.connection_strength :=
                   Conn.connection_strength connection_data;
                 Conn.description := Conn.description connection_data;
                 Conn.technical_evidence :=
                   Conn.technical_evidence connection_data |}
    else Some connection_data
  | Failed => None
  end.

(** The connection call, answered by [service]. *)
Definition connection_call (service : node_pair -> nat -> reply)
  : pair_call :=
  fun pair k =>
    Return (_call_deepseek_for_connection_analysis (service pair k)
              (fst pair) (snd pair)).

(** The literal [0.3] of [_is_valid_connection]: the binary64 number it
    denotes, 5404319552844595 / 2^54. A finite strength is the exact value
    of the number [json.loads] parsed, so the comparison is exact. *)
Definition strength_threshold : Q :=
  5404319552844595 # 18014398509481984.

(** [_is_valid_connection] *)
Definition _is_valid_connection (connection : Conn.t) : bool :=
  if negb ((Conn.has_connection connection).get false) then false
  else if bool_decide ((Conn.source_id connection).get [] = [])
          || bool_decide ((Conn.target_id connection).get [] = [])
  then false
  else if number_lt ((Conn.connection_strength connection).get (Num 0))
                    strength_threshold
  then false
  else true.

(** [_validate_connections] *)
Definition _validate_connections (connections : list Conn.t)
  : list Conn.t :=
  List.filter _is_valid_connection connections.

(** [_analyze_connection_types]: the dictionary of counts. *)
Definition _analyze_connection_types (connections : list Conn.t)
  : gmap str Z :=
  foldl (fun type_counts conn =>
           let conn_type :=
             (Conn.connection_type conn).get (u "unknown") in
           <[conn_type := (type_counts !! conn_type).get 0 + 1]> type_counts)
        ∅ connections.

(** [analyze_connections], from the loaded fragments on; [sample] is
    [random.sample]. *)
Definition analyze_connections
  (as_completed : forall A : Type, list A -> list A)
  (sample : list node_pair -> nat -> list node_pair)
  (call : pair_call) (sub_logic_data : list LoadedKG.t) : list Conn.t :=
  match sub_logic_data with
  | [] => []
  | _ =>
    match _extract_circuit_applications sub_logic_data with
    | [] => []
    | circuit_apps =>
      match _generate_node_pairs sample circuit_apps with
      | [] => []
      | node_pairs =>
        _validate_connections
          (fst (_analyze_concurrent as_completed call max_retries
                  node_pairs))
      end
    end
  end.

End ConnectionAnalyzer.

(* ===================================================================== *)
(** * visualizer.py *)
(* ===================================================================== *)

(** A node of the unified graph as the visualizer reads it. *)
Module VNode.
Record t := mk {
  id : option str;
  label : option str;
  node_type : option str;
  level : option Z
}.
End VNode.

(** An edge of the unified graph as the visualizer reads it. *)
Module VEdge.
Record t := mk {
  source_id : option str;
  target_id : option str;
  relationship : option str;
  edge_type : option str
}.
End VEdge.

(** The dictionary [kg_data]. *)
Module VKG.
Record t := mk {
  nodes : option (list VNode.t);
  edges : option (list VEdge.t)
}.
End VKG.

(** A [networkx.DiGraph]: the attributes of each node, and the attributes
    of the edge of each ordered pair of nodes that has one. *)
Module DiGraph.
Record t := mk {
  nodes : gmap str VNode.t;
  edges : gmap (str * str) VEdge.t
}.
End DiGraph.

Module Visualizer.

(** [dict.update] on the attributes of a node: the keys of [new] replace
    those of [old]. *)
Definition update_node (old new : VNode.t) : VNode.t :=
  {| VNode.id := VNode.id new ∪ VNode.id old;
     VNode.label := VNode.label new ∪ VNode.label old;
     VNode.node_type := VNode.node_type new ∪ VNode.node_type old;
     VNode.level := VNode.level new ∪ VNode.level old |}.

Definition update_edge (old new : VEdge.t) : VEdge.t :=
  {| VEdge.source_id := VEdge.source_id new ∪ VEdge.source_id old;
     VEdge.target_id := VEdge.target_id new ∪ VEdge.target_id old;
     VEdge.relationship := VEdge.relationship new ∪ VEdge.relationship old;
     VEdge.edge_type := VEdge.edge_type new ∪ VEdge.edge_type old |}.

(** A node without attributes. *)
Definition bare_node : VNode.t :=
  {| VNode.id := None; VNode.label := None;
     VNode.node_type := None; VNode.level := None |}.

(** [G.add_node(n, **attr)] *)
Definition add_node (G : DiGraph.t) (n : str) (attr : VNode.t)
  : DiGraph.t :=
  {| DiGraph.nodes :=
       <[n := match DiGraph.nodes G !! n with
              | Some old => update_node old attr
              | None => attr
              end]> (DiGraph.nodes G);
     DiGraph.edges := DiGraph.edges G |}.

(** [G.has_node(n)] *)
Definition has_node (G : DiGraph.t) (n : str) : bool :=
  bool_decide (is_Some (DiGraph.nodes G !! n)).

(** The node [n] is added without attributes unless it is there. *)
Definition ensure_node (n : str) (nodes : gmap str VNode.t)
  : gmap str VNode.t :=
  match nodes !! n with
  | Some _ => nodes
  | None => <[n := bare_node]> nodes
  end.

(** [G.add_edge(u, v, **attr)] *)
Definition add_edge (G : DiGraph.t) (u_of_edge v_of_edge : str)
  (attr : VEdge.t) : DiGraph.t :=
  {| DiGraph.nodes :=
       ensure_node v_of_edge (ensure_node u_of_edge (DiGraph.nodes G));
     DiGraph.edges :=
       <[(u_of_edge, v_of_edge) :=
           match DiGraph.edges G !! (u_of_edge, v_of_edge) with
           | Some old => update_edge old attr
           | None => attr
           end]> (DiGraph.edges G) |}.

(** The body of the second loop of [_build_networkx_graph]. *)
Definition draw_edge (G : DiGraph.t) (edge : VEdge.t) : DiGraph.t :=
  let source_id := (VEdge.source_id edge).get [] in
  let target_id := (VEdge.target_id edge).get [] in
  if negb (bool_decide (source_id = []))
     && negb (bool_decide (target_id = []))
     && has_node G source_id && has_node G target_id
  then add_edge G source_id target_id edge
  else G.

(** [_build_networkx_graph]; the static rendering builds its graph by the
    same two loops. *)
Definition _build_networkx_graph (kg_data : VKG.t) : DiGraph.t :=
  let G :=
    foldl (fun G node => add_node G ((VNode.id node).get []) node)
          {| DiGraph.nodes := ∅; DiGraph.edges := ∅ |}
          ((VKG.nodes kg_data).get []) in
  foldl draw_edge G ((VKG.edges kg_data).get []).

(** [_count_node_types]: the dictionary of counts. *)
Definition _count_node_types (nodes : list VNode.t) : gmap str Z :=
  foldl (fun type_counts node =>
           let node_type := (VNode.node_type node).get (u "unknown") in
           <[node_type := (type_counts !! node_type).get 0 + 1]> type_counts)
        ∅ nodes.

End Visualizer.

(* ===================================================================== *)
(** * document_splitter.py *)
(* ===================================================================== *)

(** An entry of the [matches] list the matching request returns. *)
Module RawMatch.
Record t := mk {
  toc_section_num : option str;
  toc_title : option str;
  content_line_num : option Z;
  content_section_num : option str;
  content_title : option str;
  confidence : option number
}.
End RawMatch.

(** An entry of [self.matched_sections]. *)
Module Match.
Record t := mk {
  toc_section_num : str;
  toc_title : str;
  content_line_num : Z;
  content_section_num : str;
  content_title : str;
  confidence : number
}.
End Match.

(** The dataclass [TOCTitle]. *)
Module TOCTitle.
Record t := mk {
  section_num : str;
  title : str;
  page_num : str;
  line_num : Z
}.
End TOCTitle.

(** The dataclass [ContentTitle]. *)
Module ContentTitle.
Record t := mk {
  line_num : Z;
  section_num : str;
  title : str;
  full_line : str;
  title_type : str
}.
End ContentTitle.

(** The state of the splitter that [_build_sections_data] reads. *)
Module SplitterState.
Record t := mk {
  toc_titles : list TOCTitle.t;
  content_titles : list ContentTitle.t;
  toc_end_line : Z;
  matched_sections : list Match.t
}.
End SplitterState.

(** The [metadata] of [document_sections.json]. *)
Module SplitMetadata.
Record t := mk {
  splitter_method : str;
  toc_titles_count : Z;
  content_titles_count : Z;
  matched_count : Z;
  toc_end_line : Z
}.
End SplitMetadata.

(** The dictionary [_build_sections_data] returns. *)
Module SectionsData.
Record t := mk {
  title : str;
  timestamp : str;
  total_sections : Z;
  sections : list Section.t;
  metadata : SplitMetadata.t
}.
End SectionsData.

(** The variables of the loop of [_simple_split_fallback]. *)
Module FallbackLoop.
Record t := mk {
  sections : list Section.t;
  current_section : option Section.t;
  current_content : list str;
  section_count : nat
}.
End FallbackLoop.

Module DocumentSplitter.

(** The loop body of [_match_toc_with_content]: an entry that lacks a
    required key raises [KeyError] and is skipped. *)
Definition matched_section (m : RawMatch.t) : option Match.t :=
  toc_section_num ← RawMatch.toc_section_num m;
  toc_title ← RawMatch.toc_title m;
  content_line_num ← RawMatch.content_line_num m;
  content_section_num ← RawMatch.content_section_num m;
  content_title ← RawMatch.content_title m;
  Some {| Match.toc_section_num := toc_section_num;
          Match.toc_title := toc_title;
          Match.content_line_num := content_line_num;
          Match.content_section_num := content_section_num;
          Match.content_title := content_title;
          Match.confidence := (RawMatch.confidence m).get (Num 0) |}.

(** Insertion into a list sorted by [content_line_num], before the
    entries with the same line number. *)
Fixpoint insert_by_line (m : Match.t) (sorted : list Match.t)
  : list Match.t :=
  match sorted with
  | [] => [m]
  | x :: rest =>
    if Match.content_line_num m <=? Match.content_line_num x
    then m :: x :: rest
    else x :: insert_by_line m rest
  end.

(** [matched_sections.sort(key=lambda x: x['content_line_num'])]: the
    stable sort by line number. *)
Definition sort_by_line (matched_sections : list Match.t) : list Match.t :=
  foldr insert_by_line [] matched_sections.

(** [_match_toc_with_content], from the answer of [_call_llm_for_matching]
    on: [matches] is [None] when the request failed. The two title lists
    are only tested for emptiness. *)
Definition _match_toc_with_content {T C} (toc_titles : list T)
  (content_titles : list C) (matches : option (list RawMatch.t))
  : list Match.t :=
  match toc_titles, content_titles with
  | [], _ => []
  | _, [] => []
  | _, _ => sort_by_line (omap matched_section (matches.get []))
  end.

(** The inner loop of [_split_content_by_sections]: the stripped non-blank
    lines with index in [range(start_line, end_line)]; [None] when an
    index raises [IndexError]. *)
Definition content_lines (lines : list str) (start_line end_line : Z)
  : option (list str) :=
  pieces ← mapM (fun line_idx =>
                   if line_idx <? Z.of_nat (length lines)
                   then line ← index lines line_idx;
                        Some (let line := strip line in
                              if bool_decide (line = []) then [] else [line])
                   else Some [])
                (seqZ start_line (end_line - start_line));
  Some (concat pieces).

(** The body of the loop of [_split_content_by_sections] for the match
    [m] at position [i]. *)
Definition section_at (lines : list str) (matched_sections : list Match.t)
  (i : nat) (m : Match.t) : option Section.t :=
  let start_line := Match.content_line_num m - 1 in
  let end_line :=
    if (Z.of_nat i <? Z.of_nat (length matched_sections) - 1)
    then match matched_sections !! (i + 1)%nat with
         | Some next => Match.content_line_num next - 1
         | None => Z.of_nat (length lines)
         end
    else Z.of_nat (length lines) in
  content ← content_lines lines start_line end_line;
  Some {| Section.section_num := Match.toc_section_num m;
          Section.title := Match.toc_title m;
          Section.start_line := start_line + 1;
          Section.end_line := end_line;
          Section.content := join [10%N] content |}.

(** [_split_content_by_sections]; [None] when an exception escapes. *)
Definition _split_content_by_sections (lines : list str)
  (matched_sections : list Match.t) : option (list Section.t) :=
  mapM (fun im => section_at lines matched_sections (fst im) (snd im))
       (imap pair matched_sections).


(** What one request of [_call_llm_for_matching] comes to: [BatchFailed]
    when the request, the parsing of the reply or the reading of its
    [matches] raises; else the list under [matches], [None] when the reply
    has no such key. *)
Inductive batch_reply : Type :=
| BatchFailed
| BatchParsed (matches : option (list RawMatch.t)).

(** [range(0, n, batch_size)] with [batch_size = 30] *)
Definition batch_starts (n : nat) : list nat :=
  map (fun k => (30 * k)%nat) (seq 0 ((n + 29) / 30)).

(** [_call_llm_for_matching]; [request i toc_batch] is the request made
    for the batch that starts at index [i]. An exception in any batch
    leaves the loop and gives [None]. *)
Definition _call_llm_for_matching {T}
  (request : nat -> list T -> batch_reply) (toc_data : list T)
  : option (list RawMatch.t) :=
  foldl (fun all_matches i =>
           all_matches ← all_matches;
           match request i (take 30 (drop i toc_data)) with
           | BatchParsed matches => Some (all_matches ++ matches.get [])
           | BatchFailed => None
           end)
        (Some []) (batch_starts (length toc_data)).


(** [_build_sections_data]; [now] is the reading of the clock. *)
Definition _build_sections_data (now : str) (self : SplitterState.t)
  (sections : list Section.t) : SectionsData.t :=
  {| SectionsData.title := u "智能分割文档";
     SectionsData.timestamp := now;
     SectionsData.total_sections := Z.of_nat (length sections);
     SectionsData.sections := sections;
     SectionsData.metadata :=
       {| SplitMetadata.splitter_method := u "toc_content_matching";
          SplitMetadata.toc_titles_count :=
            Z.of_nat (length (SplitterState.toc_titles self));
          SplitMetadata.content_titles_count :=
            Z.of_nat (length (SplitterState.content_titles self));
          SplitMetadata.matched_count :=
            Z.of_nat (length (SplitterState.matched_sections self));
          SplitMetadata.toc_end_line := SplitterState.toc_end_line self |}
  |}.

(** What is left of [s] after its leading characters that satisfy [p]. *)
Fixpoint drop_while (p : N -> bool) (s : str) : str :=
  match s with
  | c :: r => if p c then drop_while p r else s
  | [] => []
  end.

Definition is_hash (c : N) : bool := (c =? 35)%N.

(** What is left of [s] after one dot, if it starts with one. *)
Definition drop_dot (s : str) : str :=
  match s with
  | c :: r => if (c =? 46)%N then r else s
  | [] => []
  end.

(** [re.match(r'^#+\s+', s)]: one or more hashes, then white space. *)
Definition is_markdown_heading (s : str) : bool :=
  match s with
  | c :: r =>
    is_hash c
    && match drop_while is_hash r with
       | c' :: _ => is_space c'
       | [] => false
       end
  | [] => false
  end.

(** What follows the longest prefix of [s] that [\d+\.?\d*\.?\d*]
    matches; [None] when [s] does not start with a digit. [is_digit] is
    the class [\d], the decimal digits of Unicode; no digit is a dot or
    white space, so the greedy match is the only one that white space or
    the end of the pattern can follow. *)
Definition after_number (is_digit : N -> bool) (s : str) : option str :=
  match s with
  | c :: r =>
    if is_digit c
    then Some (drop_while is_digit
                 (drop_dot (drop_while is_digit
                              (drop_dot (drop_while is_digit r)))))
    else None
  | [] => None
  end.

(** [re.match(r'^\d+\.?\d*\.?\d*\s+', s)] *)
Definition is_numbered_heading (is_digit : N -> bool) (s : str) : bool :=
  match after_number is_digit s with
  | Some (c :: _) => is_space c
  | _ => false
  end.

(** [re.sub(r'^#+\s*', '', s)] *)
Definition sub_hashes (s : str) : str :=
  match s with
  | c :: r => if is_hash c then lstrip (drop_while is_hash r) else s
  | [] => []
  end.

(** [re.sub(r'^\d+\.?\d*\.?\d*\s*', '', s)] *)
Definition sub_number (is_digit : N -> bool) (s : str) : str :=
  match after_number is_digit s with
  | Some r => lstrip r
  | None => s
  end.

(** The test of the loop of [_simple_split_fallback] on a stripped line. *)
Definition is_heading (is_digit : N -> bool) (line_clean : str) : bool :=
  is_markdown_heading line_clean || is_numbered_heading is_digit line_clean.

(** The saving of the section in progress: it is appended when its content
    is not empty. *)
Definition save_current (st : FallbackLoop.t) : list Section.t :=
  match FallbackLoop.current_section st with
  | Some current_section =>
    let content :=
      strip (join [10%N] (FallbackLoop.current_content st)) in
    if bool_decide (content = []) then FallbackLoop.sections st
    else FallbackLoop.sections st
         ++ [{| Section.section_num := Section.section_num current_section;
                Section.title := Section.title current_section;
                Section.start_line := Section.start_line current_section;
                Section.end_line := Section.end_line current_section;
                Section.content := content |}]
  | None => FallbackLoop.sections st
  end.

(** The body of the loop of [_simple_split_fallback]. *)
Definition fallback_step (is_digit : N -> bool) (st : FallbackLoop.t)
  (numbered : nat * str) : FallbackLoop.t :=
  let '(line_num, line) := numbered in
  let line_clean := strip line in
  if is_heading is_digit line_clean
  then
    let title := sub_number is_digit (sub_hashes line_clean) in
    {| FallbackLoop.sections := save_current st;
       FallbackLoop.current_section :=
         Some {| Section.section_num :=
                   of_nat (FallbackLoop.section_count st);
                 Section.title :=
                   if bool_decide (title = [])
                   then u "章节" ++ of_nat (FallbackLoop.section_count st)
                   else title;
                 Section.start_line := Z.of_nat line_num + 1;
                 Section.end_line := Z.of_nat line_num + 1;
                 Section.content := [] |};
       FallbackLoop.current_content := [];
       FallbackLoop.section_count := FallbackLoop.section_count st + 1 |}
  else
    match FallbackLoop.current_section st with
    | Some _ =>
      if bool_decide (line_clean = []) then st
      else {| FallbackLoop.sections := FallbackLoop.sections st;
              FallbackLoop.current_section :=
                FallbackLoop.current_section st;
              FallbackLoop.current_content :=
                FallbackLoop.current_content st ++ [line_clean];
              FallbackLoop.section_count :=
                FallbackLoop.section_count st |}
    | None => st
    end.

(** The sections [_simple_split_fallback] collects. *)
Definition fallback_sections (is_digit : N -> bool) (lines : list str)
  : list Section.t :=
  save_current
    (foldl (fallback_step is_digit)
           {| FallbackLoop.sections := [];
              FallbackLoop.current_section := None;
              FallbackLoop.current_content := [];
              FallbackLoop.section_count := 1 |}
           (imap pair lines)).

(** [_simple_split_fallback] *)
Definition _simple_split_fallback (is_digit : N -> bool) (now : str)
  (self : SplitterState.t) (lines : list str) : SectionsData.t :=
  _build_sections_data now self (fallback_sections is_digit lines).



End DocumentSplitter.


(* ===================================================================== *)
(** * The stages put together *)
(* ===================================================================== *)

Module Pipeline.

(** A fragment node written to [sub_logic_summary.json] and read back by
    the fuser: every key [_build_kg_from_analysis] sets is present, and
    there is no [properties] key. *)
Definition to_sub_node (node : KGNode.t) : SubNode.t :=
  {| SubNode.id := Some (KGNode.id node);
     SubNode.label := Some (KGNode.label node);
     SubNode.node_type := Some (KGNode.node_type node);
     SubNode.summary := Some (KGNode.summary node);
     SubNode.difficulty := Some (KGNode.difficulty node);
     SubNode.keywords := Some (KGNode.keywords node);
     SubNode.formulas := Some (KGNode.formulas node);
     SubNode.applications := Some (KGNode.applications node);
     SubNode.properties := None |}.

Definition to_sub_edge (edge : KGEdge.t) : SubEdge.t :=
  {| SubEdge.source_id := Some (KGEdge.source_id edge);
     SubEdge.target_id := Some (KGEdge.target_id edge);
     SubEdge.relationship := Some (KGEdge.relationship edge);
     SubEdge.description := Some (KGEdge.description edge);
     SubEdge.weight := Some (KGEdge.weight edge);
     SubEdge.evidence := Some (KGEdge.evidence edge);
     SubEdge.bidirectional := Some (KGEdge.bidirectional edge) |}.

Definition to_sub_kg (kg : KG.t) : SubKG.t :=
  {| SubKG.section_num := Some (KG.section_num kg);
     SubKG.nodes := Some (map to_sub_node (KG.nodes kg));
     SubKG.edges := Some (map to_sub_edge (KG.edges kg)) |}.

(** The fragment [_extract_concurrent] collects for a section when every
    request to the service fails: the rule-based extraction, built into a
    graph. *)
Definition fallback_kg (lower : str -> str) (clock : Section.t -> str)
  (section : Section.t) : KG.t :=
  let '(nodes, edges) :=
    SubLogic.build_kg
      (SubLogic._rule_based_extraction lower (Section.section_num section)
         (Section.title section) (Section.content section)) in
  {| KG.nodes := nodes;
     KG.edges := edges;
     KG.section_num := Section.section_num section;
     KG.title := Section.title section;
     KG.extraction_timestamp := clock section |}.

(** The section stage followed by the fusion stage, with the service
    unavailable: the sections are those of [document_sections.json], the
    main graph and the connections are the loaded files. *)
Definition run_offline (as_completed : forall A : Type, list A -> list A)
  (lower : str -> str) (clock : Section.t -> str) (now1 now2 : str)
  (sections : list Section.t) (main_logic_kg : option MainKG.t)
  (cross_connections : list Conn.t) : option UnifiedKG.t :=
  Fuser.fuse_knowledge_graphs now1 now2 main_logic_kg
    (map to_sub_kg
       (SubLogic.generate_sub_logic as_completed
          (SubLogic.extraction_worker lower SubLogic.unavailable)
          SubLogic.max_retries clock (Some sections)))
    cross_connections.


(** A fragment written to [sub_logic_summary.json] and read back by the
    connection analyzer. *)
Definition to_loaded_kg (kg : KG.t) : LoadedKG.t :=
  {| LoadedKG.section_num := Some (KG.section_num kg);
     LoadedKG.title := Some (KG.title kg);
     LoadedKG.nodes := Some (map to_sub_node (KG.nodes kg)) |}.


(** The main-logic graph written to [main_logic_kg.json] and read back by
    the fuser. *)
Definition to_main_kg (kg : MainLogicKG.t) : MainKG.t :=
  {| MainKG.nodes := Some (MainLogicKG.nodes kg);
     MainKG.edges := Some (MainLogicKG.edges kg) |}.


(** A node and an edge of [unified_knowledge_graph.json], written by the
    fuser and read back by the visualizer: every key is present. *)
Definition to_vnode (node : UNode.t) : VNode.t :=
  {| VNode.id := Some (UNode.id node);
     VNode.label := Some (UNode.label node);
     VNode.node_type := Some (UNode.node_type node);
     VNode.level := Some (UNode.level node) |}.

Definition to_vedge (edge : UEdge.t) : VEdge.t :=
  {| VEdge.source_id := Some (UEdge.source_id edge);
     VEdge.target_id := Some (UEdge.target_id edge);
     VEdge.relationship := Some (UEdge.relationship edge);
     VEdge.edge_type := Some (UEdge.edge_type edge) |}.

Definition to_vkg (unified_kg : UnifiedKG.t) : VKG.t :=
  {| VKG.nodes := Some (map to_vnode (UnifiedKG.nodes unified_kg));
     VKG.edges := Some (map to_vedge (UnifiedKG.edges unified_kg)) |}.

End Pipeline.

(* ===================================================================== *)
(** * Properties of graphs and spans, stated *)
(* ===================================================================== *)

Module Spec.

(** Every edge has both endpoints among the nodes. *)
Definition endpoints_exist (kg : UnifiedKG.t) : Prop :=
  forall edge, edge ∈ UnifiedKG.edges kg ->
    (exists node, node ∈ UnifiedKG.nodes kg
                  /\ UNode.id node = UEdge.source_id edge)
    /\ (exists node, node ∈ UnifiedKG.nodes kg
                     /\ UNode.id node = UEdge.target_id edge).

(** The items that are the first of their key, in the order of the list:
    the item at position [i] is kept when no item before it has its key. *)
Definition first_occurrences {K A} `{EqDecision K} (key : A -> K)
  (items : list A) : list A :=
  omap (fun ix =>
          if decide (key (snd ix) ∈ map key (take (fst ix) items))
          then None else Some (snd ix))
       (imap pair items).

(** The nodes of a section, whatever their list. *)
Definition section_members (section_nodes : SectionNodes.t) : list UNode.t :=
  SectionNodes.basic_concepts section_nodes
  ++ SectionNodes.core_technologies section_nodes
  ++ SectionNodes.circuit_applications section_nodes.

(** An edge that joins two nodes of the list [nodes], both with keywords. *)
Definition joins_keyworded (nodes : list UNode.t) (edge : UEdge.t) : Prop :=
  exists node1 node2,
    node1 ∈ nodes /\ node2 ∈ nodes
    /\ UEdge.source_id edge = UNode.id node1
    /\ UEdge.target_id edge = UNode.id node2
    /\ UNode.keywords node1 <> [] /\ UNode.keywords node2 <> [].

(** No node without keywords is an end of an edge of type [hierarchical]
    or [application_network]. *)
Definition keywordless_unreached (kg : UnifiedKG.t) : Prop :=
  forall node edge,
    node ∈ UnifiedKG.nodes kg -> UNode.keywords node = [] ->
    edge ∈ UnifiedKG.edges kg ->
    UEdge.edge_type edge = u "hierarchical"
    \/ UEdge.edge_type edge = u "application_network" ->
    UEdge.source_id edge <> UNode.id node
    /\ UEdge.target_id edge <> UNode.id node.

(** [(key, value)] is the first entry of [scores] with the greatest value. *)
Definition first_maximal (scores : list (str * Z)) (key : str) (value : Z)
  : Prop :=
  exists before after,
    scores = before ++ (key, value) :: after
    /\ (forall x, x ∈ before -> snd x < value)
    /\ (forall x, x ∈ after -> snd x <= value).

(** The score of a paragraph against the vocabulary of a type. *)
Definition tier_score (lower : str -> str) (para tier : str) : Z :=
  match List.find (fun entry => bool_decide (fst entry = tier))
                  SubLogic.circuit_terms with
  | Some (_, keywords) => SubLogic.score (lower para) keywords
  | None => 0
  end.

(** The classification as the specification words it: of the three tiers,
    the one with the highest score, and [basic_concept] on a tie or when
    nothing matches. *)
Definition claimed_tier (lower : str -> str) (para : str) : str :=
  let b := tier_score lower para (u "basic_concept") in
  let t := tier_score lower para (u "core_technology") in
  let a := tier_score lower para (u "circuit_application") in
  if (b <? t) && (a <? t) then u "core_technology"
  else if (b <? a) && (t <? a) then u "circuit_application"
  else u "basic_concept".

(** The list of a fragment that holds the nodes of a tier. *)
Definition tier_list (fragment : Analysis.t) (tier : str) : list Concept.t :=
  if bool_decide (tier = u "basic_concept")
  then (Analysis.basic_concepts fragment).get []
  else if bool_decide (tier = u "core_technology")
  then (Analysis.core_technologies fragment).get []
  else if bool_decide (tier = u "circuit_application")
  then (Analysis.circuit_applications fragment).get []
  else [].

(** The three node tiers. *)
Definition tiers : list str :=
  [u "basic_concept"; u "core_technology"; u "circuit_application"].

(** The paragraphs the fallback extractor makes nodes of: among the first
    ten, those of at least 50 characters. *)
Definition retained_paragraphs (content : str) : list str :=
  List.filter (fun para => 50 <=? len para)
              (take 10 (SubLogic.paragraphs_of content)).

(** What the collecting loop of [_extract_concurrent] appends to [results]
    for one future. *)
Definition collected (clock : Section.t -> str)
  (r : Section.t * option SubLogic.analysis * bool) : option KG.t :=
  match r with
  | (section_data, Some analysis_data, true) =>
    match SubLogic._build_kg_from_analysis analysis_data with
    | Some (nodes, edges) =>
      Some {| KG.nodes := nodes;
              KG.edges := edges;
              KG.section_num := Section.section_num section_data;
              KG.title := Section.title section_data;
              KG.extraction_timestamp := clock section_data |}
    | None => None
    end
  | _ => None
  end.

(** What the loop appends to [self.failed_sections] for one future. *)
Definition recorded_failure
  (r : Section.t * option SubLogic.analysis * bool) : option str :=
  match r with
  | (_, Some _, true) => None
  | (section_data, _, _) => Some (Section.section_num section_data)
  end.

(** The section that the loop leaves out of both lists for one future: the
    task succeeded, and no graph could be built from its analysis. *)
Definition left_out (r : Section.t * option SubLogic.analysis * bool)
  : option str :=
  match r with
  | (section_data, Some analysis_data, true) =>
    match SubLogic._build_kg_from_analysis analysis_data with
    | Some _ => None
    | None => Some (Section.section_num section_data)
    end
  | _ => None
  end.

(** The sections [_load_sections_data] keeps. *)
Definition long_enough (section : Section.t) : bool :=
  200 <? len (Section.content section).

(** The order of [self.matched_sections]: by line number of the matched
    heading. *)
Definition by_line (a b : Match.t) : Prop :=
  Match.content_line_num a <= Match.content_line_num b.

(** The line of the document at which span [i] ends: the line before the
    next matched heading, or the last line. *)
Definition span_end (lines : list str) (matched_sections : list Match.t)
  (i : nat) : Z :=
  match matched_sections !! S i with
  | Some next => Match.content_line_num next - 1
  | None => Z.of_nat (length lines)
  end.

(** An outcome of the extraction call that gives [process_single_section]
    nothing to return: an exception, or a falsy value. *)
Definition no_result (o : outcome exn (option SubLogic.analysis)) : Prop :=
  match o with
  | Return (Some _) => False
  | _ => True
  end.

(** An outcome that raises. *)
Definition raises {A} (o : outcome exn A) : Prop :=
  match o with
  | Raise _ => True
  | Return _ => False
  end.

(** The extraction of a section gives, within the attempts that
    [process_single_section] makes, an analysis from which a graph can be
    built. *)
Definition succeeds_within (w : SubLogic.worker) (max_retries : nat)
  (section : Section.t) : Prop :=
  exists k analysis_data,
    (k < max_retries)%nat
    /\ (forall j, (j < k)%nat -> no_result (w section j))
    /\ w section k = Return (Some analysis_data)
    /\ is_Some (SubLogic._build_kg_from_analysis analysis_data).

(** What the collecting loop of [_analyze_concurrent] appends to [results]
    for one future. *)
Definition found (r : ConnectionAnalyzer.node_pair
                      * outcome exn (option Conn.t)) : option Conn.t :=
  match r with
  | (_, Return (Some connection)) => Some connection
  | _ => None
  end.

(** The six kinds of edge of a unified graph. *)
Definition edge_kinds : list str :=
  [u "main_logic"; u "main_to_sub"; u "hierarchical"; u "intra_section";
   u "application_network"; u "inter_section"].

(** The connections that step 6 of [_fuse_graphs] copies. *)
Definition confirmed (conn : Conn.t) : bool :=
  (Conn.has_connection conn).get false.

(** The part of a section number before its first dot. *)
Fixpoint before_dot (s : str) : str :=
  match s with
  | [] => []
  | c :: rest => if (c =? 46)%N then [] else c :: before_dot rest
  end.

(** The edge types of the edges that fusion synthesizes. *)
Definition synthesized_kinds : list str :=
  [u "main_to_sub"; u "hierarchical"; u "application_network"].

(** Both endpoints of the edge are ids of nodes of the list. *)
Definition anchored (nodes : list UNode.t) (edge : UEdge.t) : Prop :=
  (exists node, node ∈ nodes /\ UNode.id node = UEdge.source_id edge)
  /\ (exists node, node ∈ nodes /\ UNode.id node = UEdge.target_id edge).

(** All nodes of an analysis, tier after tier. *)
Definition analysis_nodes (analysis_data : Analysis.t) : list Concept.t :=
  (Analysis.basic_concepts analysis_data).get []
  ++ (Analysis.core_technologies analysis_data).get []
  ++ (Analysis.circuit_applications analysis_data).get [].

(** The number a string of decimal digits denotes, continuing from [v]. *)
Definition digits_value (v : N) (digits : str) : N :=
  foldl (fun v d => (10 * v + (d - 48))%N) v digits.


(** A number that Python does not find smaller than [threshold]: a finite
    value of at least [threshold], [Infinity], or [NaN], which no
    comparison finds smaller than anything. *)
Definition not_below (threshold : Q) (x : number) : Prop :=
  match x with
  | Num q => (threshold <= q)%Q
  | NaN => True
  | Infinity => True
  | NegInfinity => False
  end.

(** A confirmed connection that names both its ends and states a strength
    not below the threshold. *)
Definition sound_connection (conn : Conn.t) : Prop :=
  Conn.has_connection conn = Some true
  /\ (exists id, Conn.source_id conn = Some id /\ id <> [])
  /\ (exists id, Conn.target_id conn = Some id /\ id <> [])
  /\ (exists strength,
        Conn.connection_strength conn = Some strength
        /\ not_below ConnectionAnalyzer.strength_threshold strength).

(** The number of connections of the type; a connection without type
    counts as [unknown]. *)
Definition of_type (conn_type : str) (connections : list Conn.t) : Z :=
  Z.of_nat
    (length
       (List.filter
          (fun conn => bool_decide
                         ((Conn.connection_type conn).get (u "unknown")
                          = conn_type))
          connections)).

(** The sum of the entries of a dictionary of counts. *)
Definition total (type_counts : gmap str Z) : Z :=
  map_fold (fun _ n acc => n + acc) 0 type_counts.

(** The text runs from an opening brace to a closing brace. *)
Definition brace_delimited (s : str) : Prop :=
  exists mid, s = 123%N :: mid ++ [125%N].

(** The match is on line [n]. *)
Definition on_line (n : Z) (m : Match.t) : bool :=
  bool_decide (Match.content_line_num m = n).

(** The entry of the reply has the five required keys, and [m] is made of
    them. *)
Definition made_of (raw : RawMatch.t) (m : Match.t) : Prop :=
  RawMatch.toc_section_num raw = Some (Match.toc_section_num m)
  /\ RawMatch.toc_title raw = Some (Match.toc_title m)
  /\ RawMatch.content_line_num raw = Some (Match.content_line_num m)
  /\ RawMatch.content_section_num raw = Some (Match.content_section_num m)
  /\ RawMatch.content_title raw = Some (Match.content_title m)
  /\ Match.confidence m = (RawMatch.confidence raw).get (Num 0).

(** The matches a batch reply holds. *)
Definition batch_matches (r : DocumentSplitter.batch_reply)
  : list RawMatch.t :=
  match r with
  | DocumentSplitter.BatchParsed matches => matches.get []
  | DocumentSplitter.BatchFailed => []
  end.

Definition batch_parsed (r : DocumentSplitter.batch_reply) : bool :=
  match r with
  | DocumentSplitter.BatchParsed _ => true
  | DocumentSplitter.BatchFailed => false
  end.

(** The line is not empty. *)
Definition nonblank (line : str) : bool := negb (bool_decide (line = [])).

(** The lines of the document from line [start_line] to line [end_line],
    counted from 1, stripped, without the blank ones. *)
Definition span_lines (lines : list str) (start_line end_line : Z)
  : list str :=
  List.filter nonblank
    (map strip (take (Z.to_nat (end_line - start_line + 1))
                     (drop (Z.to_nat (start_line - 1)) lines))).

(** The line, stripped, is a heading for [_simple_split_fallback]. *)
Definition heading_line (is_digit : N -> bool) (line : str) : bool :=
  DocumentSplitter.is_heading is_digit (strip line).

(** The number of heading lines. *)
Definition headings (is_digit : N -> bool) (lines : list str) : nat :=
  length (List.filter (heading_line is_digit) lines).

(** The section was opened at a heading line of the document: it starts
    and ends on that line, and its number is the rank of the heading among
    the headings of the document. *)
Definition opened_at (is_digit : N -> bool) (lines : list str)
  (s : Section.t) : Prop :=
  exists i line,
    lines !! i = Some line /\ heading_line is_digit line = true
    /\ Section.start_line s = Z.of_nat i + 1
    /\ Section.end_line s = Z.of_nat i + 1
    /\ Section.section_num s
       = of_nat (headings is_digit (take (S i) lines))
    /\ Section.title s <> [].

(** The sections saved so far and the one in progress. *)
Definition open_sections (st : FallbackLoop.t) : list Section.t :=
  FallbackLoop.sections st
  ++ option_list (FallbackLoop.current_section st).

(** What the loop of [_simple_split_fallback] maintains, [lines] being the
    lines read so far. *)
Definition fallback_invariant (is_digit : N -> bool) (lines : list str)
  (st : FallbackLoop.t) : Prop :=
  FallbackLoop.section_count st = S (headings is_digit lines)
  /\ Forall (opened_at is_digit lines) (open_sections st)
  /\ Forall (fun s => Section.content s <> []) (FallbackLoop.sections st)
  /\ StronglySorted Z.lt (map Section.start_line (open_sections st))
  /\ (length (open_sections st) <= headings is_digit lines)%nat.

(** The id under which the visualizer adds a node. *)
Definition node_id (node : VNode.t) : str := (VNode.id node).get [].

(** The edge goes from [s] to [t]. *)
Definition joins (s t : str) (edge : VEdge.t) : Prop :=
  (VEdge.source_id edge).get [] = s /\ (VEdge.target_id edge).get [] = t.

End Spec.

(* ===================================================================== *)
(** * Concrete inputs *)
(* ===================================================================== *)

Module Inputs.

(** A unified node of section 1 with the given id, type and keywords. *)
Definition node (id node_type : string) (keywords : list string) : UNode.t :=
  {| UNode.id := u id;
     UNode.label := u id;
     UNode.node_type := u node_type;
     UNode.summary := [];
     UNode.difficulty := 3;
     UNode.section_num := u "1";
     UNode.keywords := map u keywords;
     UNode.formulas := [];
     UNode.applications := [];
     UNode.properties := JObj [];
     UNode.level := Fuser._get_node_level (u node_type);
     UNode.source := u "sub_logic" |}.

(** Keyword sets [{A, B}] and [{B, C}]. *)
Definition concept_ab : UNode.t := node "bc_1_1" "basic_concept" ["A"; "B"].
Definition tech_bc : UNode.t := node "ct_1_1" "core_technology" ["B"; "C"].
Definition app_bc : UNode.t := node "ca_1_1" "circuit_application" ["B"; "C"].
Definition concept_none : UNode.t := node "bc_1_2" "basic_concept" [].

(** Two concepts with the id [x], one without keywords. *)
Definition node_x_plain : UNode.t := node "x" "basic_concept" [].
Definition node_x_keyworded : UNode.t := node "x" "basic_concept" ["k"].

(** A fragment node of the given id, type and keywords. *)
Definition sub_node (id node_type : string) (keywords : list string)
  : SubNode.t :=
  {| SubNode.id := Some (u id);
     SubNode.label := Some (u id);
     SubNode.node_type := Some (u node_type);
     SubNode.summary := None;
     SubNode.difficulty := None;
     SubNode.keywords := Some (map u keywords);
     SubNode.formulas := None;
     SubNode.applications := None;
     SubNode.properties := None |}.

(** A fragment of section 1 in which two concepts have the id [x]: the
    first has no keywords, the second has the keyword [k], as has the
    technology [y]. *)
Definition shared_id_fragment : SubKG.t :=
  {| SubKG.section_num := Some (u "1");
     SubKG.nodes := Some [sub_node "x" "basic_concept" [];
                          sub_node "x" "basic_concept" ["k"];
                          sub_node "y" "core_technology" ["k"]];
     SubKG.edges := None |}.

(** A main-logic graph without nodes and edges. *)
Definition no_main : MainKG.t :=
  {| MainKG.nodes := None; MainKG.edges := None |}.

(** A main-logic graph whose only edge points to an id that no node has. *)
Definition main_node_1 : MainNode.t :=
  {| MainNode.id := Some (u "ch1");
     MainNode.label := Some (u "Amplifiers");
     MainNode.summary := None;
     MainNode.difficulty := None;
     MainNode.section_num := Some (u "1");
     MainNode.key_concepts := None;
     MainNode.learning_objectives := None;
     MainNode.knowledge_layer := None;
     MainNode.prerequisites := None |}.

Definition dangling_edge : MainEdge.t :=
  {| MainEdge.source_id := Some (u "ch1");
     MainEdge.target_id := Some (u "ch9");
     MainEdge.relationship := Some (u "leads_to");
     MainEdge.description := None;
     MainEdge.weight := None;
     MainEdge.reasoning := None |}.

Definition dangling_main : MainKG.t :=
  {| MainKG.nodes := Some [main_node_1];
     MainKG.edges := Some [dangling_edge] |}.

(** Fifty characters of filler. *)
Definition filler : str := List.repeat 120%N 50.

(** A paragraph that names one core-technology term and one
    circuit-application term. *)
Definition tied_paragraph : str := u "方法电路" ++ filler.

(** A paragraph that names two design-method terms. *)
Definition method_paragraph : str := u "流程步骤" ++ filler.

(** The futures of a batch, yielded in the order of submission. *)
Definition in_order : forall A : Type, list A -> list A := fun _ l => l.

(** The clock of the examples. *)
Definition noon : Section.t -> str := fun _ => u "2025-01-01T12:00:00".

Definition section_of (section_num : string) (content : str) : Section.t :=
  {| Section.section_num := u section_num;
     Section.title := u "Title";
     Section.start_line := 1;
     Section.end_line := 1;
     Section.content := content |}.

(** A section of five characters. *)
Definition short_section : Section.t := section_of "1" (u "short").

(** A section of 250 characters in a single paragraph. *)
Definition one_paragraph_section : Section.t :=
  section_of "2" (List.repeat 120%N 250).

(** A section of two paragraphs of 122 characters. *)
Definition two_paragraph_section : Section.t :=
  section_of "3" (u "原理" ++ List.repeat 120%N 120 ++ [10; 10]%N
                  ++ u "电路" ++ List.repeat 121%N 120).

Definition main_only : MainKG.t :=
  {| MainKG.nodes := Some [main_node_1]; MainKG.edges := None |}.

(** A circuit-application node of the given id and section. *)
Definition app (id section_num : string) : AppNode.t :=
  {| AppNode.id := u id;
     AppNode.label := u id;
     AppNode.summary := [];
     AppNode.keywords := [];
     AppNode.applications := [];
     AppNode.section_num := u section_num;
     AppNode.section_title := [];
     AppNode.difficulty := 4 |}.

(** Three applications, the first and the last of the same section. *)
Definition three_apps : list AppNode.t :=
  [app "ca_1_1" "1"; app "ca_2_1" "2"; app "ca_1_2" "1"].

(** A sampler that takes the first [k] elements. *)
Definition first_k {A} (population : list A) (k : nat) : list A :=
  take k population.

(** A connection call that raises on every attempt. *)
Definition always_raises : ConnectionAnalyzer.pair_call :=
  fun _ _ => Raise (u "TypeError").

(** A pair of applications of different sections. *)
Definition cross_pair : ConnectionAnalyzer.node_pair :=
  (app "ca_1_1" "1", app "ca_2_1" "2").

(** A connection call that finds a connection at once. *)
Definition connected : Conn.t :=
  {| Conn.has_connection := Some true;
     Conn.source_id := Some (u "ca_2_1");
     Conn.target_id := Some (u "ca_1_2");
     Conn.connection_type := None;
     Conn.connection_strength := Some (Num 0.8);
     Conn.description := None;
     Conn.technical_evidence := None |}.

(** A confirmed connection whose strength the service gave as [NaN]. *)
Definition nan_connection : Conn.t :=
  {| Conn.has_connection := Some true;
     Conn.source_id := Some (u "ca_2_1");
     Conn.target_id := Some (u "ca_1_2");
     Conn.connection_type := None;
     Conn.connection_strength := Some NaN;
     Conn.description := None;
     Conn.technical_evidence := None |}.

(** A connection call that raises for the pair [cross_pair] and finds a
    connection for every other pair. *)
Definition raises_for_cross_pair : ConnectionAnalyzer.pair_call :=
  fun p _ =>
    if bool_decide (AppNode.id (fst p) = u "ca_1_1")
    then Raise (u "TypeError")
    else Return (Some connected).

Definition other_pair : ConnectionAnalyzer.node_pair :=
  (app "ca_2_1" "2", app "ca_1_2" "1").

(** An extraction worker that raises for section 3 on every attempt, and
    otherwise answers as the extraction call does without the service. *)
Definition raises_for_section_3 : SubLogic.worker :=
  fun section k =>
    if bool_decide (Section.section_num section = u "3")
    then Raise (u "KeyError")
    else SubLogic.extraction_worker lower_ascii SubLogic.unavailable
           section k.

(** A document of six lines with headings on lines 2 and 4. *)
Definition six_lines : list str :=
  [u "Preface"; u "# 1 Intro"; u "Text of the introduction."; u "# 2 Amplifiers";
   []; u "Text about amplifiers."].

Definition match_at (section_num : string) (line : Z) : Match.t :=
  {| Match.toc_section_num := u section_num;
     Match.toc_title := u "Title";
     Match.content_line_num := line;
     Match.content_section_num := u section_num;
     Match.content_title := u "Title";
     Match.confidence := 1 |}.

Definition two_matches : list Match.t := [match_at "1" 2; match_at "2" 4].

(** A call that raises twice and then returns 7. *)
Definition third_time_lucky : nat -> outcome exn Z :=
  fun k => if (k <? 2)%nat then Raise (u "timeout") else Return 7.

(** An extraction worker that raises twice and then answers as the
    extraction call does without the service. *)
Definition late_worker : SubLogic.worker :=
  fun section k =>
    if (k <? 2)%nat then Raise (u "timeout")
    else SubLogic.extraction_worker lower_ascii SubLogic.unavailable
           section k.

(** An extraction worker whose reply parses to a value that is no
    dictionary of the expected shape, at every attempt. *)
Definition ill_typed_worker : SubLogic.worker :=
  SubLogic.extraction_worker lower_ascii
    (fun _ _ => SubLogic.Parsed (Some SubLogic.IllTyped)).

(** A fragment of section 1 with a single circuit application. *)
Definition app_sub_node : SubNode.t :=
  {| SubNode.id := Some (u "ca_1_1");
     SubNode.label := Some (u "Mirror");
     SubNode.node_type := Some (u "circuit_application");
     SubNode.summary := None;
     SubNode.difficulty := None;
     SubNode.keywords := Some [u "B"; u "C"];
     SubNode.formulas := None;
     SubNode.applications := None;
     SubNode.properties := None |}.

Definition app_fragment : SubKG.t :=
  {| SubKG.section_num := Some (u "1");
     SubKG.nodes := Some [app_sub_node];
     SubKG.edges := None |}.


(** A fragment of the section with a single node, a circuit application. *)
Definition app_kg (section_num id : string) : KG.t :=
  {| KG.nodes :=
       [{| KGNode.id := u id;
           KGNode.label := u id;
           KGNode.node_type := u "circuit_application";
           KGNode.summary := [];
           KGNode.difficulty := 4;
           KGNode.keywords := [];
           KGNode.formulas := [];
           KGNode.applications := [];
           KGNode.related_sections := [];
           KGNode.prerequisites := [];
           KGNode.derived_concepts := [];
           KGNode.practical_examples := [];
           KGNode.technical_details := [] |}];
     KG.edges := [];
     KG.section_num := u section_num;
     KG.title := u "Title";
     KG.extraction_timestamp := [] |}.

(** A service that finds a connection of strength 0.8 for every pair and
    names no ends. *)
Definition affirmative : ConnectionAnalyzer.node_pair -> nat
                         -> ConnectionAnalyzer.reply :=
  fun _ _ =>
    ConnectionAnalyzer.Parsed
      {| Conn.has_connection := Some true;
         Conn.source_id := None;
         Conn.target_id := None;
         Conn.connection_type := Some (u "功能组合");
         Conn.connection_strength := Some (Num 0.8);
         Conn.description := None;
         Conn.technical_evidence := None |}.

End Inputs.
(* ===================================================================== *)
(** * Properties *)
(* ===================================================================== *)

Import Fuser Spec.

(** ** The string functions on examples *)

Example split_paragraphs :
  split (u "ab" ++ [10; 10; 10] ++ u "c")%N [10; 10]%N
  = [u "ab"; 10%N :: u "c"].
Proof. reflexivity. Qed.

Example split_trailing : split (u "a.") (u ".") = [u "a"; []].
Proof. reflexivity. Qed.

Example u_cjk : u "定义" = [23450; 20041]%N.
Proof. reflexivity. Qed.

Example of_nat_10 : of_nat 10 = u "10" /\ of_nat 0 = u "0".
Proof. split; reflexivity. Qed.

Example strip_both : strip (9%N :: u "  a b  ") = u "a b".
Proof. reflexivity. Qed.

Example index_negative :
  index [u "a"; u "b"] (-1) = Some (u "b") /\ index [u "a"; u "b"] (-3) = None.
Proof. split; reflexivity. Qed.

Example uppercase_keyword_never_matches :
  contains (lower_ascii (u "run SPICE")) (u "SPICE") = false.
Proof. reflexivity. Qed.

(** ** First-occurrence deduplication *)

Section dedup.
Context {K A : Type} `{Countable K} (key : A -> K).

Lemma dedup_by_elem_of seen items x :
  x ∈ dedup_by key seen items -> x ∈ items /\ key x ∉ seen.
Proof.
  revert seen. induction items as [|y items IH]; simpl; intros seen Hx.
  - inversion Hx.
  - destruct (decide (key y ∈ seen)) as [Hin|Hout].
    + destruct (IH _ Hx). split; [by right | done].
    + apply elem_of_cons in Hx as [->|Hx].
      * split; [by left | done].
      * destruct (IH _ Hx) as [? Hk]. split; [by right | set_solver].
Qed.

Lemma dedup_by_NoDup seen items :
  NoDup (map key (dedup_by key seen items)).
Proof.
  revert seen. induction items as [|y items IH]; simpl; intros seen.
  - constructor.
  - destruct (decide (key y ∈ seen)) as [Hin|Hout].
    + apply IH.
    + simpl. constructor; [|apply IH].
      intros (z & Hz & Hin)%list_elem_of_fmap.
      apply dedup_by_elem_of in Hin as [_ Hk]. set_solver.
Qed.

(** A list whose keys are fresh and pairwise distinct is left unchanged. *)
Lemma dedup_by_fixed seen items :
  NoDup (map key items) -> (forall x, x ∈ items -> key x ∉ seen) ->
  dedup_by key seen items = items.
Proof.
  revert seen. induction items as [|y items IH]; simpl; intros seen Hnd Hfresh.
  - reflexivity.
  - inversion Hnd as [|? ? Hy Hnd']; subst.
    destruct (decide (key y ∈ seen)) as [Hin|_].
    + exfalso. apply (Hfresh y); [by left | done].
    + f_equal. apply IH; [done|].
      intros x Hx. apply not_elem_of_union. split.
      * intros Heq%elem_of_singleton. apply Hy. rewrite <- Heq.
        apply list_elem_of_fmap. eauto.
      * apply Hfresh. by right.
Qed.

Lemma dedup_by_idempotent items :
  dedup_by key ∅ (dedup_by key ∅ items) = dedup_by key ∅ items.
Proof.
  apply dedup_by_fixed; [apply dedup_by_NoDup | set_solver].
Qed.

(** Every key that is not yet seen keeps a representative. *)
Lemma dedup_by_keeps_key seen items x :
  x ∈ items -> key x ∉ seen ->
  exists y, y ∈ dedup_by key seen items /\ key y = key x.
Proof.
  revert seen. induction items as [|z items IH]; simpl; intros seen Hx Hk.
  - inversion Hx.
  - apply elem_of_cons in Hx as [->|Hx].
    + destruct (decide (key z ∈ seen)); [done|].
      exists z. split; [by left | done].
    + destruct (decide (key z ∈ seen)) as [Hin|Hout].
      * by apply IH.
      * destruct (decide (key x = key z)) as [Heq|Hne].
        -- exists z. split; [by left | done].
        -- destruct (IH ({[key z]} ∪ seen) Hx) as (y & Hy & Hky);
             [set_solver|].
           exists y. split; [by right | done].
Qed.

(** The survivors are a sublist: order and multiplicity come from the
    input. *)
Lemma dedup_by_sublist seen items :
  sublist (dedup_by key seen items) items.
Proof.
  revert seen. induction items as [|y items IH]; simpl; intros seen.
  - constructor.
  - destruct (decide (key y ∈ seen)).
    + by apply sublist_cons.
    + by apply sublist_skip.
Qed.

(** The survivors, position by position: with the keys of [before] seen,
    an item survives when no item of [before] and no earlier item has its
    key. *)
Lemma dedup_by_prefix items : forall before,
  dedup_by key (list_to_set (map key before)) items
  = omap (fun ix =>
            if decide (key (snd ix)
                       ∈ map key (take (fst ix) (before ++ items)))
            then None else Some (snd ix))
         (imap (fun i x => (length before + i, x)%nat) items).
Proof.
  induction items as [|x rest IH]; intros before; [done|].
  cbn [dedup_by imap omap list_omap fst snd].
  rewrite Nat.add_0_r, take_app_length.
  assert (omap (fun ix =>
                  if decide (key (snd ix)
                             ∈ map key (take (fst ix) (before ++ x :: rest)))
                  then None else Some (snd ix))
               (imap ((fun i x => (length before + i, x)%nat) ∘ S) rest)
          = dedup_by key (list_to_set (map key (before ++ [x]))) rest)
    as Hrest.
  { rewrite IH. rewrite <- app_assoc. cbn [app]. f_equal.
    apply imap_ext. intros i y _. cbn. rewrite length_app. cbn [length].
    f_equal. lia. }
  rewrite Hrest, map_app, list_to_set_app_L. cbn [map list_to_set].
  destruct (decide (key x ∈ (list_to_set (map key before) : gset K)))
    as [Hin|Hout];
    destruct (decide (key x ∈ map key before)) as [Hin'|Hout'];
    try (exfalso; set_solver).
  - f_equal. set_solver.
  - f_equal. f_equal. set_solver.
Qed.

(** First occurrence wins: the survivors are the items that are the first
    of their key, in the order of the list. *)
Lemma dedup_by_first_occurrences items :
  dedup_by key ∅ items = first_occurrences key items.
Proof. exact (dedup_by_prefix items []). Qed.

End dedup.

(** ** The final deduplication *)

(** C6. The dedup step of fusion, [_optimize_unified_kg], is idempotent:
    applied to its own result it changes nothing, neither in the node list
    (deduplicated by id), nor in the edge list (deduplicated by the tuple
    of source id, target id and relationship), nor in the statistics. *)
Theorem optimize_unified_kg_idempotent (unified_kg : UnifiedKG.t) :
  _optimize_unified_kg (_optimize_unified_kg unified_kg)
  = _optimize_unified_kg unified_kg.
Proof.
  unfold _optimize_unified_kg. simpl.
  by rewrite !dedup_by_idempotent.
Qed.

(** C1, as stated, fails: the main-logic edge from [ch1] to the absent
    [ch9] survives fusion and the final dedup. *)
Lemma optimize_keeps_dangling_edge :
  let kg := _optimize_unified_kg
              (_fuse_graphs [] [] Inputs.dangling_main [] []) in
  map UNode.id (UnifiedKG.nodes kg) = [u "ch1"]
  /\ map edge_key (UnifiedKG.edges kg) = [(u "ch1", u "ch9", u "leads_to")]
  /\ ~ endpoints_exist kg.
Proof.
  split; [reflexivity|]. split; [reflexivity|].
  intros Hall.
  destruct (Hall (unify_main_edge Inputs.dangling_edge)) as [_ (n & Hn & Hid)].
  - vm_compute. left.
  - vm_compute in Hn. apply list_elem_of_singleton in Hn. subst n.
    vm_compute in Hid. discriminate.
Qed.

(** C1, amended. [_optimize_unified_kg] keeps first occurrences: its nodes
    are the input nodes that are the first of their id, in the order of the
    input, and its edges the input edges that are the first of their key
    (source id, target id, relationship), in order. So the node ids are
    pairwise distinct and so are the edge keys, the surviving nodes and
    edges are sublists of the input lists, and no id or edge key is lost:
    every input edge, whether or not its endpoints name a node, has a
    survivor with the same source id, target id and relationship. *)
Theorem optimize_unified_kg_unique (unified_kg : UnifiedKG.t) :
  let kg := _optimize_unified_kg unified_kg in
  UnifiedKG.nodes kg
  = first_occurrences UNode.id (UnifiedKG.nodes unified_kg)
  /\ UnifiedKG.edges kg
     = first_occurrences edge_key (UnifiedKG.edges unified_kg)
  /\ NoDup (map UNode.id (UnifiedKG.nodes kg))
  /\ NoDup (map edge_key (UnifiedKG.edges kg))
  /\ sublist (UnifiedKG.nodes kg) (UnifiedKG.nodes unified_kg)
  /\ sublist (UnifiedKG.edges kg) (UnifiedKG.edges unified_kg)
  /\ (forall node, node ∈ UnifiedKG.nodes unified_kg ->
        exists node', node' ∈ UnifiedKG.nodes kg
                      /\ UNode.id node' = UNode.id node)
  /\ (forall edge, edge ∈ UnifiedKG.edges unified_kg ->
        exists edge', edge' ∈ UnifiedKG.edges kg
                      /\ edge_key edge' = edge_key edge).
Proof.
  cbv zeta. unfold _optimize_unified_kg. cbn [UnifiedKG.nodes UnifiedKG.edges].
  split; [apply dedup_by_first_occurrences|].
  split; [apply dedup_by_first_occurrences|].
  split; [apply dedup_by_NoDup|]. split; [apply dedup_by_NoDup|].
  split; [apply dedup_by_sublist|]. split; [apply dedup_by_sublist|].
  split.
  - intros node Hn. by apply dedup_by_keeps_key.
  - intros edge He. by apply dedup_by_keeps_key.
Qed.

(** First occurrence, not last: of two nodes with the id [x], the one
    listed first survives. *)
Example optimize_keeps_the_first :
  map UNode.keywords
      (first_occurrences UNode.id
         [Inputs.node_x_plain; Inputs.node_x_keyworded])
  = [[]]
  /\ map UNode.keywords
         (first_occurrences UNode.id
            [Inputs.node_x_keyworded; Inputs.node_x_plain])
     = [[u "k"]].
Proof. split; reflexivity. Qed.

(** The statement above at the graph with the dangling edge: it is kept. *)
Lemma optimize_unified_kg_unique_witness :
  let unified_kg := _fuse_graphs [] [] Inputs.dangling_main [] [] in
  unify_main_edge Inputs.dangling_edge ∈ UnifiedKG.edges unified_kg
  /\ exists edge',
       edge' ∈ UnifiedKG.edges (_optimize_unified_kg unified_kg)
       /\ edge_key edge' = edge_key (unify_main_edge Inputs.dangling_edge).
Proof.
  assert (unify_main_edge Inputs.dangling_edge
          ∈ UnifiedKG.edges (_fuse_graphs [] [] Inputs.dangling_main [] []))
    as Hin by (vm_compute; left).
  split; [exact Hin|].
  exact (proj2 (proj2 (proj2 (proj2 (proj2 (proj2 (proj2
           (optimize_unified_kg_unique
              (_fuse_graphs [] [] Inputs.dangling_main [] []))))))))
           _ Hin).
Defined.

(** ** Fusion without fragments *)

(** C5. Fusing a main-logic graph with no section fragment and no
    connection gives exactly the main-logic nodes and edges, converted one
    for one: the node and edge counts, also those recorded in the
    statistics, are the counts of the input. The dedup step that follows
    adds nothing either: what it keeps is a sublist of these. *)
Theorem fuse_graphs_main_only (now1 now2 : str) (main_logic_kg : MainKG.t) :
  let kg := _fuse_graphs now1 now2 main_logic_kg [] [] in
  let nodes := (MainKG.nodes main_logic_kg).get [] in
  let edges := (MainKG.edges main_logic_kg).get [] in
  UnifiedKG.nodes kg = map unify_main_node nodes
  /\ UnifiedKG.edges kg = map unify_main_edge edges
  /\ length (UnifiedKG.nodes kg) = length nodes
  /\ length (UnifiedKG.edges kg) = length edges
  /\ Statistics.total_nodes (UnifiedKG.statistics kg)
     = Z.of_nat (length nodes)
  /\ Statistics.total_edges (UnifiedKG.statistics kg)
     = Z.of_nat (length edges)
  /\ sublist (UnifiedKG.nodes (_optimize_unified_kg kg))
             (map unify_main_node nodes)
  /\ sublist (UnifiedKG.edges (_optimize_unified_kg kg))
             (map unify_main_edge edges).
Proof.
  unfold _fuse_graphs. simpl.
  rewrite !app_nil_r, !length_map.
  repeat split; apply dedup_by_sublist.
Qed.

(** ** Keyword similarity *)

Lemma keyword_set_empty (node : UNode.t) :
  keyword_set node = ∅ <-> UNode.keywords node = [].
Proof.
  unfold keyword_set. destruct (UNode.keywords node) as [|k ks]; simpl.
  - done.
  - split; [|done]. intros Hempty.
    assert (k ∈ (∅ : gset str)) as Hk by (rewrite <- Hempty; set_solver).
    set_solver.
Qed.

(** The check unfolded: both keyword sets are non-empty and the ratio of
    the sizes reaches the threshold. *)
Lemma has_keyword_similarity_spec (node1 node2 : UNode.t) (threshold : Q) :
  _has_keyword_similarity node1 node2 threshold = true
  <-> UNode.keywords node1 <> [] /\ UNode.keywords node2 <> []
      /\ (threshold <= jaccard (keyword_set node1) (keyword_set node2))%Q.
Proof.
  unfold _has_keyword_similarity, jaccard.
  fold (keyword_set node1) (keyword_set node2).
  rewrite <- !keyword_set_empty.
  destruct (decide (keyword_set node1 = ∅)) as [E1|N1].
  { rewrite (bool_decide_eq_true_2 _ E1). simpl. split; [done|tauto]. }
  destruct (decide (keyword_set node2 = ∅)) as [E2|N2].
  { rewrite (bool_decide_eq_true_2 _ E2), orb_true_r. split; [done|tauto]. }
  rewrite (bool_decide_eq_false_2 _ N1), (bool_decide_eq_false_2 _ N2).
  simpl. rewrite Qle_bool_iff. tauto.
Qed.

Lemma has_keyword_similarity_no_keywords (node1 node2 : UNode.t)
  (threshold : Q) :
  UNode.keywords node1 = [] \/ UNode.keywords node2 = [] ->
  _has_keyword_similarity node1 node2 threshold = false.
Proof.
  intros Hempty. apply not_true_is_false.
  intros (H1 & H2 & _)%has_keyword_similarity_spec. tauto.
Qed.

Lemma jaccard_empty_l (K : gset str) : (jaccard ∅ K == 0)%Q.
Proof.
  unfold jaccard. case_bool_decide; [done|].
  replace (∅ ∩ K) with (∅ : gset str) by set_solver.
  rewrite size_empty. simpl. unfold Qdiv. by rewrite Qmult_0_l.
Qed.

Lemma jaccard_empty_r (K : gset str) : (jaccard K ∅ == 0)%Q.
Proof.
  unfold jaccard. case_bool_decide; [done|].
  replace (K ∩ ∅) with (∅ : gset str) by set_solver.
  rewrite size_empty. simpl. unfold Qdiv. by rewrite Qmult_0_l.
Qed.

(** On the sizes of the example, and on ratios that equal a threshold,
    binary64 arithmetic decides as the exact comparison does. *)
Example thresholds_in_binary64 :
  reaches_binary64 binary64_0_2 1 3 = Qle_bool 0.2 (1 # 3)
  /\ reaches_binary64 binary64_0_4 1 3 = Qle_bool 0.4 (1 # 3)
  /\ reaches_binary64 binary64_0_2 1 5 = Qle_bool 0.2 (1 # 5)
  /\ reaches_binary64 binary64_0_4 2 5 = Qle_bool 0.4 (2 # 5).
Proof. repeat split; reflexivity. Qed.

(** C7. Keyword sets [{A, B}] and [{B, C}] have Jaccard similarity 1/3;
    the check succeeds at threshold 0.2 and fails at 0.4, so the section
    gets the [enables] and [implements] edges (threshold 0.2) and no
    [supports] edge (threshold 0.4). In general, at a positive threshold
    the check holds iff the Jaccard similarity reaches the threshold; at any
    threshold it holds iff moreover both keyword sets are non-empty. *)
Theorem keyword_similarity_is_jaccard :
  (jaccard (keyword_set Inputs.concept_ab) (keyword_set Inputs.tech_bc)
   == 1 # 3)%Q
  /\ _has_keyword_similarity Inputs.concept_ab Inputs.tech_bc 0.2 = true
  /\ _has_keyword_similarity Inputs.concept_ab Inputs.tech_bc 0.4 = false
  /\ _build_hierarchical_connections
       (classify_section [Inputs.concept_ab; Inputs.tech_bc; Inputs.app_bc])
     = [enables_edge Inputs.concept_ab Inputs.tech_bc;
        implements_edge Inputs.tech_bc Inputs.app_bc]
  /\ (forall node1 node2 threshold,
        (0 < threshold)%Q ->
        _has_keyword_similarity node1 node2 threshold = true
        <-> (threshold
             <= jaccard (keyword_set node1) (keyword_set node2))%Q)
  /\ (forall node1 node2 threshold,
        _has_keyword_similarity node1 node2 threshold = true
        <-> UNode.keywords node1 <> [] /\ UNode.keywords node2 <> []
            /\ (threshold
                <= jaccard (keyword_set node1) (keyword_set node2))%Q).
Proof.
  split; [by vm_compute|].
  split; [by vm_compute|].
  split; [by vm_compute|].
  split; [by vm_compute|].
  split; [|apply has_keyword_similarity_spec].
  intros node1 node2 threshold Hpos.
  rewrite has_keyword_similarity_spec. split; [tauto|].
  intros Hle. rewrite <- !keyword_set_empty.
  split; [|split; [|done]].
  - intros E. rewrite E, jaccard_empty_l in Hle.
    by apply Qlt_not_le in Hpos.
  - intros E. rewrite E, jaccard_empty_r in Hle.
    by apply Qlt_not_le in Hpos.
Qed.

(** The statement above at threshold 0.2 and the two example nodes. *)
Lemma keyword_similarity_is_jaccard_witness :
  (0 < 0.2)%Q
  /\ (_has_keyword_similarity Inputs.concept_ab Inputs.tech_bc 0.2 = true
      <-> (0.2 <= jaccard (keyword_set Inputs.concept_ab)
                          (keyword_set Inputs.tech_bc))%Q).
Proof.
  split; [reflexivity|].
  apply keyword_similarity_is_jaccard. reflexivity.
Defined.

(** ** Synthesized edges *)

Lemma elem_of_pairs_where {A B C} (test : A -> B -> bool) (mk : A -> B -> C)
  (xs : list A) (ys : list B) (c : C) :
  c ∈ pairs_where test mk xs ys
  <-> exists x y, x ∈ xs /\ y ∈ ys /\ test x y = true /\ c = mk x y.
Proof.
  unfold pairs_where. rewrite list_elem_of_In, in_flat_map. split.
  - intros (x & Hx & Hc). apply in_flat_map in Hc as (y & Hy & Hc).
    exists x, y. rewrite !list_elem_of_In.
    destruct (test x y); simpl in Hc; [|done].
    destruct Hc as [<-|[]]. done.
  - intros (x & y & Hx & Hy & Ht & ->). exists x.
    rewrite <- list_elem_of_In. split; [done|].
    apply in_flat_map. exists y. rewrite <- list_elem_of_In, Ht.
    split; [done|by left].
Qed.

Lemma hierarchical_connections_keyworded section_nodes edge :
  edge ∈ _build_hierarchical_connections section_nodes ->
  joins_keyworded (section_members section_nodes) edge
  /\ UEdge.edge_type edge = u "hierarchical".
Proof.
  unfold _build_hierarchical_connections, _has_strong_keyword_similarity,
    section_members, joins_keyworded.
  rewrite !elem_of_app, !elem_of_pairs_where.
  intros [H|[H|H]]; destruct H as (x & y & Hx & Hy & Hsim & ->);
    apply has_keyword_similarity_spec in Hsim as (K1 & K2 & _);
    (split; [|reflexivity]); exists x, y; rewrite !elem_of_app; tauto.
Qed.

Lemma application_connections_keyworded circuit_applications edge :
  edge ∈ _build_circuit_application_connections circuit_applications ->
  joins_keyworded circuit_applications edge
  /\ UEdge.edge_type edge = u "application_network".
Proof.
  unfold _build_circuit_application_connections, joins_keyworded.
  rewrite elem_of_pairs_where.
  intros (x & y & Hx & Hy & Hsim & ->).
  apply andb_true_iff in Hsim as [_ Hsim].
  apply has_keyword_similarity_spec in Hsim as (K1 & K2 & _).
  split; [|reflexivity]. exists x, y. tauto.
Qed.

(** The loop of step 3 only appends. *)
Lemma foldl_fuse_section main_logic_nodes sub_logic_kgs nodes edges apps :
  foldl (fuse_section main_logic_nodes) (nodes, edges, apps) sub_logic_kgs
  = (nodes ++ flat_map section_unified_nodes sub_logic_kgs,
     edges ++ flat_map (section_edges main_logic_nodes) sub_logic_kgs,
     apps ++ flat_map (fun kg => SectionNodes.circuit_applications
                                   (classify_section
                                      (section_unified_nodes kg)))
                      sub_logic_kgs).
Proof.
  revert nodes edges apps.
  induction sub_logic_kgs as [|kg kgs IH]; intros nodes edges apps; simpl.
  - by rewrite !app_nil_r.
  - rewrite IH. by rewrite <- !app_assoc.
Qed.

Lemma section_members_classify nodes node :
  node ∈ section_members (classify_section nodes) -> node ∈ nodes.
Proof.
  unfold section_members, classify_section. simpl.
  rewrite !elem_of_app, !list_elem_of_In, !filter_In. tauto.
Qed.

(** The edges of the fused graph, by origin. *)
Lemma fuse_graphs_edges now1 now2 main_logic_kg sub_logic_kgs conns :
  let main_logic_nodes :=
    map unify_main_node ((MainKG.nodes main_logic_kg).get []) in
  UnifiedKG.edges
    (_fuse_graphs now1 now2 main_logic_kg sub_logic_kgs conns)
  = map unify_main_edge ((MainKG.edges main_logic_kg).get [])
    ++ flat_map (section_edges main_logic_nodes) sub_logic_kgs
    ++ flat_map (fun kg => map unify_sub_edge ((SubKG.edges kg).get []))
                sub_logic_kgs
    ++ _build_circuit_application_connections
         (flat_map (fun kg => SectionNodes.circuit_applications
                                (classify_section (section_unified_nodes kg)))
                   sub_logic_kgs)
    ++ map unify_connection
         (List.filter (fun conn => (Conn.has_connection conn).get false)
                      conns)
  /\ UnifiedKG.nodes
       (_fuse_graphs now1 now2 main_logic_kg sub_logic_kgs conns)
     = main_logic_nodes ++ flat_map section_unified_nodes sub_logic_kgs.
Proof.
  unfold _fuse_graphs. rewrite foldl_fuse_section. simpl.
  by rewrite <- !app_assoc.
Qed.

Lemma fallback_nodes_no_keywords lower section_num node_id paragraphs c :
  c ∈ SubLogic.fallback_nodes lower section_num node_id paragraphs ->
  Concept.keywords c = Some [].
Proof.
  revert node_id.
  induction paragraphs as [|para rest IH]; simpl; intros node_id Hc.
  - inversion Hc.
  - destruct (len para <? 50); [by eapply IH|].
    apply elem_of_cons in Hc as [->|Hc]; [reflexivity | by eapply IH].
Qed.

Lemma fallback_kg_no_keywords lower clock section node :
  node ∈ KG.nodes (Pipeline.fallback_kg lower clock section) ->
  KGNode.keywords node = [].
Proof.
  unfold Pipeline.fallback_kg, SubLogic.build_kg,
    SubLogic._rule_based_extraction. simpl.
  rewrite !elem_of_app, !list_elem_of_fmap.
  intros [H|[H|H]]; destruct H as (c & -> & Hc);
    apply list_elem_of_In, filter_In in Hc as [Hc _];
    apply list_elem_of_In, fallback_nodes_no_keywords in Hc;
    simpl; by rewrite Hc.
Qed.

Lemma fallback_section_no_keywords lower clock section node :
  node ∈ section_unified_nodes
           (Pipeline.to_sub_kg (Pipeline.fallback_kg lower clock section)) ->
  UNode.keywords node = [].
Proof.
  pose proof (fallback_kg_no_keywords lower clock section) as Hkg.
  revert Hkg. generalize (Pipeline.fallback_kg lower clock section).
  intros kg Hkg. unfold section_unified_nodes, Pipeline.to_sub_kg. simpl.
  rewrite list_elem_of_fmap. intros (sn & -> & Hsn).
  apply list_elem_of_fmap in Hsn as (kn & -> & Hkn). simpl.
  by apply Hkg.
Qed.

Lemma section_apps_subset sub_logic_kgs node :
  node ∈ flat_map (fun kg => SectionNodes.circuit_applications
                               (classify_section (section_unified_nodes kg)))
                  sub_logic_kgs ->
  node ∈ flat_map section_unified_nodes sub_logic_kgs.
Proof.
  rewrite !list_elem_of_In, !in_flat_map.
  intros (kg & Hkg & Hn). exists kg. split; [done|].
  simpl in Hn. by apply filter_In in Hn as [Hn _].
Qed.

Lemma joins_keyworded_mono nodes nodes' edge :
  (forall node, node ∈ nodes -> node ∈ nodes') ->
  joins_keyworded nodes edge -> joins_keyworded nodes' edge.
Proof.
  intros Hsub (n1 & n2 & H1 & H2 & Hrest).
  exists n1, n2. split; [by apply Hsub|]. split; [by apply Hsub|]. done.
Qed.

(** Closes a goal in which an edge of one origin is assumed to have the
    edge type of another. *)
Ltac type_clash H := destruct H as [H|H]; vm_compute in H; discriminate.

(** The synthesized edges of a fused graph join fragment nodes that have
    keywords. *)
Lemma fuse_graphs_synthesized now1 now2 main_logic_kg sub_logic_kgs conns
  edge :
  edge ∈ UnifiedKG.edges
           (_fuse_graphs now1 now2 main_logic_kg sub_logic_kgs conns) ->
  UEdge.edge_type edge = u "hierarchical"
  \/ UEdge.edge_type edge = u "application_network" ->
  joins_keyworded (flat_map section_unified_nodes sub_logic_kgs) edge.
Proof.
  destruct (fuse_graphs_edges now1 now2 main_logic_kg sub_logic_kgs conns)
    as [-> _].
  rewrite !elem_of_app. intros Hin Htype.
  destruct Hin as [H|[H|[H|[H|H]]]].
  - apply list_elem_of_fmap in H as (x & -> & _).
    type_clash Htype.
  - apply list_elem_of_In, in_flat_map in H as (kg & Hkg & H).
    unfold section_edges in H. apply in_app_iff in H as [H|H].
    + destruct (_find_main_logic_node_for_section _ _); [|done].
      apply in_map_iff in H as (x & <- & _).
      type_clash Htype.
    + apply list_elem_of_In, hierarchical_connections_keyworded in H
        as [H _].
      eapply joins_keyworded_mono; [|exact H].
      intros node Hn%section_members_classify.
      apply list_elem_of_In, in_flat_map. exists kg.
      split; [done | by apply list_elem_of_In].
  - apply list_elem_of_In, in_flat_map in H as (kg & _ & H).
    apply in_map_iff in H as (x & <- & _).
    type_clash Htype.
  - apply application_connections_keyworded in H as [H _].
    eapply joins_keyworded_mono; [|exact H]. apply section_apps_subset.
  - apply list_elem_of_fmap in H as (x & -> & _).
    type_clash Htype.
Qed.

(** Nodes with pairwise distinct ids are told apart by their id. *)
Lemma NoDup_fmap_eq {A B} (f : A -> B) (l : list A) x y :
  NoDup (map f l) -> x ∈ l -> y ∈ l -> f x = f y -> x = y.
Proof.
  induction l as [|z l IH]; cbn [map]; intros Hnd Hx Hy Hf.
  - inversion Hx.
  - apply NoDup_cons in Hnd as [Hz Hnd].
    apply elem_of_cons in Hx as [->|Hx]; apply elem_of_cons in Hy as [->|Hy].
    + done.
    + exfalso. apply Hz. rewrite Hf. apply list_elem_of_fmap. by exists y.
    + exfalso. apply Hz. rewrite <- Hf. apply list_elem_of_fmap. by exists x.
    + by apply IH.
Qed.

(** C10, as stated, fails. Edges name their ends by id, and ids are not
    checked for uniqueness: in a fragment where the id [x] is used by a
    concept without keywords and by a concept with the keyword [k], the
    [hierarchical] edge made for the second from [x] to the technology [y]
    also reaches the first, and the dedup step keeps the first: the node
    [x] of the final graph has no keywords and is the source of a
    [hierarchical] edge. *)
Lemma keywordless_node_reached_by_shared_id :
  let fused := _fuse_graphs [] [] Inputs.no_main
                 [Inputs.shared_id_fragment] [] in
  let kg := _optimize_unified_kg fused in
  map (fun node => (UNode.id node, UNode.keywords node)) (UnifiedKG.nodes kg)
  = [(u "x", []); (u "y", [u "k"])]
  /\ map (fun edge => (UEdge.source_id edge, UEdge.target_id edge,
                        UEdge.edge_type edge))
         (UnifiedKG.edges kg)
     = [(u "x", u "y", u "hierarchical")]
  /\ ~ keywordless_unreached kg
  /\ ~ keywordless_unreached fused.
Proof.
  split; [reflexivity|]. split; [reflexivity|].
  split; intros Hun.
  - destruct (Hun (unify_sub_node (u "1")
                     (Inputs.sub_node "x" "basic_concept" []))
                  (enables_edge
                     (unify_sub_node (u "1")
                        (Inputs.sub_node "x" "basic_concept" ["k"]))
                     (unify_sub_node (u "1")
                        (Inputs.sub_node "y" "core_technology" ["k"]))))
      as [Hs _]; [vm_compute; left | reflexivity | vm_compute; left
                 | by left | by apply Hs].
  - destruct (Hun (unify_sub_node (u "1")
                     (Inputs.sub_node "x" "basic_concept" []))
                  (enables_edge
                     (unify_sub_node (u "1")
                        (Inputs.sub_node "x" "basic_concept" ["k"]))
                     (unify_sub_node (u "1")
                        (Inputs.sub_node "y" "core_technology" ["k"]))))
      as [Hs _]; [vm_compute; left | reflexivity | vm_compute; left
                 | by left | by apply Hs].
Qed.

(** Where the ids of the fused nodes are pairwise distinct, no node without
    keywords is an end of a synthesized edge. *)
Lemma fuse_graphs_keywordless_unreached now1 now2 main_logic_kg sub_logic_kgs
  conns :
  let fused := _fuse_graphs now1 now2 main_logic_kg sub_logic_kgs conns in
  NoDup (map UNode.id (UnifiedKG.nodes fused)) ->
  keywordless_unreached fused
  /\ keywordless_unreached (_optimize_unified_kg fused).
Proof.
  intros fused Hnd.
  assert (keywordless_unreached fused) as Hfused.
  { intros node edge Hnode Hkw Hedge Htype.
    destruct (fuse_graphs_synthesized _ _ _ _ _ _ Hedge Htype)
      as (n1 & n2 & H1 & H2 & Hs & Ht & K1 & K2).
    assert (forall n, n ∈ flat_map section_unified_nodes sub_logic_kgs ->
                      n ∈ UnifiedKG.nodes fused) as Hsub.
    { intros n Hn. subst fused.
      destruct (fuse_graphs_edges now1 now2 main_logic_kg sub_logic_kgs
                  conns) as [_ ->].
      apply elem_of_app. by right. }
    split; intros Hid.
    - apply K1.
      rewrite <- (NoDup_fmap_eq UNode.id _ node n1 Hnd Hnode (Hsub _ H1));
        [done|congruence].
    - apply K2.
      rewrite <- (NoDup_fmap_eq UNode.id _ node n2 Hnd Hnode (Hsub _ H2));
        [done|congruence]. }
  split; [done|].
  intros node edge Hnode Hkw Hedge Htype.
  unfold _optimize_unified_kg in Hnode, Hedge.
  cbn [UnifiedKG.nodes UnifiedKG.edges] in Hnode, Hedge.
  apply dedup_by_elem_of in Hnode as [Hnode _].
  apply dedup_by_elem_of in Hedge as [Hedge _].
  by apply Hfused.
Qed.

(** C10, amended. When either node has no keywords,
    [_has_keyword_similarity] is false at every threshold, at no risk of a
    division by zero. Hence every synthesized edge of a fused graph (edge
    type [hierarchical] or [application_network]) was made for two fragment
    nodes that both have keywords, and names them by id; where the ids of
    the fused nodes are pairwise distinct, no node without keywords is an
    end of such an edge, before and after the dedup step. The nodes of a
    rule-based fallback fragment have no keywords, so a graph fused from
    fallback fragments has no synthesized edge of either kind. *)
Theorem keywordless_nodes_get_no_synthesized_edge :
  (forall node1 node2 threshold,
     UNode.keywords node1 = [] \/ UNode.keywords node2 = [] ->
     _has_keyword_similarity node1 node2 threshold = false)
  /\ (forall now1 now2 main_logic_kg sub_logic_kgs conns edge,
        edge ∈ UnifiedKG.edges
                 (_fuse_graphs now1 now2 main_logic_kg sub_logic_kgs conns) ->
        UEdge.edge_type edge = u "hierarchical"
        \/ UEdge.edge_type edge = u "application_network" ->
        joins_keyworded (flat_map section_unified_nodes sub_logic_kgs) edge)
  /\ (forall now1 now2 main_logic_kg sub_logic_kgs conns,
        let fused :=
          _fuse_graphs now1 now2 main_logic_kg sub_logic_kgs conns in
        NoDup (map UNode.id (UnifiedKG.nodes fused)) ->
        keywordless_unreached fused
        /\ keywordless_unreached (_optimize_unified_kg fused))
  /\ (forall lower clock section node,
        node ∈ KG.nodes (Pipeline.fallback_kg lower clock section) ->
        KGNode.keywords node = [])
  /\ (forall lower clock now1 now2 main_logic_kg sections conns edge,
        edge ∈ UnifiedKG.edges
                 (_fuse_graphs now1 now2 main_logic_kg
                    (map (fun section =>
                            Pipeline.to_sub_kg
                              (Pipeline.fallback_kg lower clock section))
                         sections)
                    conns) ->
        UEdge.edge_type edge <> u "hierarchical"
        /\ UEdge.edge_type edge <> u "application_network").
Proof.
  split; [apply has_keyword_similarity_no_keywords|].
  split; [apply fuse_graphs_synthesized|].
  split; [apply fuse_graphs_keywordless_unreached|].
  split; [apply fallback_kg_no_keywords|].
  intros lower clock now1 now2 main_logic_kg sections conns edge Hin.
  assert (~ (UEdge.edge_type edge = u "hierarchical"
             \/ UEdge.edge_type edge = u "application_network")) as Hno;
    [|tauto].
  intros Htype.
  destruct (fuse_graphs_synthesized _ _ _ _ _ _ Hin Htype)
    as (n1 & n2 & H1 & _ & _ & _ & K1 & _).
  apply K1.
  apply list_elem_of_In, in_flat_map in H1 as (kg & Hkg & H1).
  apply in_map_iff in Hkg as (section & <- & _).
  apply list_elem_of_In in H1. by eapply fallback_section_no_keywords.
Qed.

(** The statement above at a keyword-less concept, and at the fragment of
    a section too short to yield a fallback node. *)
Lemma keywordless_nodes_get_no_synthesized_edge_witness :
  UNode.keywords Inputs.concept_none = []
  /\ _has_keyword_similarity Inputs.concept_none Inputs.tech_bc 0 = false.
Proof.
  split; [reflexivity|].
  apply keywordless_nodes_get_no_synthesized_edge. by left.
Defined.

(** ** The rule-based fallback extractor *)

Lemma max_key_go_first_maximal rest : forall best before mid,
  (forall y, y ∈ before -> snd y < snd best) ->
  (forall y, y ∈ mid -> snd y <= snd best) ->
  first_maximal (before ++ best :: mid ++ rest)
                (fst (SubLogic.max_key_go best rest))
                (snd (SubLogic.max_key_go best rest)).
Proof.
  induction rest as [|x rest IH]; intros best before mid Hbefore Hmid; simpl.
  - exists before, mid. rewrite app_nil_r. by destruct best.
  - destruct (Z.ltb_spec (snd best) (snd x)) as [Hlt|Hge].
    + replace (before ++ best :: mid ++ x :: rest)
        with ((before ++ best :: mid) ++ x :: [] ++ rest)
        by (by rewrite <- app_assoc).
      apply IH.
      * intros y. rewrite elem_of_app, elem_of_cons.
        intros [Hy|[->|Hy]]; [apply Hbefore in Hy | | apply Hmid in Hy]; lia.
      * intros y Hy. inversion Hy.
    + replace (before ++ best :: mid ++ x :: rest)
        with (before ++ best :: (mid ++ [x]) ++ rest)
        by (by rewrite <- app_assoc).
      apply IH; [done|].
      intros y. rewrite elem_of_app, list_elem_of_singleton.
      intros [Hy| ->]; [by apply Hmid | lia].
Qed.

Lemma type_scores_nonneg lower para x :
  x ∈ SubLogic.type_scores lower para -> 0 <= snd x.
Proof.
  unfold SubLogic.type_scores. rewrite list_elem_of_fmap.
  intros ([t ks] & -> & _). unfold SubLogic.score. simpl. lia.
Qed.

(** The node type of a paragraph: [basic_concept] when no vocabulary
    matches, and otherwise the first type, in the order of [circuit_terms],
    among those of greatest score. *)
Lemma classify_first_maximal lower para :
  (SubLogic.classify lower para = u "basic_concept"
   /\ forall x, x ∈ SubLogic.type_scores lower para -> snd x = 0)
  \/ exists s, 0 < s
       /\ first_maximal (SubLogic.type_scores lower para)
                        (SubLogic.classify lower para) s.
Proof.
  unfold SubLogic.classify.
  pose proof (type_scores_nonneg lower para) as Hnn.
  destruct (SubLogic.type_scores lower para) as [|first rest] eqn:E.
  { apply (f_equal length) in E. unfold SubLogic.type_scores in E.
    rewrite length_map in E. discriminate. }
  pose proof (max_key_go_first_maximal rest first [] []) as Hmax.
  simpl in Hmax.
  destruct (SubLogic.max_key_go first rest) as [node_type best_score].
  simpl in Hmax.
  destruct Hmax as (before & after & Hsplit & Hbefore & Hafter);
    [intros y Hy; inversion Hy | intros y Hy; inversion Hy |].
  destruct (Z.eqb_spec best_score 0) as [->|Hne].
  - left. split; [done|]. intros x Hx. apply Hnn in Hx as Hx0.
    rewrite Hsplit in Hx.
    apply elem_of_app in Hx as [Hx|Hx]; [apply Hbefore in Hx; lia|].
    apply elem_of_cons in Hx as [->|Hx]; [done|].
    apply Hafter in Hx. lia.
  - right. exists best_score. split.
    + assert (0 <= best_score); [|lia].
      apply (Hnn (node_type, best_score)). rewrite Hsplit.
      apply elem_of_app. right. by left.
    + by exists before, after.
Qed.

Lemma fallback_nodes_elem lower section_num paragraphs : forall node_id c,
  c ∈ SubLogic.fallback_nodes lower section_num node_id paragraphs ->
  exists para ordinal,
    para ∈ paragraphs /\ 50 <= len para
    /\ c = SubLogic.fallback_node lower section_num ordinal para.
Proof.
  induction paragraphs as [|p rest IH]; simpl; intros node_id c Hc.
  - inversion Hc.
  - destruct (Z.ltb_spec (len p) 50) as [Hshort|Hlong].
    + destruct (IH _ _ Hc) as (para & k & Hp & Hrest).
      exists para, k. split; [by right | done].
    + apply elem_of_cons in Hc as [->|Hc].
      * exists p, node_id. split; [by left | done].
      * destruct (IH _ _ Hc) as (para & k & Hp & Hrest).
        exists para, k. split; [by right | done].
Qed.

Lemma fallback_nodes_complete lower section_num paragraphs :
  forall node_id para,
  para ∈ paragraphs -> 50 <= len para ->
  exists ordinal,
    SubLogic.fallback_node lower section_num ordinal para
    ∈ SubLogic.fallback_nodes lower section_num node_id paragraphs.
Proof.
  induction paragraphs as [|p rest IH]; simpl; intros node_id para Hp Hlen.
  - inversion Hp.
  - destruct (Z.ltb_spec (len p) 50) as [Hshort|Hlong].
    + apply elem_of_cons in Hp as [->|Hp]; [lia|]. by apply IH.
    + apply elem_of_cons in Hp as [->|Hp].
      * exists node_id. by left.
      * destruct (IH (S node_id) para Hp Hlen) as (k & Hk).
        exists k. by right.
Qed.

Lemma elem_of_retained_paragraphs content para :
  para ∈ retained_paragraphs content
  <-> para ∈ take 10 (SubLogic.paragraphs_of content) /\ 50 <= len para.
Proof.
  unfold retained_paragraphs.
  rewrite !list_elem_of_In, filter_In, Z.leb_le. done.
Qed.

(** The list of a tier holds the fallback nodes of that type. *)
Lemma elem_of_tier_list lower section_num title content tier c :
  c ∈ tier_list (SubLogic._rule_based_extraction lower section_num title
                   content) tier
  <-> tier ∈ tiers
      /\ Concept.node_type c = Some tier
      /\ c ∈ SubLogic.fallback_nodes lower section_num 1
               (take 10 (SubLogic.paragraphs_of content)).
Proof.
  unfold tier_list, tiers, SubLogic._rule_based_extraction. simpl.
  repeat case_bool_decide; subst;
    rewrite ?list_elem_of_In, ?filter_In; unfold SubLogic.is_type;
    rewrite ?bool_decide_eq_true, <- ?list_elem_of_In.
  - split; [|tauto]. intros [? ?]. split; [by left | done].
  - split; [|tauto]. intros [? ?]. split; [by right; left | done].
  - split; [|tauto]. intros [? ?]. split; [by right; right; left | done].
  - split; [intros Hc; inversion Hc|]. intros [Ht _].
    rewrite !elem_of_cons in Ht.
    destruct Ht as [?|[?|[?|Ht]]]; [done..|inversion Ht].
Qed.

(** C8, as stated, fails. A paragraph of 54 characters that names one
    core-technology term and one circuit-application term is a tie between
    these two tiers: the specification's rule makes it a basic concept, the
    extractor a core technology. *)
Lemma rule_based_tie_is_not_basic_concept :
  let fragment :=
    SubLogic._rule_based_extraction lower_ascii (u "1") (u "T")
      Inputs.tied_paragraph in
  retained_paragraphs Inputs.tied_paragraph = [Inputs.tied_paragraph]
  /\ tier_score lower_ascii Inputs.tied_paragraph (u "basic_concept") = 0
  /\ tier_score lower_ascii Inputs.tied_paragraph (u "core_technology") = 1
  /\ tier_score lower_ascii Inputs.tied_paragraph (u "circuit_application")
     = 1
  /\ claimed_tier lower_ascii Inputs.tied_paragraph = u "basic_concept"
  /\ SubLogic.classify lower_ascii Inputs.tied_paragraph
     <> claimed_tier lower_ascii Inputs.tied_paragraph
  /\ tier_list fragment (u "basic_concept") = []
  /\ map Concept.id (tier_list fragment (u "core_technology"))
     = [Some (u "1_core_technology_1")].
Proof. repeat split; by vm_compute. Qed.

(** C8, amended. The fragment of the rule-based extractor has no
    relationships. Each of its three lists holds exactly nodes of its own
    tier, each made of a retained paragraph (one of the first ten
    paragraphs, of at least 50 characters) whose node type is that tier;
    and every retained paragraph whose node type is one of the three tiers
    has its node in the list of that tier. The node type of a paragraph is
    [basic_concept] when no vocabulary matches, and otherwise the first
    type, in the order of [circuit_terms], whose score is the greatest. *)
Theorem rule_based_extraction_tiers (lower : str -> str)
  (section_num title content : str) :
  let fragment :=
    SubLogic._rule_based_extraction lower section_num title content in
  Analysis.relationships fragment = Some []
  /\ (forall tier c,
        c ∈ tier_list fragment tier ->
        tier ∈ tiers /\ Concept.node_type c = Some tier
        /\ exists para ordinal,
             para ∈ retained_paragraphs content
             /\ SubLogic.classify lower para = tier
             /\ c = SubLogic.fallback_node lower section_num ordinal para)
  /\ (forall tier para,
        tier ∈ tiers -> para ∈ retained_paragraphs content ->
        SubLogic.classify lower para = tier ->
        exists ordinal,
          SubLogic.fallback_node lower section_num ordinal para
          ∈ tier_list fragment tier)
  /\ (forall para,
        (SubLogic.classify lower para = u "basic_concept"
         /\ forall x, x ∈ SubLogic.type_scores lower para -> snd x = 0)
        \/ exists s, 0 < s
             /\ first_maximal (SubLogic.type_scores lower para)
                              (SubLogic.classify lower para) s).
Proof.
  intros fragment. split; [reflexivity|]. split; [|split].
  - intros tier c Hc.
    apply elem_of_tier_list in Hc as (Ht & Hty & Hc).
    split; [done|]. split; [done|].
    apply fallback_nodes_elem in Hc as (para & k & Hp & Hlen & ->).
    exists para, k. rewrite elem_of_retained_paragraphs.
    split; [done|]. split; [|done].
    simpl in Hty. by injection Hty.
  - intros tier para Ht Hp Hcls.
    apply elem_of_retained_paragraphs in Hp as [Hp Hlen].
    destruct (fallback_nodes_complete lower section_num _ 1%nat para Hp Hlen)
      as (k & Hk).
    exists k. apply elem_of_tier_list. split; [done|]. split; [|done].
    simpl. by rewrite Hcls.
  - apply classify_first_maximal.
Qed.

(** The statement above at the tied paragraph: its node is in the list of
    core technologies. *)
Lemma rule_based_extraction_tiers_witness :
  u "core_technology" ∈ tiers
  /\ Inputs.tied_paragraph ∈ retained_paragraphs Inputs.tied_paragraph
  /\ SubLogic.classify lower_ascii Inputs.tied_paragraph
     = u "core_technology"
  /\ exists ordinal,
       SubLogic.fallback_node lower_ascii (u "1") ordinal
         Inputs.tied_paragraph
       ∈ tier_list
           (SubLogic._rule_based_extraction lower_ascii (u "1") (u "T")
              Inputs.tied_paragraph)
           (u "core_technology").
Proof.
  assert (u "core_technology" ∈ tiers) as Ht by (right; left).
  assert (Inputs.tied_paragraph ∈ retained_paragraphs Inputs.tied_paragraph)
    as Hp by (vm_compute; left).
  assert (SubLogic.classify lower_ascii Inputs.tied_paragraph
          = u "core_technology") as Hc by (by vm_compute).
  split; [done|]. split; [done|]. split; [done|].
  exact (proj1 (proj2 (proj2
           (rule_based_extraction_tiers lower_ascii (u "1") (u "T")
              Inputs.tied_paragraph)))
           (u "core_technology") Inputs.tied_paragraph Ht Hp Hc).
Defined.

(** ** The section stage without the service *)

(** The collecting loop only appends, to either list. *)
Lemma foldl_collect_section clock futures : forall results failed,
  foldl (SubLogic.collect_section clock) (results, failed) futures
  = (results ++ omap (collected clock) futures,
     failed ++ omap recorded_failure futures).
Proof.
  induction futures as [|r futures IH]; intros results failed; simpl.
  - by rewrite !app_nil_r.
  - destruct r as [[section_data analysis_data] success].
    destruct success, analysis_data as [analysis_data|]; simpl;
      try destruct (SubLogic._build_kg_from_analysis analysis_data)
        as [[nodes edges]|];
      rewrite IH; by rewrite <- ?app_assoc.
Qed.

(** With the service unavailable the first attempt already returns the
    rule-based fragment. *)
Lemma process_single_section_offline lower section :
  SubLogic.process_single_section
    (SubLogic.extraction_worker lower SubLogic.unavailable)
    SubLogic.max_retries section
  = (section,
     Some (SubLogic.Dict
             (SubLogic._rule_based_extraction lower
                (Section.section_num section) (Section.title section)
                (Section.content section))),
     true).
Proof. reflexivity. Qed.

Lemma collected_offline lower clock section :
  collected clock
    (SubLogic.process_single_section
       (SubLogic.extraction_worker lower SubLogic.unavailable)
       SubLogic.max_retries section)
  = Some (Pipeline.fallback_kg lower clock section).
Proof.
  rewrite process_single_section_offline.
  unfold collected, Pipeline.fallback_kg.
  cbn [SubLogic._build_kg_from_analysis].
  by destruct (SubLogic.build_kg _).
Qed.

Section offline_pool.
(** The pool yields the futures of a batch in some order of completion. *)
Context (as_completed : forall A : Type, list A -> list A).
Hypothesis as_completed_perm : forall (A : Type) (l : list A), as_completed A l ≡ₚ l.

Lemma extract_concurrent_offline lower clock sections :
  fst (SubLogic._extract_concurrent as_completed
         (SubLogic.extraction_worker lower SubLogic.unavailable)
         SubLogic.max_retries clock sections)
  ≡ₚ map (Pipeline.fallback_kg lower clock) sections.
Proof.
  unfold SubLogic._extract_concurrent.
  rewrite foldl_collect_section. cbn [fst app]. rewrite as_completed_perm.
  induction sections as [|section sections IH]; [done|].
  cbn [map omap list_omap]. rewrite collected_offline.
  by apply Permutation_cons.
Qed.

Lemma generate_sub_logic_offline lower clock sections :
  SubLogic.generate_sub_logic as_completed
    (SubLogic.extraction_worker lower SubLogic.unavailable)
    SubLogic.max_retries clock (Some sections)
  ≡ₚ List.filter SubLogic._is_valid_kg
       (map (Pipeline.fallback_kg lower clock)
            (List.filter long_enough sections)).
Proof.
  unfold SubLogic.generate_sub_logic, SubLogic._validate_sub_logic_kgs.
  simpl. fold long_enough.
  pose proof (extract_concurrent_offline lower clock
                (List.filter long_enough sections)) as Hx.
  revert Hx. generalize (fst (SubLogic._extract_concurrent as_completed
         (SubLogic.extraction_worker lower SubLogic.unavailable)
         SubLogic.max_retries clock (List.filter long_enough sections))).
  generalize (map (Pipeline.fallback_kg lower clock)
                  (List.filter long_enough sections)).
  intros l2 l1 Hx.
  induction Hx as [|x l l' _ IH|x y l|l l' l'' _ IH1 _ IH2]; simpl.
  - done.
  - destruct (SubLogic._is_valid_kg x); by rewrite IH.
  - destruct (SubLogic._is_valid_kg x), (SubLogic._is_valid_kg y);
      try done. apply perm_swap.
  - by etrans.
Qed.

End offline_pool.

(** Every node of a fragment handed to the fuser is, by id, among the
    nodes of the optimized unified graph. *)
Lemma fragment_nodes_survive now1 now2 main_logic_kg fragments conns kg node :
  kg ∈ fragments -> node ∈ KG.nodes kg ->
  exists n,
    n ∈ UnifiedKG.nodes
          (_optimize_unified_kg
             (_fuse_graphs now1 now2 main_logic_kg
                (map Pipeline.to_sub_kg fragments) conns))
    /\ UNode.id n = KGNode.id node.
Proof.
  intros Hkg Hnode.
  set (un := unify_sub_node (KG.section_num kg) (Pipeline.to_sub_node node)).
  destruct (dedup_by_keeps_key UNode.id ∅
              (UnifiedKG.nodes
                 (_fuse_graphs now1 now2 main_logic_kg
                    (map Pipeline.to_sub_kg fragments) conns)) un)
    as (n & Hn & Hid); [|set_solver|by exists n].
  destruct (fuse_graphs_edges now1 now2 main_logic_kg
              (map Pipeline.to_sub_kg fragments) conns) as [_ ->].
  apply elem_of_app. right.
  apply list_elem_of_In, in_flat_map. exists (Pipeline.to_sub_kg kg).
  split; [apply in_map; by apply list_elem_of_In|].
  unfold section_unified_nodes. simpl.
  apply in_map, in_map. by apply list_elem_of_In.
Qed.

(** C2, as stated, fails. With the service unavailable, a section of five
    characters is not extracted at all, and a section of 250 characters in
    one paragraph yields a single fallback node, which validation rejects:
    neither contributes a fragment, and the run ends without a unified
    graph although the main-logic graph is there. *)
Lemma offline_run_without_graph :
  let sections := [Inputs.short_section; Inputs.one_paragraph_section] in
  SubLogic._load_sections_data (Some sections)
  = Some [Inputs.one_paragraph_section]
  /\ length (KG.nodes (Pipeline.fallback_kg lower_ascii Inputs.noon
                         Inputs.one_paragraph_section)) = 1%nat
  /\ SubLogic.generate_sub_logic Inputs.in_order
       (SubLogic.extraction_worker lower_ascii SubLogic.unavailable)
       SubLogic.max_retries Inputs.noon (Some sections) = []
  /\ Pipeline.run_offline Inputs.in_order lower_ascii Inputs.noon [] []
       sections (Some Inputs.main_only) [] = None.
Proof. repeat split; by vm_compute. Qed.

(** C2, amended. With the service unavailable, and in whatever order the
    pool completes the tasks, the fragments of the section stage are the
    rule-based fragments of the sections whose content is longer than 200
    characters, less those that validation rejects (fewer than two nodes, or
    a node with an empty id or label). The run produces a unified graph
    exactly when the main-logic graph is loaded and at least one fragment
    remains, and then every node of every remaining fragment is, by id,
    among the nodes of the unified graph. *)
Theorem offline_run_contributions
  (as_completed : forall A : Type, list A -> list A)
  (lower : str -> str) (clock : Section.t -> str) (now1 now2 : str)
  (sections : list Section.t) (main_logic_kg : option MainKG.t)
  (cross_connections : list Conn.t) :
  (forall (A : Type) (l : list A), as_completed A l ≡ₚ l) ->
  let fragments :=
    SubLogic.generate_sub_logic as_completed
      (SubLogic.extraction_worker lower SubLogic.unavailable)
      SubLogic.max_retries clock (Some sections) in
  let run :=
    Pipeline.run_offline as_completed lower clock now1 now2 sections
      main_logic_kg cross_connections in
  fragments ≡ₚ List.filter SubLogic._is_valid_kg
                 (map (Pipeline.fallback_kg lower clock)
                      (List.filter long_enough sections))
  /\ (run = None <-> main_logic_kg = None \/ fragments = [])
  /\ (forall unified_kg kg node,
        run = Some unified_kg -> kg ∈ fragments -> node ∈ KG.nodes kg ->
        exists n, n ∈ UnifiedKG.nodes unified_kg
                  /\ UNode.id n = KGNode.id node).
Proof.
  intros Hperm fragments run.
  split; [by apply generate_sub_logic_offline|].
  subst run. unfold Pipeline.run_offline, fuse_knowledge_graphs.
  fold fragments. split.
  - destruct main_logic_kg as [main|]; [|tauto].
    destruct fragments as [|kg kgs]; simpl; [tauto|].
    split; [done|]. intros [?|?]; done.
  - intros unified_kg kg node Hrun Hkg Hnode.
    destruct main_logic_kg as [main|]; [|done].
    destruct (map Pipeline.to_sub_kg fragments) eqn:E; [done|].
    rewrite <- E in Hrun. injection Hrun as <-.
    by eapply fragment_nodes_survive.
Qed.

(** The statement above for three sections yielded in order: only the
    section of two long paragraphs contributes, and its two nodes are in
    the unified graph. *)
Lemma offline_run_contributions_witness :
  let sections := [Inputs.short_section; Inputs.one_paragraph_section;
                   Inputs.two_paragraph_section] in
  (forall (A : Type) (l : list A), Inputs.in_order A l ≡ₚ l)
  /\ SubLogic.generate_sub_logic Inputs.in_order
       (SubLogic.extraction_worker lower_ascii SubLogic.unavailable)
       SubLogic.max_retries Inputs.noon (Some sections)
     ≡ₚ List.filter SubLogic._is_valid_kg
          (map (Pipeline.fallback_kg lower_ascii Inputs.noon)
               (List.filter long_enough sections)).
Proof.
  assert (forall (A : Type) (l : list A), Inputs.in_order A l ≡ₚ l) as Hperm
    by (intros A l; reflexivity).
  split; [exact Hperm|].
  exact (proj1 (offline_run_contributions Inputs.in_order lower_ascii
                  Inputs.noon [] [] _ (Some Inputs.main_only) [] Hperm)).
Defined.

(** ** Pair generation *)

Import ConnectionAnalyzer.

Lemma elem_of_cross_section_pairs circuit_apps app1 app2 :
  (app1, app2) ∈ cross_section_pairs circuit_apps
  <-> exists i j,
        (i < j)%nat /\ circuit_apps !! i = Some app1
        /\ circuit_apps !! j = Some app2
        /\ AppNode.section_num app1 <> AppNode.section_num app2.
Proof.
  induction circuit_apps as [|a rest IH]; simpl.
  - split; [intros H; inversion H|]. by intros (i & j & _ & H & _).
  - rewrite elem_of_app, IH, list_elem_of_fmap. split.
    + intros [(b & Heq & Hb)|(i & j & Hij & Hi & Hj & Hne)].
      * injection Heq as -> ->.
        apply list_elem_of_In, filter_In in Hb as [Hb Hne].
        apply negb_true_iff, bool_decide_eq_false in Hne.
        apply list_elem_of_In, list_elem_of_lookup in Hb as [j Hj].
        exists 0%nat, (S j). split; [lia|]. done.
      * exists (S i), (S j). split; [lia|]. done.
    + intros (i & j & Hij & Hi & Hj & Hne).
      destruct j as [|j]; [lia|]. simpl in Hj.
      destruct i as [|i]; simpl in Hi.
      * injection Hi as ->. left. exists app2. split; [done|].
        apply list_elem_of_In, filter_In. split.
        -- apply list_elem_of_In, list_elem_of_lookup. by exists j.
        -- by apply negb_true_iff, bool_decide_eq_false.
      * right. exists i, j. split; [lia|]. done.
Qed.

Lemma is_sample_length {A} (population chosen : list A) k :
  is_sample population k chosen -> length chosen = k.
Proof.
  intros (positions & <- & _ & Hall). symmetry. by eapply Forall2_length.
Qed.

Lemma is_sample_elem_of {A} (population chosen : list A) k x :
  is_sample population k chosen -> x ∈ chosen -> x ∈ population.
Proof.
  intros (positions & _ & _ & Hall) Hx.
  induction Hall as [|i y positions chosen Hi _ IH]; [inversion Hx|].
  apply elem_of_cons in Hx as [->|Hx]; [|by apply IH].
  apply list_elem_of_lookup. by exists i.
Qed.

(** C9. Whatever sample the random generator draws, the pair list of
    [_generate_node_pairs] holds only pairs of a node and a later node of
    the list that lie in different sections; when there are at most 1000
    such pairs it holds every one of them; and when there are more it
    holds exactly 1000, drawn from them at distinct positions. *)
Theorem generate_node_pairs_cross_section
  (sample : list node_pair -> nat -> list node_pair)
  (circuit_apps : list AppNode.t) :
  (forall population k,
     (k <= length population)%nat ->
     is_sample population k (sample population k)) ->
  let node_pairs := _generate_node_pairs sample circuit_apps in
  let candidates := cross_section_pairs circuit_apps in
  (forall app1 app2,
     (app1, app2) ∈ node_pairs ->
     AppNode.section_num app1 <> AppNode.section_num app2
     /\ exists i j, (i < j)%nat /\ circuit_apps !! i = Some app1
                    /\ circuit_apps !! j = Some app2)
  /\ ((length candidates <= 1000)%nat ->
      node_pairs = candidates
      /\ forall i j app1 app2,
           (i < j)%nat -> circuit_apps !! i = Some app1 ->
           circuit_apps !! j = Some app2 ->
           AppNode.section_num app1 <> AppNode.section_num app2 ->
           (app1, app2) ∈ node_pairs)
  /\ ((1000 < length candidates)%nat ->
      length node_pairs = 1000%nat
      /\ is_sample candidates 1000 node_pairs)
  /\ (length node_pairs <= 1000)%nat.
Proof.
  intros Hsample node_pairs candidates.
  subst node_pairs. unfold _generate_node_pairs. fold candidates.
  assert (forall app1 app2,
            (app1, app2) ∈ candidates ->
            AppNode.section_num app1 <> AppNode.section_num app2
            /\ exists i j, (i < j)%nat /\ circuit_apps !! i = Some app1
                           /\ circuit_apps !! j = Some app2) as Hcross.
  { intros app1 app2 Hin.
    apply elem_of_cross_section_pairs in Hin
      as (i & j & Hij & Hi & Hj & Hne).
    split; [done|]. by exists i, j. }
  destruct (Z.ltb_spec 1000 (Z.of_nat (length candidates))) as [Hmany|Hfew].
  - assert (is_sample candidates 1000 (sample candidates 1000%nat))
      as Hs by (apply Hsample; lia).
    pose proof (is_sample_length _ _ _ Hs) as Hlen.
    split; [|split; [|split]].
    + intros app1 app2 Hin. apply Hcross.
      by eapply is_sample_elem_of.
    + lia.
    + done.
    + lia.
  - split; [|split; [|split]].
    + done.
    + intros _. split; [done|].
      intros i j app1 app2 Hij Hi Hj Hne.
      apply elem_of_cross_section_pairs. by exists i, j.
    + lia.
    + lia.
Qed.

Lemma first_k_is_sample {A} (population : list A) k :
  (k <= length population)%nat ->
  is_sample population k (Inputs.first_k population k).
Proof.
  intros Hk. exists (seq 0 k).
  split; [apply length_seq|]. split; [apply NoDup_seq|].
  unfold Inputs.first_k.
  apply Forall2_same_length_lookup. split.
  - rewrite length_seq, length_take. lia.
  - intros i n x Hn Hx. apply lookup_seq in Hn as [-> Hi]. simpl.
    by rewrite lookup_take_lt in Hx.
Qed.

(** The statement above for three applications, two of them of the same
    section: the two cross-section pairs, and nothing else. *)
Lemma generate_node_pairs_cross_section_witness :
  (forall (population : list node_pair) k,
     (k <= length population)%nat ->
     is_sample population k (Inputs.first_k population k))
  /\ (length (cross_section_pairs Inputs.three_apps) <= 1000)%nat
  /\ _generate_node_pairs Inputs.first_k Inputs.three_apps
     = [(Inputs.app "ca_1_1" "1", Inputs.app "ca_2_1" "2");
        (Inputs.app "ca_2_1" "2", Inputs.app "ca_1_2" "1")].
Proof.
  assert (length (cross_section_pairs Inputs.three_apps) <= 1000)%nat
    as Hfew by (vm_compute; lia).
  split; [intros population k; apply first_k_is_sample|].
  split; [exact Hfew|].
  destruct (generate_node_pairs_cross_section Inputs.first_k
              Inputs.three_apps
              (fun population k => first_k_is_sample population k))
    as (_ & Hall & _).
  destruct (Hall Hfew) as [-> _]. reflexivity.
Defined.

(** ** Retries and the failure lists *)

(** A section whose worker raises on every attempt: [rem] more calls are
    made and the task fails. *)
Lemma process_attempts_always_raises w section rem : forall calls,
  (forall k, exists e, w section k = Raise e) ->
  SubLogic.process_attempts w section rem calls
  = ((section, None, false), (calls + rem)%nat).
Proof.
  induction rem as [|rem IH]; intros calls Hraise; simpl.
  - by rewrite Nat.add_0_r.
  - destruct (Hraise calls) as [e ->]. rewrite IH by done.
    f_equal. lia.
Qed.

Section batch.
(** The pool yields the futures of a batch in some order of completion. *)
Context (as_completed : forall A : Type, list A -> list A).
Hypothesis as_completed_perm : forall (A : Type) (l : list A), as_completed A l ≡ₚ l.

(** The section batch, task by task: in whatever order the futures are
    yielded, the results and the failure list are those of the single
    tasks. *)
Lemma extract_concurrent_per_task w max_retries clock sections :
  let futures :=
    map (SubLogic.process_single_section w max_retries) sections in
  fst (SubLogic._extract_concurrent as_completed w max_retries clock sections)
  ≡ₚ omap (collected clock) futures
  /\ snd (SubLogic._extract_concurrent as_completed w max_retries clock
            sections)
     ≡ₚ omap recorded_failure futures.
Proof.
  intros futures. unfold SubLogic._extract_concurrent.
  rewrite foldl_collect_section. fold futures. cbn [fst snd app].
  by rewrite !as_completed_perm.
Qed.

(** In the section workload a task whose worker always raises is
    attempted [max_retries] times and recorded as failed. *)
Lemma always_failing_section_recorded w max_retries clock sections section :
  section ∈ sections ->
  (forall k, exists e, w section k = Raise e) ->
  SubLogic.section_attempts w max_retries section = max_retries
  /\ recorded_failure (SubLogic.process_single_section w max_retries section)
     = Some (Section.section_num section)
  /\ Section.section_num section
     ∈ snd (SubLogic._extract_concurrent as_completed w max_retries clock
              sections).
Proof.
  intros Hin Hraise.
  unfold SubLogic.section_attempts, SubLogic.process_single_section.
  rewrite process_attempts_always_raises by done. simpl.
  split; [done|]. split; [done|].
  destruct (extract_concurrent_per_task w max_retries clock sections)
    as [_ ->].
  apply list_elem_of_omap.
  exists (SubLogic.process_single_section w max_retries section).
  split; [by apply list_elem_of_fmap_2|].
  unfold SubLogic.process_single_section.
  by rewrite process_attempts_always_raises.
Qed.

(** The decorated call, when the body always raises: the wrapper runs the
    body [rem] more times and raises. *)
Lemma retry_attempts_always_raises {A} (func : nat -> outcome exn A)
  max_retries rem : forall calls,
  (forall k, exists e, func k = Raise e) ->
  (1 <= rem <= max_retries)%nat ->
  exists e,
    Utils.retry_attempts func max_retries rem calls
    = (Raise e, (calls + rem)%nat).
Proof.
  induction rem as [|rem IH]; intros calls Hraise Hrem; [lia|]. simpl.
  destruct (Hraise calls) as [e ->].
  case_bool_decide as Hlast.
  - exists e. do 2 f_equal. lia.
  - destruct (IH (S calls) Hraise) as [e' ->]; [lia|].
    exists e'. f_equal. lia.
Qed.

(** In the pair workload a task whose call always raises costs three runs
    of the body per attempt, and ends like a pair without connection. *)
Lemma analyze_attempts_always_raises call p rem : forall calls,
  (forall k, exists e, call p k = Raise e) ->
  analyze_attempts call p rem calls = (None, (calls + 3 * rem)%nat).
Proof.
  induction rem as [|rem IH]; intros calls Hraise; simpl.
  - f_equal. lia.
  - unfold Utils.retry_on_failure.
    destruct (retry_attempts_always_raises (call p) 3 3 calls Hraise)
      as [e ->]; [lia|].
    rewrite IH by done. f_equal. lia.
Qed.

Lemma foldl_collect_pair_returned futures : forall results failed,
  (forall r, r ∈ futures -> exists p c, r = (p, Return c)) ->
  snd (foldl collect_pair (results, failed) futures) = failed.
Proof.
  induction futures as [|[[app1 app2] [e|c]] futures IH];
    intros results failed Hall.
  - reflexivity.
  - destruct (Hall (app1, app2, Raise e)) as (p' & c' & Heq);
      [by left | done].
  - simpl. destruct c as [c|]; apply IH; intros r Hr; apply Hall; by right.
Qed.

(** The pair batch never records a failure: the future of a pair always
    holds a returned value. *)
Lemma analyze_concurrent_never_records call max_retries node_pairs :
  snd (_analyze_concurrent as_completed call max_retries node_pairs) = [].
Proof.
  unfold _analyze_concurrent.
  apply foldl_collect_pair_returned.
  intros r. rewrite as_completed_perm.
  intros (p & -> & _)%list_elem_of_fmap. by eexists _, _.
Qed.

End batch.

(** C3, on the code. A pair whose connection call raises on every attempt:
    the body of the call runs nine times, three for each attempt of
    [analyze_single_pair], the task ends with [None] like a pair without
    connection, and [failed_pairs] stays empty while the other pair of the
    batch yields its connection. The section workload does what the
    property says: the failing section is attempted three times and is in
    [failed_sections] once, and the other section yields its fragment. *)
Theorem failing_pair_is_not_recorded :
  pair_attempts Inputs.always_raises max_retries Inputs.cross_pair = 9%nat
  /\ analyze_single_pair Inputs.always_raises max_retries Inputs.cross_pair
     = None
  /\ _analyze_concurrent Inputs.in_order Inputs.raises_for_cross_pair
       max_retries [Inputs.cross_pair; Inputs.other_pair]
     = ([Inputs.connected], [])
  /\ SubLogic.section_attempts Inputs.raises_for_section_3
       SubLogic.max_retries Inputs.two_paragraph_section = 3%nat
  /\ snd (SubLogic._extract_concurrent Inputs.in_order
            Inputs.raises_for_section_3 SubLogic.max_retries Inputs.noon
            [Inputs.two_paragraph_section; Inputs.one_paragraph_section])
     = [u "3"]
  /\ map KG.section_num
         (fst (SubLogic._extract_concurrent Inputs.in_order
                 Inputs.raises_for_section_3 SubLogic.max_retries Inputs.noon
                 [Inputs.two_paragraph_section;
                  Inputs.one_paragraph_section]))
     = [u "2"].
Proof. repeat split; by vm_compute. Qed.

(** ** Section spans *)

Import DocumentSplitter.

Lemma insert_by_line_perm m sorted : insert_by_line m sorted ≡ₚ m :: sorted.
Proof.
  induction sorted as [|x rest IH]; simpl; [done|].
  destruct (Match.content_line_num m <=? Match.content_line_num x); [done|].
  rewrite IH. apply perm_swap.
Qed.

Lemma sort_by_line_perm matched : sort_by_line matched ≡ₚ matched.
Proof.
  induction matched as [|m rest IH]; simpl; [done|].
  by rewrite insert_by_line_perm, IH.
Qed.

Lemma insert_by_line_sorted m sorted :
  StronglySorted by_line sorted ->
  StronglySorted by_line (insert_by_line m sorted).
Proof.
  induction 1 as [|x rest Hrest IH Hx]; simpl.
  - repeat constructor.
  - destruct (Z.leb_spec (Match.content_line_num m)
                         (Match.content_line_num x)) as [Hle|Hgt].
    + constructor; [by constructor|].
      constructor; [done|].
      eapply Forall_impl; [exact Hx|]. unfold by_line. intros y Hy. lia.
    + constructor; [done|].
      rewrite insert_by_line_perm. constructor; [|done].
      unfold by_line. lia.
Qed.

(** The sort of [_match_toc_with_content] puts the matches in the order of
    their line numbers. *)
Lemma sort_by_line_sorted matched :
  StronglySorted by_line (sort_by_line matched).
Proof.
  induction matched as [|m rest IH]; simpl;
    [constructor | by apply insert_by_line_sorted].
Qed.

Lemma match_toc_with_content_sorted {T C} (toc_titles : list T)
  (content_titles : list C) matches :
  StronglySorted by_line
    (_match_toc_with_content toc_titles content_titles matches).
Proof.
  unfold _match_toc_with_content.
  destruct toc_titles, content_titles;
    first [constructor | apply sort_by_line_sorted].
Qed.

Lemma sorted_lookup_le matched i j mi mj :
  StronglySorted by_line matched -> (i <= j)%nat ->
  matched !! i = Some mi -> matched !! j = Some mj ->
  Match.content_line_num mi <= Match.content_line_num mj.
Proof.
  intros Hsorted. revert i j.
  induction Hsorted as [|x rest _ IH Hx]; intros i j Hij Hi Hj.
  - done.
  - destruct i as [|i], j as [|j]; simpl in *; try lia.
    + injection Hi as ->. injection Hj as ->. lia.
    + injection Hi as ->.
      apply list_elem_of_lookup_2 in Hj.
      rewrite Forall_forall in Hx. by apply Hx.
    + apply (IH i j); [lia|done..].
Qed.

(** The inner loop raises nothing when its first index is one that Python
    accepts: an index of the document, or a negative one that wraps. *)
Lemma content_lines_returns lines start_line end_line :
  - Z.of_nat (length lines) <= start_line ->
  is_Some (content_lines lines start_line end_line).
Proof.
  intros Hstart. unfold content_lines.
  destruct (mapM _ (seqZ start_line (end_line - start_line)))
    as [pieces|] eqn:E; [by eexists|].
  exfalso. assert (is_Some (@None (list (list str)))) as [? ?]; [|done].
  rewrite <- E. apply mapM_is_Some, Forall_forall.
  intros line_idx Hidx%elem_of_seqZ. simpl.
  destruct (Z.ltb_spec line_idx (Z.of_nat (length lines))) as [Hlt|Hge];
    [|by eexists].
  unfold index. destruct (Z.leb_spec 0 line_idx) as [Hpos|Hneg].
  - destruct (lookup_lt_is_Some_2 lines (Z.to_nat line_idx)) as [line ->];
      [lia|].
    by eexists.
  - destruct (Z.leb_spec (- Z.of_nat (length lines)) line_idx) as [_|?];
      [|lia].
    destruct (lookup_lt_is_Some_2 lines
                (Z.to_nat (Z.of_nat (length lines) + line_idx)))
      as [line ->]; [lia|].
    by eexists.
Qed.

Lemma content_lines_is_Some lines start_line end_line :
  0 <= start_line -> is_Some (content_lines lines start_line end_line).
Proof. intros Hstart. apply content_lines_returns. lia. Qed.

(** It raises [IndexError] at its first index when that index lies before
    the negative indices of the document. *)
Lemma content_lines_raises lines start_line end_line :
  start_line < - Z.of_nat (length lines) -> start_line < end_line ->
  content_lines lines start_line end_line = None.
Proof.
  intros Hstart Hend. unfold content_lines.
  rewrite (seqZ_cons start_line (end_line - start_line)) by lia.
  cbn [mapM].
  destruct (Z.ltb_spec start_line (Z.of_nat (length lines))) as [_|?];
    [|lia].
  unfold index.
  destruct (Z.leb_spec 0 start_line) as [?|_]; [lia|].
  destruct (Z.leb_spec (- Z.of_nat (length lines)) start_line) as [?|_];
    [lia|].
  done.
Qed.

Lemma section_at_bounds lines matched_sections i m s :
  matched_sections !! i = Some m ->
  section_at lines matched_sections i m = Some s ->
  Section.start_line s = Match.content_line_num m
  /\ Section.end_line s = span_end lines matched_sections i
  /\ Section.section_num s = Match.toc_section_num m.
Proof.
  intros Hi. unfold section_at, span_end.
  replace (i + 1)%nat with (S i) by lia.
  apply lookup_lt_Some in Hi as Hlt.
  destruct (Z.ltb_spec (Z.of_nat i)
              (Z.of_nat (length matched_sections) - 1)) as [Hnext|Hlast].
  - destruct (lookup_lt_is_Some_2 matched_sections (S i)) as [next ->];
      [lia|].
    destruct (content_lines _ _ _); simpl; [|done].
    intros [= <-]. simpl. split; [lia|done].
  - rewrite (lookup_ge_None_2 matched_sections (S i)) by lia.
    destruct (content_lines _ _ _); simpl; [|done].
    intros [= <-]. simpl. split; [lia|done].
Qed.

(** The splitter returns when no matched line number lies before the
    negative indices of the document. *)
Lemma split_content_returns lines matched_sections :
  Forall (fun m => 1 - Z.of_nat (length lines) <= Match.content_line_num m)
         matched_sections ->
  is_Some (_split_content_by_sections lines matched_sections).
Proof.
  intros Hpos. unfold _split_content_by_sections.
  apply mapM_is_Some, Forall_lookup. intros i [i' m] Him.
  rewrite list_lookup_imap in Him.
  destruct (matched_sections !! i) as [m'|] eqn:Hi; [|done].
  injection Him as <- <-. simpl. unfold section_at.
  rewrite Forall_lookup in Hpos. specialize (Hpos i m' Hi). simpl in Hpos.
  match goal with
  | |- is_Some (content_lines ?l ?a ?b ≫= _) =>
    destruct (content_lines_returns l a b) as [content ->]; [lia|]
  end.
  by eexists.
Qed.

Lemma split_content_is_Some lines matched_sections :
  Forall (fun m => 1 <= Match.content_line_num m) matched_sections ->
  is_Some (_split_content_by_sections lines matched_sections).
Proof.
  intros Hpos. apply split_content_returns.
  eapply Forall_impl; [exact Hpos|]. simpl. intros m Hm. lia.
Qed.

(** Among the matches, the last one whose line number lies before the
    negative indices of the document. *)
Lemma last_match_below (bound : Z) (matched_sections : list Match.t) :
  ~ Forall (fun m => bound <= Match.content_line_num m) matched_sections ->
  exists i m,
    matched_sections !! i = Some m
    /\ Match.content_line_num m < bound
    /\ forall next, matched_sections !! S i = Some next ->
                     bound <= Match.content_line_num next.
Proof.
  induction matched_sections as [|m rest IH]; intros Hnot.
  - exfalso. apply Hnot. constructor.
  - destruct (decide (Forall (fun m => bound <= Match.content_line_num m)
                             rest)) as [Hrest|Hrest].
    + exists 0%nat, m. split; [done|]. split.
      * destruct (Z.lt_ge_cases (Match.content_line_num m) bound)
          as [?|Hge]; [done|].
        exfalso. apply Hnot. by constructor.
      * intros next Hnext. cbn in Hnext. destruct rest as [|n rest']; [done|].
        injection Hnext as <-. by apply Forall_cons in Hrest as [? _].
    + destruct (IH Hrest) as (i & mi & Hi & Hlt & Hnext).
      by exists (S i), mi.
Qed.

(** The splitter raises when some matched line number lies before the
    negative indices of the document. *)
Lemma split_content_raises lines matched_sections :
  ~ Forall (fun m => 1 - Z.of_nat (length lines) <= Match.content_line_num m)
           matched_sections ->
  _split_content_by_sections lines matched_sections = None.
Proof.
  intros (i & m & Hi & Hlt & Hnext)%last_match_below.
  destruct (_split_content_by_sections lines matched_sections)
    as [sections|] eqn:Hsplit; [exfalso|done].
  unfold _split_content_by_sections in Hsplit.
  assert (is_Some (section_at lines matched_sections i m)) as [s Hs].
  { assert (is_Some (mapM (fun im => section_at lines matched_sections
                                       (fst im) (snd im))
                          (imap pair matched_sections))) as Hall
      by (by eexists).
    rewrite mapM_is_Some, Forall_lookup in Hall.
    apply (Hall i (i, m)). by rewrite list_lookup_imap, Hi. }
  unfold section_at in Hs.
  rewrite content_lines_raises in Hs; [done|lia|].
  replace (i + 1)%nat with (S i) by lia.
  destruct (Z.ltb_spec (Z.of_nat i)
              (Z.of_nat (length matched_sections) - 1)) as [Hlast|Hlast];
    [|lia].
  destruct (matched_sections !! S i) as [next|] eqn:E; [|lia].
  specialize (Hnext next eq_refl). lia.
Qed.

Lemma split_content_lookup lines matched_sections sections i s :
  _split_content_by_sections lines matched_sections = Some sections ->
  sections !! i = Some s ->
  exists m,
    matched_sections !! i = Some m
    /\ Section.start_line s = Match.content_line_num m
    /\ Section.end_line s = span_end lines matched_sections i
    /\ Section.section_num s = Match.toc_section_num m.
Proof.
  unfold _split_content_by_sections. intros Hsplit%mapM_Some Hs.
  destruct (Forall2_lookup_r _ _ _ _ _ Hsplit Hs) as ([i' m] & Him & Hat).
  rewrite list_lookup_imap in Him.
  destruct (matched_sections !! i) as [m'|] eqn:Hi; [|done].
  injection Him as <- <-. simpl in Hat.
  exists m'. split; [done|]. by eapply section_at_bounds.
Qed.

Lemma split_content_length lines matched_sections sections :
  _split_content_by_sections lines matched_sections = Some sections ->
  length sections = length matched_sections.
Proof.
  unfold _split_content_by_sections. intros Hsplit%length_mapM.
  by rewrite length_imap in Hsplit.
Qed.

(** Every line from the first matched heading on lies in some span. *)
Lemma spans_cover lines matched_sections n k : forall i mi,
  (i + k = length matched_sections - 1)%nat ->
  matched_sections !! i = Some mi ->
  Match.content_line_num mi <= n <= Z.of_nat (length lines) ->
  exists j mj,
    matched_sections !! j = Some mj
    /\ Match.content_line_num mj <= n <= span_end lines matched_sections j.
Proof.
  induction k as [|k IH]; intros i mi Hik Hi Hn.
  - exists i, mi. split; [done|]. unfold span_end.
    rewrite (lookup_ge_None_2 matched_sections (S i)) by lia. lia.
  - destruct (lookup_lt_is_Some_2 matched_sections (S i)) as [next Hnext];
      [lia|].
    destruct (Z.le_gt_cases (Match.content_line_num next) n) as [Hle|Hgt].
    + apply (IH (S i) next); [lia | done | lia].
    + exists i, mi. split; [done|]. unfold span_end. rewrite Hnext. lia.
Qed.

(** C4, as stated, fails. Line numbers are taken from the reply of the
    matching service as they are. A match on line -5 of a document of three
    lines makes the splitter raise [IndexError], and no span is derived; a
    match on line 0 gives a span that starts before the document and whose
    content begins with the last line, read at index -1. *)
Lemma split_content_raises_before_document :
  let lines := [u "a"; u "b"; u "c"] in
  [Inputs.match_at "1" (-5)] <> []
  /\ StronglySorted by_line [Inputs.match_at "1" (-5)]
  /\ _split_content_by_sections lines [Inputs.match_at "1" (-5)] = None
  /\ (map (fun s => (Section.start_line s, Section.end_line s,
                      Section.content s))
       <$> _split_content_by_sections lines [Inputs.match_at "1" 0])
     = Some [(0, 3, u "c" ++ [10%N] ++ u "a" ++ [10%N] ++ u "b"
                    ++ [10%N] ++ u "c")].
Proof.
  split; [done|]. split; [repeat constructor|]. split; reflexivity.
Qed.

(** C4, amended. For every document and every non-empty list of matches in
    the order of their line numbers, the splitter returns exactly when no
    line number is below [1 - len(lines)], hence whenever line numbers
    count from 1. When it returns, there is one span per match; span [i]
    ends on the line before the one where span [i+1] starts, a later span
    starts after an earlier one ends, the first span starts at the first
    matched heading, the last span ends at the last line of the document,
    and every line in between lies in some span. *)
Theorem section_spans_contiguous (lines : list str)
  (matched_sections : list Match.t) :
  matched_sections <> [] ->
  StronglySorted by_line matched_sections ->
  (is_Some (_split_content_by_sections lines matched_sections)
   <-> Forall (fun m => 1 - Z.of_nat (length lines)
                        <= Match.content_line_num m) matched_sections)
  /\ (Forall (fun m => 1 <= Match.content_line_num m) matched_sections ->
      is_Some (_split_content_by_sections lines matched_sections))
  /\ forall sections,
       _split_content_by_sections lines matched_sections = Some sections ->
       exists first_section last_section first_match,
         length sections = length matched_sections
         /\ head sections = Some first_section
         /\ last sections = Some last_section
         /\ head matched_sections = Some first_match
         /\ Section.start_line first_section
            = Match.content_line_num first_match
         /\ Section.end_line last_section = Z.of_nat (length lines)
         /\ (forall i s s',
               sections !! i = Some s -> sections !! S i = Some s' ->
               Section.end_line s + 1 = Section.start_line s')
         /\ (forall i j s s',
               (i < j)%nat ->
               sections !! i = Some s -> sections !! j = Some s' ->
               Section.end_line s < Section.start_line s')
         /\ (forall n,
               Section.start_line first_section <= n
               <= Z.of_nat (length lines) ->
               exists s, s ∈ sections
                         /\ Section.start_line s <= n <= Section.end_line s).
Proof.
  intros Hne Hsorted.
  split; [|split; [apply split_content_is_Some|]].
  { split; [|apply split_content_returns].
    intros [sections Hsplit].
    destruct (decide (Forall (fun m => 1 - Z.of_nat (length lines)
                                       <= Match.content_line_num m)
                             matched_sections)) as [?|Hnot]; [done|].
    apply (split_content_raises lines) in Hnot. congruence. }
  intros sections Hsplit.
  pose proof (split_content_length _ _ _ Hsplit) as Hlen.
  pose proof (fun i s => split_content_lookup lines matched_sections
                           sections i s Hsplit) as Hlookup.
  assert (0 < length matched_sections)%nat as Hlen0
    by (destruct matched_sections; [done | simpl; lia]).
  destruct (lookup_lt_is_Some_2 sections 0%nat) as [s0 Hs0]; [lia|].
  destruct (lookup_lt_is_Some_2 sections (pred (length sections)))
    as [sl Hsl]; [lia|].
  destruct (Hlookup _ _ Hs0) as (m0 & Hm0 & Hstart0 & Hend0 & _).
  destruct (Hlookup _ _ Hsl) as (ml & Hml & _ & Hendl & _).
  exists s0, sl, m0.
  split; [done|].
  split; [by rewrite head_lookup|]. split; [by rewrite last_lookup|].
  split; [by rewrite head_lookup|]. split; [done|].
  split; [|split; [|split]].
  - rewrite Hendl. unfold span_end.
    rewrite (lookup_ge_None_2 matched_sections) by lia. done.
  - intros i s s' Hs Hs'.
    destruct (Hlookup _ _ Hs) as (m & _ & _ & Hend & _).
    destruct (Hlookup _ _ Hs') as (m' & Hm' & Hstart' & _).
    rewrite Hend, Hstart'. unfold span_end. rewrite Hm'. lia.
  - intros i j s s' Hij Hs Hs'.
    destruct (Hlookup _ _ Hs) as (m & _ & _ & Hend & _).
    destruct (Hlookup _ _ Hs') as (m' & Hm' & Hstart' & _).
    apply lookup_lt_Some in Hm' as Hj.
    destruct (lookup_lt_is_Some_2 matched_sections (S i)) as [next Hnext];
      [lia|].
    rewrite Hend, Hstart'. unfold span_end. rewrite Hnext.
    pose proof (sorted_lookup_le matched_sections (S i) j next m'
                  Hsorted ltac:(lia) Hnext Hm') as Hle.
    lia.
  - intros n Hn. rewrite Hstart0 in Hn.
    destruct (spans_cover lines matched_sections n
                (length matched_sections - 1) 0%nat m0 ltac:(lia) Hm0 Hn)
      as (j & mj & Hmj & Hcover).
    apply lookup_lt_Some in Hmj as Hj.
    destruct (lookup_lt_is_Some_2 sections j) as [s Hs]; [lia|].
    destruct (Hlookup _ _ Hs) as (m & Hm & Hstart & Hend & _).
    assert (m = mj) as -> by congruence.
    exists s. split; [by eapply list_elem_of_lookup_2|].
    rewrite Hstart, Hend. done.
Qed.

(** The statement above for a document of six lines with headings on
    lines 2 and 4: the spans are lines 2 to 3 and lines 4 to 6. *)
Lemma section_spans_contiguous_witness :
  Inputs.two_matches <> []
  /\ StronglySorted by_line Inputs.two_matches
  /\ Forall (fun m => 1 <= Match.content_line_num m) Inputs.two_matches
  /\ exists sections,
       _split_content_by_sections Inputs.six_lines Inputs.two_matches
       = Some sections
       /\ map (fun s => (Section.start_line s, Section.end_line s)) sections
          = [(2, 3); (4, 6)].
Proof.
  assert (Inputs.two_matches <> []) as Hne by done.
  assert (StronglySorted by_line Inputs.two_matches) as Hsorted
    by (repeat constructor; unfold by_line; simpl; lia).
  assert (Forall (fun m => 1 <= Match.content_line_num m) Inputs.two_matches)
    as Hpos by (repeat constructor; simpl; lia).
  split; [done|]. split; [done|]. split; [done|].
  destruct (section_spans_contiguous Inputs.six_lines Inputs.two_matches
              Hne Hsorted) as (_ & Hreturns & _).
  destruct (Hreturns Hpos) as [sections Hsplit].
  exists sections. split; [done|].
  vm_compute in Hsplit. injection Hsplit as <-. reflexivity.
Defined.

(* ===================================================================== *)
(** * Further properties of the code *)
(* ===================================================================== *)

(** ** The retry wrapper *)

Lemma retry_attempts_first_return {A} (func : nat -> outcome exn A)
  max_retries k a : forall rem calls,
  (k < rem <= max_retries)%nat ->
  (forall j, (j < k)%nat -> raises (func (calls + j)%nat)) ->
  func (calls + k)%nat = Return a ->
  Utils.retry_attempts func max_retries rem calls
  = (Return (Some a), (calls + k + 1)%nat).
Proof.
  induction k as [|k IH]; intros rem calls Hrem Hfail Hret.
  - destruct rem as [|rem]; [lia|]. simpl.
    rewrite Nat.add_0_r in Hret. rewrite Hret. f_equal. lia.
  - destruct rem as [|rem]; [lia|]. simpl.
    pose proof (Hfail 0%nat ltac:(lia)) as H0.
    rewrite Nat.add_0_r in H0.
    destruct (func calls) as [e|b]; [|done].
    rewrite bool_decide_eq_false_2 by lia.
    rewrite (IH rem (S calls)).
    + f_equal. lia.
    + lia.
    + intros j Hj. replace (S calls + j)%nat with (calls + S j)%nat by lia.
      apply Hfail. lia.
    + by replace (S calls + k)%nat with (calls + S k)%nat by lia.
Qed.

Lemma retry_attempts_last_raise {A} (func : nat -> outcome exn A)
  max_retries : forall rem calls,
  (1 <= rem <= max_retries)%nat ->
  (forall j, (j < rem)%nat -> raises (func (calls + j)%nat)) ->
  exists e,
    func (calls + rem - 1)%nat = Raise e
    /\ Utils.retry_attempts func max_retries rem calls
       = (Raise e, (calls + rem)%nat).
Proof.
  induction rem as [|rem IH]; intros calls Hrem Hfail; [lia|]. simpl.
  pose proof (Hfail 0%nat ltac:(lia)) as H0. rewrite Nat.add_0_r in H0.
  destruct (func calls) as [e|b] eqn:E; [|done].
  case_bool_decide as Hlast.
  - assert (rem = 0)%nat as -> by lia.
    exists e. replace (calls + 1 - 1)%nat with calls by lia.
    split; [done|]. f_equal. lia.
  - destruct (IH (S calls)) as (e' & He' & ->); [lia| |].
    + intros j Hj. replace (S calls + j)%nat with (calls + S j)%nat by lia.
      apply Hfail. lia.
    + exists e'. split.
      * by replace (calls + S rem - 1)%nat with (S calls + rem - 1)%nat
          by lia.
      * f_equal. lia.
Qed.

(** X1. The wrapper made by [retry_on_failure]: when the wrapped function
    raises on its first [k] attempts, [k] below [max_retries], and returns on
    the next, the wrapper returns that value after [k + 1] calls; when it
    raises on all [max_retries] attempts, the wrapper makes exactly
    [max_retries] calls and raises the exception of the last; and with
    [max_retries = 0] it makes no call and returns [None]. *)
Theorem retry_on_failure_outcome {A} (func : nat -> outcome exn A)
  (max_retries calls : nat) :
  (forall k a,
     (k < max_retries)%nat ->
     (forall j, (j < k)%nat -> raises (func (calls + j)%nat)) ->
     func (calls + k)%nat = Return a ->
     Utils.retry_on_failure max_retries func calls
     = (Return (Some a), (calls + k + 1)%nat))
  /\ ((1 <= max_retries)%nat ->
      (forall j, (j < max_retries)%nat -> raises (func (calls + j)%nat)) ->
      exists e,
        func (calls + max_retries - 1)%nat = Raise e
        /\ Utils.retry_on_failure max_retries func calls
           = (Raise e, (calls + max_retries)%nat))
  /\ (max_retries = 0%nat ->
      Utils.retry_on_failure max_retries func calls = (Return None, calls)).
Proof.
  unfold Utils.retry_on_failure. split; [|split].
  - intros k a Hk Hfail Hret.
    by apply retry_attempts_first_return.
  - intros Hpos Hfail. by apply retry_attempts_last_raise.
  - by intros ->.
Qed.

(** The statement above for a call that raises twice and then returns. *)
Lemma retry_on_failure_outcome_witness :
  (2 < 3)%nat
  /\ (forall j, (j < 2)%nat -> raises (Inputs.third_time_lucky (0 + j)%nat))
  /\ Inputs.third_time_lucky (0 + 2)%nat = Return 7
  /\ Utils.retry_on_failure 3 Inputs.third_time_lucky 0
     = (Return (Some 7), 3%nat).
Proof.
  assert (forall j, (j < 2)%nat ->
                    raises (Inputs.third_time_lucky (0 + j)%nat)) as Hfail.
  { intros j Hj. unfold Inputs.third_time_lucky. simpl.
    destruct (Nat.ltb_spec j 2); [exact I | lia]. }
  split; [lia|]. split; [exact Hfail|]. split; [reflexivity|].
  exact (proj1 (retry_on_failure_outcome Inputs.third_time_lucky 3 0)
           2%nat 7 ltac:(lia) Hfail eq_refl).
Defined.

(** ** The section task *)

Lemma process_attempts_first_result w section k analysis_data :
  forall rem calls,
  (k < rem)%nat ->
  (forall j, (j < k)%nat -> no_result (w section (calls + j)%nat)) ->
  w section (calls + k)%nat = Return (Some analysis_data) ->
  SubLogic.process_attempts w section rem calls
  = ((section, Some analysis_data, true), (calls + k + 1)%nat).
Proof.
  induction k as [|k IH]; intros rem calls Hrem Hfail Hret.
  - destruct rem as [|rem]; [lia|]. simpl.
    rewrite Nat.add_0_r in Hret. rewrite Hret. f_equal. lia.
  - destruct rem as [|rem]; [lia|]. simpl.
    pose proof (Hfail 0%nat ltac:(lia)) as H0.
    rewrite Nat.add_0_r in H0.
    assert (SubLogic.process_attempts w section rem (S calls)
            = ((section, Some analysis_data, true), (calls + S k + 1)%nat))
      as Hrest.
    { rewrite (IH rem (S calls)).
      - f_equal. lia.
      - lia.
      - intros j Hj.
        replace (S calls + j)%nat with (calls + S j)%nat by lia.
        apply Hfail. lia.
      - by replace (S calls + k)%nat with (calls + S k)%nat by lia. }
    destruct (w section calls) as [e|[a|]]; done.
Qed.

Lemma process_attempts_no_result w section : forall rem calls,
  (forall j, (j < rem)%nat -> no_result (w section (calls + j)%nat)) ->
  SubLogic.process_attempts w section rem calls
  = ((section, None, false), (calls + rem)%nat).
Proof.
  induction rem as [|rem IH]; intros calls Hfail; simpl.
  - f_equal. lia.
  - pose proof (Hfail 0%nat ltac:(lia)) as H0.
    rewrite Nat.add_0_r in H0.
    assert (SubLogic.process_attempts w section rem (S calls)
            = ((section, None, false), (calls + S rem)%nat)) as Hrest.
    { rewrite IH; [f_equal; lia|].
      intros j Hj. replace (S calls + j)%nat with (calls + S j)%nat by lia.
      apply Hfail. lia. }
    destruct (w section calls) as [e|[a|]]; done.
Qed.

Lemma process_attempts_calls w section : forall rem calls,
  (snd (SubLogic.process_attempts w section rem calls) <= calls + rem)%nat.
Proof.
  induction rem as [|rem IH]; intros calls; simpl; [lia|].
  destruct (w section calls) as [e|[a|]]; simpl; try lia;
    specialize (IH (S calls)); lia.
Qed.

(** X2. [process_single_section] calls the extraction at most
    [max_retries] times. When the first [k] calls, [k] below [max_retries],
    raise or return a falsy value and the next returns an analysis, the task
    succeeds with that analysis after [k + 1] calls; when all [max_retries]
    calls raise or return a falsy value, the task fails with an empty
    analysis after [max_retries] calls. *)
Theorem process_single_section_outcome (w : SubLogic.worker)
  (max_retries : nat) (section : Section.t) :
  (SubLogic.section_attempts w max_retries section <= max_retries)%nat
  /\ (forall k analysis_data,
        (k < max_retries)%nat ->
        (forall j, (j < k)%nat -> no_result (w section j)) ->
        w section k = Return (Some analysis_data) ->
        SubLogic.process_single_section w max_retries section
        = (section, Some analysis_data, true)
        /\ SubLogic.section_attempts w max_retries section = (k + 1)%nat)
  /\ ((forall j, (j < max_retries)%nat -> no_result (w section j)) ->
      SubLogic.process_single_section w max_retries section
      = (section, None, false)
      /\ SubLogic.section_attempts w max_retries section = max_retries).
Proof.
  unfold SubLogic.process_single_section, SubLogic.section_attempts.
  split; [|split].
  - apply (process_attempts_calls w section max_retries 0).
  - intros k analysis_data Hk Hfail Hret.
    by rewrite (process_attempts_first_result w section k analysis_data
                  max_retries 0 Hk Hfail Hret).
  - intros Hfail.
    by rewrite (process_attempts_no_result w section max_retries 0 Hfail).
Qed.

(** The statement above for a worker that raises twice and then answers
    with the rule-based fragment. *)
Lemma process_single_section_outcome_witness :
  (2 < 3)%nat
  /\ (forall j, (j < 2)%nat ->
        no_result (Inputs.late_worker Inputs.two_paragraph_section j))
  /\ SubLogic.section_attempts Inputs.late_worker 3
       Inputs.two_paragraph_section = 3%nat.
Proof.
  assert (forall j, (j < 2)%nat ->
            no_result (Inputs.late_worker Inputs.two_paragraph_section j))
    as Hfail.
  { intros j Hj. unfold Inputs.late_worker.
    destruct (Nat.ltb_spec j 2); [exact I | lia]. }
  split; [lia|]. split; [exact Hfail|].
  exact (proj2 (proj1 (proj2 (process_single_section_outcome
                                Inputs.late_worker 3
                                Inputs.two_paragraph_section))
                  2%nat _ ltac:(lia) Hfail eq_refl)).
Defined.

(** ** The section batch *)

Lemma process_attempts_section w section : forall rem calls,
  fst (fst (fst (SubLogic.process_attempts w section rem calls))) = section.
Proof.
  induction rem as [|rem IH]; intros calls; simpl; [done|].
  destruct (w section calls) as [e|[a|]]; simpl; by rewrite ?IH.
Qed.

(** A future is collected, recorded as failed, or left out of both lists:
    one of the three, and no two. *)
Lemma future_accounted w max_retries clock section :
  let r := SubLogic.process_single_section w max_retries section in
  (exists kg, collected clock r = Some kg
              /\ KG.section_num kg = Section.section_num section
              /\ recorded_failure r = None
              /\ left_out r = None)
  \/ (collected clock r = None
      /\ recorded_failure r = Some (Section.section_num section)
      /\ left_out r = None)
  \/ (collected clock r = None
      /\ recorded_failure r = None
      /\ left_out r = Some (Section.section_num section)).
Proof.
  unfold SubLogic.process_single_section.
  pose proof (process_attempts_section w section max_retries 0) as Hs.
  destruct (SubLogic.process_attempts w section max_retries 0)
    as [[[s a] b] n]. simpl in *. subst s.
  destruct a as [a|], b; simpl; try (right; by left).
  destruct (SubLogic._build_kg_from_analysis a) as [[nodes edges]|].
  - left. by eexists.
  - right. by right.
Qed.

Lemma futures_accounted w max_retries clock sections :
  let futures :=
    map (SubLogic.process_single_section w max_retries) sections in
  map KG.section_num (omap (collected clock) futures)
  ++ omap recorded_failure futures ++ omap left_out futures
  ≡ₚ map Section.section_num sections.
Proof.
  induction sections as [|section sections IH]; [done|].
  cbn [map omap list_omap].
  destruct (future_accounted w max_retries clock section)
    as [(kg & -> & <- & -> & ->)|[(-> & -> & ->)|(-> & -> & ->)]]; simpl.
  - by apply Permutation_cons.
  - rewrite <- Permutation_middle. by apply Permutation_cons.
  - rewrite app_assoc, <- Permutation_middle, <- app_assoc.
    by apply Permutation_cons.
Qed.

Lemma succeeds_within_collected w max_retries section :
  succeeds_within w max_retries section ->
  recorded_failure (SubLogic.process_single_section w max_retries section)
  = None
  /\ left_out (SubLogic.process_single_section w max_retries section)
     = None.
Proof.
  intros (k & a & Hk & Hfail & Hret & [built Hbuilt]).
  unfold SubLogic.process_single_section.
  rewrite (process_attempts_first_result w section k a max_retries 0
             Hk Hfail Hret).
  simpl. by rewrite Hbuilt.
Qed.

(** A task that succeeds returns what the worker returned at the first
    call that neither raised nor returned a falsy value. *)
Lemma process_attempts_success w section analysis_data : forall rem calls,
  fst (SubLogic.process_attempts w section rem calls)
  = (section, Some analysis_data, true) ->
  exists k,
    (k < rem)%nat
    /\ (forall j, (j < k)%nat -> no_result (w section (calls + j)%nat))
    /\ w section (calls + k)%nat = Return (Some analysis_data).
Proof.
  induction rem as [|rem IH]; intros calls; simpl; [done|].
  destruct (w section calls) as [e|[a|]] eqn:Hcall; simpl.
  - intros (k & Hk & Hfail & Hret)%IH. exists (S k).
    split; [lia|]. split.
    + intros [|j] Hj.
      * by rewrite Nat.add_0_r, Hcall.
      * replace (calls + S j)%nat with (S calls + j)%nat by lia.
        apply Hfail. lia.
    + by replace (calls + S k)%nat with (S calls + k)%nat by lia.
  - intros [= ->]. exists 0%nat. split; [lia|]. split.
    + intros j Hj. lia.
    + by rewrite Nat.add_0_r.
  - intros (k & Hk & Hfail & Hret)%IH. exists (S k).
    split; [lia|]. split.
    + intros [|j] Hj.
      * by rewrite Nat.add_0_r, Hcall.
      * replace (calls + S j)%nat with (S calls + j)%nat by lia.
        apply Hfail. lia.
    + by replace (calls + S k)%nat with (S calls + k)%nat by lia.
Qed.

(** The sections left out are those whose extraction gave, within the
    attempts, an analysis from which no graph can be built. *)
Lemma left_out_spec w max_retries section :
  is_Some (left_out (SubLogic.process_single_section w max_retries section))
  <-> exists k analysis_data,
        (k < max_retries)%nat
        /\ (forall j, (j < k)%nat -> no_result (w section j))
        /\ w section k = Return (Some analysis_data)
        /\ SubLogic._build_kg_from_analysis analysis_data = None.
Proof.
  unfold SubLogic.process_single_section. split.
  - pose proof (process_attempts_section w section max_retries 0) as Hs.
    pose proof (process_attempts_success w section) as Hsuccess.
    specialize (fun a => Hsuccess a max_retries 0%nat).
    destruct (SubLogic.process_attempts w section max_retries 0)
      as [[[s a] b] n]. simpl in *. subst s.
    destruct a as [a|], b; simpl; try by intros [? ?].
    destruct (SubLogic._build_kg_from_analysis a) as [built|] eqn:Hbuilt;
      [by intros [? ?]|].
    intros _. destruct (Hsuccess a eq_refl) as (k & Hk & Hfail & Hret).
    by exists k, a.
  - intros (k & a & Hk & Hfail & Hret & Hbuilt).
    rewrite (process_attempts_first_result w section k a max_retries 0
               Hk Hfail Hret).
    simpl. rewrite Hbuilt. by eexists.
Qed.

(** X3. In whatever order the pool completes the tasks, the section batch
    accounts for no section twice, and for some not at all: the section
    numbers of the collected fragments, those of the failure list, and
    those of the sections left out of both lists are together a permutation
    of the section numbers submitted. A section is left out when its
    extraction gave, within the attempts, an analysis from which
    [_build_kg_from_analysis] builds nothing: [if kg_data:] has no [else],
    so a section whose only reply is ill-typed is in neither list. When
    every section gives, within the attempts, an analysis from which a
    graph can be built, the failure list is empty and there are as many
    fragments as sections. *)
Theorem extract_concurrent_accounts_for_all
  (as_completed : forall A : Type, list A -> list A)
  (w : SubLogic.worker) (max_retries : nat) (clock : Section.t -> str)
  (sections : list Section.t) :
  (forall (A : Type) (l : list A), as_completed A l ≡ₚ l) ->
  let batch :=
    SubLogic._extract_concurrent as_completed w max_retries clock sections in
  let futures :=
    map (SubLogic.process_single_section w max_retries) sections in
  map KG.section_num (fst batch) ++ snd batch ++ omap left_out futures
  ≡ₚ map Section.section_num sections
  /\ (length (fst batch) + length (snd batch)
      + length (omap left_out futures) = length sections)%nat
  /\ (forall section,
        is_Some (left_out
                   (SubLogic.process_single_section w max_retries section))
        <-> exists k analysis_data,
              (k < max_retries)%nat
              /\ (forall j, (j < k)%nat -> no_result (w section j))
              /\ w section k = Return (Some analysis_data)
              /\ SubLogic._build_kg_from_analysis analysis_data = None)
  /\ SubLogic._extract_concurrent Inputs.in_order Inputs.ill_typed_worker
       SubLogic.max_retries Inputs.noon [Inputs.two_paragraph_section]
     = ([], [])
  /\ ((forall section, section ∈ sections ->
         succeeds_within w max_retries section) ->
      snd batch = [] /\ omap left_out futures = []
      /\ length (fst batch) = length sections).
Proof.
  intros Hperm batch futures.
  destruct (extract_concurrent_per_task as_completed Hperm w max_retries
              clock sections) as [Hres Hfailed].
  fold batch in Hres, Hfailed. fold futures in Hres, Hfailed.
  pose proof (futures_accounted w max_retries clock sections) as Hacc.
  cbv zeta in Hacc. fold futures in Hacc.
  assert (map KG.section_num (fst batch) ++ snd batch
          ++ omap left_out futures
          ≡ₚ map Section.section_num sections) as Hall.
  { rewrite Hres, Hfailed. exact Hacc. }
  assert (length (fst batch) + length (snd batch)
          + length (omap left_out futures) = length sections)%nat
    as Hlen.
  { apply Permutation_length in Hall.
    rewrite !length_app, !length_map in Hall. lia. }
  split; [done|]. split; [done|].
  split; [intros section; apply left_out_spec|].
  split; [reflexivity|].
  intros Hsucc.
  assert (omap recorded_failure futures = []
          /\ omap left_out futures = []) as [Hnone Hleft].
  { subst futures. clear -Hsucc.
    induction sections as [|section sections IH]; [done|].
    cbn [map omap list_omap].
    destruct (succeeds_within_collected w max_retries section) as [-> ->];
      [apply Hsucc; by left|].
    apply IH. intros s Hs. apply Hsucc. by right. }
  assert (snd batch = []) as Hsnd.
  { apply Permutation_nil_r. by rewrite Hfailed, Hnone. }
  split; [done|]. split; [done|].
  rewrite Hsnd, Hleft in Hlen. simpl in Hlen. lia.
Qed.

(** The statement above for two sections yielded in order, one of two
    long paragraphs and one of a single paragraph, with a worker that raises
    twice before it answers: no failure, two fragments. *)
Lemma extract_concurrent_accounts_for_all_witness :
  let sections := [Inputs.two_paragraph_section;
                   Inputs.one_paragraph_section] in
  (forall (A : Type) (l : list A), Inputs.in_order A l ≡ₚ l)
  /\ (forall section, section ∈ sections ->
        succeeds_within Inputs.late_worker 3 section)
  /\ snd (SubLogic._extract_concurrent Inputs.in_order Inputs.late_worker 3
            Inputs.noon sections) = [].
Proof.
  assert (forall (A : Type) (l : list A), Inputs.in_order A l ≡ₚ l) as Hperm
    by (intros A l; reflexivity).
  assert (forall section,
            section ∈ [Inputs.two_paragraph_section;
                       Inputs.one_paragraph_section] ->
            succeeds_within Inputs.late_worker 3 section) as Hsucc.
  { intros section Hin. exists 2%nat. eexists. split; [lia|]. split.
    - intros j Hj. unfold Inputs.late_worker.
      destruct (Nat.ltb_spec j 2); [exact I | lia].
    - split; [reflexivity|]. by eexists. }
  split; [exact Hperm|]. split; [exact Hsucc|].
  exact (proj1 (proj2 (proj2 (proj2 (proj2
           (extract_concurrent_accounts_for_all
              Inputs.in_order Inputs.late_worker 3
              Inputs.noon _ Hperm)))) Hsucc)).
Defined.

(** X4. With the extraction call as worker, a failure of the service is
    never retried: on a transport error or a reply that does not parse, the
    first attempt succeeds with the rule-based fragment. The task fails
    exactly when the service answers a falsy value on each of the
    [max_retries] attempts. *)
Theorem extraction_failure_is_not_retried (lower : str -> str)
  (service : Section.t -> nat -> SubLogic.reply) (max_retries : nat)
  (section : Section.t) :
  let w := SubLogic.extraction_worker lower service in
  ((1 <= max_retries)%nat ->
   service section 0%nat = SubLogic.TransportError
   \/ service section 0%nat = SubLogic.Malformed ->
   SubLogic.process_single_section w max_retries section
   = (section,
      Some (SubLogic.Dict
              (SubLogic._rule_based_extraction lower
                 (Section.section_num section) (Section.title section)
                 (Section.content section))),
      true)
   /\ SubLogic.section_attempts w max_retries section = 1%nat)
  /\ (snd (SubLogic.process_single_section w max_retries section) = false
      <-> forall k, (k < max_retries)%nat ->
                    service section k = SubLogic.Parsed None).
Proof.
  intros w. split.
  - intros Hpos Hreply.
    unfold SubLogic.process_single_section, SubLogic.section_attempts.
    destruct max_retries as [|m]; [lia|]. simpl.
    subst w. unfold SubLogic.extraction_worker,
      SubLogic._call_deepseek_with_cot_triplet_extraction.
    by destruct Hreply as [-> | ->].
  - unfold SubLogic.process_single_section.
    assert (forall rem calls,
              snd (fst (SubLogic.process_attempts w section rem calls))
              = false
              <-> forall j, (j < rem)%nat ->
                    service section (calls + j)%nat = SubLogic.Parsed None)
      as Hgen.
    { induction rem as [|rem IH]; intros calls; simpl.
      - split; [intros _ j Hj; lia | done].
      - subst w. unfold SubLogic.extraction_worker at 1,
          SubLogic._call_deepseek_with_cot_triplet_extraction.
        destruct (service section calls) as [| |[a|]] eqn:E; simpl.
        + split; [done|]. intros H. specialize (H 0%nat ltac:(lia)).
          rewrite Nat.add_0_r in H. congruence.
        + split; [done|]. intros H. specialize (H 0%nat ltac:(lia)).
          rewrite Nat.add_0_r in H. congruence.
        + split; [done|]. intros H. specialize (H 0%nat ltac:(lia)).
          rewrite Nat.add_0_r in H. congruence.
        + rewrite IH. split.
          * intros H j Hj. destruct j as [|j].
            -- by rewrite Nat.add_0_r.
            -- replace (calls + S j)%nat with (S calls + j)%nat by lia.
               apply H. lia.
          * intros H j Hj.
            replace (S calls + j)%nat with (calls + S j)%nat by lia.
            apply H. lia. }
    apply (Hgen max_retries 0%nat).
Qed.

(** The statement above with the service down. *)
Lemma extraction_failure_is_not_retried_witness :
  (1 <= 3)%nat
  /\ SubLogic.section_attempts
       (SubLogic.extraction_worker lower_ascii SubLogic.unavailable) 3
       Inputs.short_section = 1%nat.
Proof.
  split; [lia|].
  exact (proj2 (proj1 (extraction_failure_is_not_retried lower_ascii
                         SubLogic.unavailable 3 Inputs.short_section)
                  ltac:(lia) (or_introl eq_refl))).
Defined.

(** ** The pair task *)

Lemma retry_attempts_calls {A} (func : nat -> outcome exn A) max_retries :
  forall rem calls,
  (calls <= snd (Utils.retry_attempts func max_retries rem calls)
   <= calls + rem)%nat.
Proof.
  induction rem as [|rem IH]; intros calls; simpl; [lia|].
  destruct (func calls) as [e|a]; simpl; [|lia].
  case_bool_decide; simpl; [lia|]. specialize (IH (S calls)). lia.
Qed.

Lemma analyze_attempts_calls call p : forall rem calls,
  (snd (analyze_attempts call p rem calls) <= calls + 3 * rem)%nat.
Proof.
  induction rem as [|rem IH]; intros calls; simpl; [lia|].
  unfold Utils.retry_on_failure.
  pose proof (retry_attempts_calls (call p) 3 3 calls) as Hcalls.
  destruct (Utils.retry_attempts (call p) 3 3 calls) as [[e|c] calls'];
    simpl in *.
  - specialize (IH calls'). lia.
  - lia.
Qed.

Lemma analyze_attempts_has_connection call p connection : forall rem calls,
  fst (analyze_attempts call p rem calls) = Some connection ->
  Conn.has_connection connection = Some true.
Proof.
  induction rem as [|rem IH]; intros calls; simpl; [done|].
  destruct (Utils.retry_on_failure 3 (call p) calls) as [[e|c] calls'].
  - apply IH.
  - simpl. destruct c as [[c|]|]; try done.
    destruct (Conn.has_connection c) as [[|]|] eqn:E; simpl; try done.
    by intros [= <-].
Qed.

(** X5. [analyze_single_pair] returns only connections whose
    [has_connection] is true, and runs the body of the connection call at
    most three times for each of its [max_retries] attempts. When the first
    run of the body returns, it is the only one, whatever it returns: an
    empty or negative answer is not retried. *)
Theorem analyze_single_pair_outcome (call : pair_call) (max_retries : nat)
  (p : node_pair) :
  (forall connection,
     analyze_single_pair call max_retries p = Some connection ->
     Conn.has_connection connection = Some true)
  /\ (pair_attempts call max_retries p <= 3 * max_retries)%nat
  /\ (forall answer,
        (1 <= max_retries)%nat -> call p 0%nat = Return answer ->
        pair_attempts call max_retries p = 1%nat
        /\ analyze_single_pair call max_retries p
           = match answer with
             | Some connection =>
               if (Conn.has_connection connection).get false
               then Some connection else None
             | None => None
             end).
Proof.
  unfold analyze_single_pair, pair_attempts. split; [|split].
  - intros connection. apply analyze_attempts_has_connection.
  - apply (analyze_attempts_calls call p max_retries 0).
  - intros answer Hpos Hret.
    destruct max_retries as [|m]; [lia|]. simpl.
    unfold Utils.retry_on_failure. simpl. rewrite Hret. done.
Qed.

(** The statement above for a call that answers at once. *)
Lemma analyze_single_pair_outcome_witness :
  (1 <= 3)%nat
  /\ Inputs.raises_for_cross_pair Inputs.other_pair 0%nat
     = Return (Some Inputs.connected)
  /\ pair_attempts Inputs.raises_for_cross_pair 3 Inputs.other_pair = 1%nat.
Proof.
  split; [lia|]. split; [reflexivity|].
  exact (proj1 (proj2 (proj2 (analyze_single_pair_outcome
                                Inputs.raises_for_cross_pair 3
                                Inputs.other_pair))
                  _ ltac:(lia) eq_refl)).
Defined.

(** ** Levels, edge kinds and statistics of the fused graph *)

Lemma get_node_level_range node_type : 0 <= _get_node_level node_type <= 3.
Proof. unfold _get_node_level. repeat case_decide; lia. Qed.

Lemma fuse_graphs_nodes now1 now2 main_logic_kg sub_logic_kgs conns :
  UnifiedKG.nodes (_fuse_graphs now1 now2 main_logic_kg sub_logic_kgs conns)
  = map unify_main_node ((MainKG.nodes main_logic_kg).get [])
    ++ flat_map section_unified_nodes sub_logic_kgs.
Proof.
  by destruct (fuse_graphs_edges now1 now2 main_logic_kg sub_logic_kgs conns)
    as [_ ->].
Qed.

(** X6. In the fused graph, before and after the dedup step, the level of
    every node is the level [_get_node_level] gives its node type, hence one
    of 0, 1, 2, 3; a fragment node of an unknown type has level 1. *)
Theorem fused_level_follows_node_type (now1 now2 : str)
  (main_logic_kg : MainKG.t) (sub_logic_kgs : list SubKG.t)
  (conns : list Conn.t) :
  let fused := _fuse_graphs now1 now2 main_logic_kg sub_logic_kgs conns in
  (forall node,
     node ∈ UnifiedKG.nodes fused
     \/ node ∈ UnifiedKG.nodes (_optimize_unified_kg fused) ->
     UNode.level node = _get_node_level (UNode.node_type node)
     /\ 0 <= UNode.level node <= 3)
  /\ (forall node_type,
        node_type ∉ [u "main_logic"; u "basic_concept"; u "core_technology";
                     u "circuit_application"] ->
        _get_node_level node_type = 1).
Proof.
  intros fused. split.
  - assert (forall node, node ∈ UnifiedKG.nodes fused ->
              UNode.level node = _get_node_level (UNode.node_type node))
      as Hfused.
    { intros node. subst fused. rewrite fuse_graphs_nodes, elem_of_app.
      intros [Hn|Hn].
      - by apply list_elem_of_fmap in Hn as (m & -> & _).
      - apply list_elem_of_In, in_flat_map in Hn as (kg & _ & Hn).
        unfold section_unified_nodes in Hn.
        by apply in_map_iff in Hn as (sn & <- & _). }
    intros node [Hn|Hn].
    + rewrite (Hfused node Hn). split; [done | apply get_node_level_range].
    + assert (node ∈ UnifiedKG.nodes fused) as Hn'.
      { by apply dedup_by_elem_of in Hn as [Hn _]. }
      rewrite (Hfused node Hn'). split; [done|apply get_node_level_range].
  - intros node_type Hout. rewrite !not_elem_of_cons in Hout.
    destruct Hout as (H1 & H2 & H3 & H4 & _).
    unfold _get_node_level. by rewrite !decide_False.
Qed.

(** The statement above at a fragment node of type [design_method]. *)
Lemma fused_level_follows_node_type_witness :
  (u "design_method" ∉ [u "main_logic"; u "basic_concept";
                        u "core_technology"; u "circuit_application"])
  /\ _get_node_level (u "design_method") = 1.
Proof.
  assert (u "design_method" ∉ [u "main_logic"; u "basic_concept";
                               u "core_technology";
                               u "circuit_application"]) as Hout.
  { rewrite !not_elem_of_cons. repeat split; try (by vm_compute).
    apply not_elem_of_nil. }
  split; [exact Hout|].
  exact (proj2 (fused_level_follows_node_type [] [] Inputs.main_only [] [])
           _ Hout).
Defined.

Lemma section_edges_kind main_logic_nodes kg edge :
  edge ∈ section_edges main_logic_nodes kg ->
  UEdge.edge_type edge = u "main_to_sub"
  \/ UEdge.edge_type edge = u "hierarchical".
Proof.
  unfold section_edges. rewrite elem_of_app. intros [H|H].
  - destruct (_find_main_logic_node_for_section _ _); [|inversion H].
    apply list_elem_of_fmap in H as (x & -> & _). by left.
  - apply hierarchical_connections_keyworded in H as [_ H]. by right.
Qed.

Lemma count_app {A} (p : A -> bool) l1 l2 :
  count p (l1 ++ l2) = count p l1 + count p l2.
Proof. unfold count. rewrite List.filter_app, length_app. lia. Qed.

Lemma count_none {A} (p : A -> bool) l :
  (forall x, x ∈ l -> p x = false) -> count p l = 0.
Proof.
  unfold count. induction l as [|x l IH]; intros Hall; simpl; [done|].
  rewrite (Hall x) by (by left). apply IH. intros y Hy. apply Hall. by right.
Qed.

Lemma count_all {A} (p : A -> bool) l :
  (forall x, x ∈ l -> p x = true) -> count p l = Z.of_nat (length l).
Proof.
  unfold count. induction l as [|x l IH]; intros Hall; simpl; [done|].
  rewrite (Hall x) by (by left). simpl.
  assert (count p l = Z.of_nat (length l)) as Hl.
  { apply IH. intros y Hy. apply Hall. by right. }
  unfold count in Hl. lia.
Qed.

Lemma fuse_graphs_statistics now1 now2 main_logic_kg sub_logic_kgs conns :
  let fused := _fuse_graphs now1 now2 main_logic_kg sub_logic_kgs conns in
  Statistics.total_nodes (UnifiedKG.statistics fused)
  = Z.of_nat (length (UnifiedKG.nodes fused))
  /\ Statistics.total_edges (UnifiedKG.statistics fused)
     = Z.of_nat (length (UnifiedKG.edges fused))
  /\ Statistics.cross_section_edges (UnifiedKG.statistics fused)
     = count (fun e => bool_decide (UEdge.edge_type e = u "inter_section"))
             (UnifiedKG.edges fused).
Proof.
  unfold _fuse_graphs.
  by destruct (foldl _ _ sub_logic_kgs) as [[nodes edges] apps].
Qed.

Lemma fused_edge_kind now1 now2 main_logic_kg sub_logic_kgs conns edge :
  edge ∈ UnifiedKG.edges
           (_fuse_graphs now1 now2 main_logic_kg sub_logic_kgs conns) ->
  UEdge.edge_type edge ∈ edge_kinds.
Proof.
  destruct (fuse_graphs_edges now1 now2 main_logic_kg sub_logic_kgs conns)
    as [-> _].
  unfold edge_kinds. rewrite !elem_of_app, !elem_of_cons.
  intros [H|[H|[H|[H|H]]]].
  - apply list_elem_of_fmap in H as (x & -> & _). by left.
  - apply list_elem_of_In, in_flat_map in H as (kg & _ & H).
    apply list_elem_of_In, section_edges_kind in H as [-> | ->]; tauto.
  - apply list_elem_of_In, in_flat_map in H as (kg & _ & H).
    apply in_map_iff in H as (x & <- & _). tauto.
  - apply application_connections_keyworded in H as [_ ->]. tauto.
  - apply list_elem_of_fmap in H as (x & -> & _). tauto.
Qed.

Lemma section_unified_nodes_length sub_logic_kgs :
  length (flat_map section_unified_nodes sub_logic_kgs)
  = length (flat_map (fun kg => (SubKG.nodes kg).get []) sub_logic_kgs).
Proof.
  induction sub_logic_kgs as [|kg kgs IH]; simpl; [done|].
  rewrite !length_app, IH. unfold section_unified_nodes.
  by rewrite length_map.
Qed.

(** X7. Every edge of the fused graph has one of six edge types. The
    statistic [cross_section_edges] is the number of connections of the
    input whose [has_connection] is true; [total_nodes] is the number of
    main-logic nodes plus the number of nodes of all fragments, none being
    dropped before the dedup step. After the dedup step the two totals are
    the lengths of the deduplicated lists, and never greater than before. *)
Theorem fused_statistics (now1 now2 : str) (main_logic_kg : MainKG.t)
  (sub_logic_kgs : list SubKG.t) (conns : list Conn.t) :
  let fused := _fuse_graphs now1 now2 main_logic_kg sub_logic_kgs conns in
  let optimized := _optimize_unified_kg fused in
  (forall edge, edge ∈ UnifiedKG.edges fused ->
                UEdge.edge_type edge ∈ edge_kinds)
  /\ Statistics.cross_section_edges (UnifiedKG.statistics fused)
     = Z.of_nat (length (List.filter confirmed conns))
  /\ Statistics.total_nodes (UnifiedKG.statistics fused)
     = Z.of_nat (length ((MainKG.nodes main_logic_kg).get []))
       + Z.of_nat (length (flat_map (fun kg => (SubKG.nodes kg).get [])
                                    sub_logic_kgs))
  /\ Statistics.total_nodes (UnifiedKG.statistics optimized)
     = Z.of_nat (length (UnifiedKG.nodes optimized))
  /\ Statistics.total_edges (UnifiedKG.statistics optimized)
     = Z.of_nat (length (UnifiedKG.edges optimized))
  /\ Statistics.total_nodes (UnifiedKG.statistics optimized)
     <= Statistics.total_nodes (UnifiedKG.statistics fused)
  /\ Statistics.total_edges (UnifiedKG.statistics optimized)
     <= Statistics.total_edges (UnifiedKG.statistics fused).
Proof.
  intros fused optimized.
  destruct (fuse_graphs_statistics now1 now2 main_logic_kg sub_logic_kgs
              conns) as (Hn & He & Hx).
  fold fused in Hn, He, Hx.
  split; [apply fused_edge_kind|]. split; [|split; [|split; [|split]]].
  - rewrite Hx. subst fused.
    destruct (fuse_graphs_edges now1 now2 main_logic_kg sub_logic_kgs conns)
      as [-> _].
    rewrite !count_app.
    rewrite (count_none _ (map unify_main_edge _)).
    2:{ intros e (x & -> & _)%list_elem_of_fmap. done. }
    rewrite (count_none _ (flat_map (section_edges _) _)).
    2:{ intros e (kg & _ & H)%list_elem_of_In%in_flat_map.
        apply list_elem_of_In, section_edges_kind in H as [H|H];
          rewrite H; done. }
    rewrite (count_none _ (flat_map _ sub_logic_kgs)).
    2:{ intros e (kg & _ & H)%list_elem_of_In%in_flat_map.
        by apply in_map_iff in H as (x & <- & _). }
    rewrite (count_none _ (_build_circuit_application_connections _)).
    2:{ intros e H. apply application_connections_keyworded in H as [_ H].
        by rewrite H. }
    rewrite count_all.
    2:{ intros e (x & -> & _)%list_elem_of_fmap. done. }
    rewrite length_map. unfold confirmed. lia.
  - rewrite Hn. subst fused. rewrite fuse_graphs_nodes.
    rewrite length_app, length_map.
    rewrite section_unified_nodes_length. lia.
  - done.
  - done.
  - simpl. rewrite Hn, He.
    pose proof (sublist_length _ _
                  (dedup_by_sublist UNode.id ∅ (UnifiedKG.nodes fused))).
    pose proof (sublist_length _ _
                  (dedup_by_sublist edge_key ∅ (UnifiedKG.edges fused))).
    lia.
Qed.

(** ** The application network *)

Lemma has_keyword_similarity_sym node1 node2 threshold :
  _has_keyword_similarity node1 node2 threshold
  = _has_keyword_similarity node2 node1 threshold.
Proof.
  unfold _has_keyword_similarity.
  assert (forall K1 K2 : gset str, K2 ∩ K1 = K1 ∩ K2) as Hinter
    by (intros K1 K2; set_solver).
  assert (forall K1 K2 : gset str, K2 ∪ K1 = K1 ∪ K2) as Hunion
    by (intros K1 K2; set_solver).
  rewrite (orb_comm (bool_decide (_ = ∅))).
  by rewrite (Hinter (list_to_set (UNode.keywords node1))),
    (Hunion (list_to_set (UNode.keywords node1))).
Qed.

(** X8. The [relates_to_application] edges come in both directions: for
    every such edge the loop also appends one with source and target
    exchanged. No such edge joins a node to a node of the same id or of the
    same section. *)
Theorem application_connections_symmetric
  (circuit_applications : list UNode.t) (edge : UEdge.t) :
  edge ∈ _build_circuit_application_connections circuit_applications ->
  (exists app other_app,
     app ∈ circuit_applications /\ other_app ∈ circuit_applications
     /\ edge = relates_edge app other_app
     /\ UNode.id app <> UNode.id other_app
     /\ UNode.section_num app <> UNode.section_num other_app
     /\ relates_edge other_app app
        ∈ _build_circuit_application_connections circuit_applications)
  /\ UEdge.bidirectional edge = true.
Proof.
  unfold _build_circuit_application_connections.
  rewrite elem_of_pairs_where.
  intros (x & y & Hx & Hy & Htest & ->). split; [|done].
  apply andb_true_iff in Htest as [Hne Hsim].
  apply andb_true_iff in Hne as [Hid Hsec].
  apply negb_true_iff, bool_decide_eq_false in Hid, Hsec.
  exists x, y. repeat (split; [done|]).
  apply elem_of_pairs_where. exists y, x.
  repeat (split; [done|]). split; [|done].
  rewrite has_keyword_similarity_sym, Hsim.
  rewrite !(bool_decide_eq_false_2 _); [done| |]; congruence.
Qed.

(** The statement above for two applications of different sections that
    share a keyword. *)
Lemma application_connections_symmetric_witness :
  let a := Inputs.app_bc in
  let b := {| UNode.id := u "ca_2_1"; UNode.label := u "ca_2_1";
              UNode.node_type := u "circuit_application";
              UNode.summary := []; UNode.difficulty := 3;
              UNode.section_num := u "2"; UNode.keywords := [u "B"];
              UNode.formulas := []; UNode.applications := [];
              UNode.properties := JObj []; UNode.level := 3;
              UNode.source := u "sub_logic" |} in
  relates_edge a b ∈ _build_circuit_application_connections [a; b]
  /\ UEdge.bidirectional (relates_edge a b) = true.
Proof.
  intros a b.
  assert (relates_edge a b ∈ _build_circuit_application_connections [a; b])
    as Hin by (vm_compute; left).
  split; [exact Hin|].
  exact (proj2 (application_connections_symmetric [a; b] _ Hin)).
Defined.

(** ** First occurrence wins *)

Lemma dedup_by_app {K A} `{Countable K} (key : A -> K) (l1 l2 : list A) :
  forall seen,
  dedup_by key seen (l1 ++ l2)
  = dedup_by key seen l1
    ++ dedup_by key (seen ∪ list_to_set (map key l1)) l2.
Proof.
  induction l1 as [|x l1 IH]; intros seen; simpl.
  - by rewrite (right_id_L ∅ (∪)).
  - destruct (decide (key x ∈ seen)) as [Hin|Hout].
    + rewrite IH. do 2 f_equal. set_solver.
    + simpl. rewrite IH. do 3 f_equal. set_solver.
Qed.

(** X9. The dedup step treats the main-logic nodes first: the nodes of the
    optimized graph are the main-logic nodes deduplicated among themselves,
    followed by the fragment nodes that are new with respect to them. So
    main-logic nodes with pairwise distinct ids all survive, in order, and
    a fragment node that has the id of a main-logic node is dropped. *)
Theorem optimize_keeps_main_nodes_first (now1 now2 : str)
  (main_logic_kg : MainKG.t) (sub_logic_kgs : list SubKG.t)
  (conns : list Conn.t) :
  let main_nodes :=
    map unify_main_node ((MainKG.nodes main_logic_kg).get []) in
  let fragment_nodes := flat_map section_unified_nodes sub_logic_kgs in
  let optimized :=
    _optimize_unified_kg
      (_fuse_graphs now1 now2 main_logic_kg sub_logic_kgs conns) in
  UnifiedKG.nodes optimized
  = dedup_by UNode.id ∅ main_nodes
    ++ dedup_by UNode.id (list_to_set (map UNode.id main_nodes))
                fragment_nodes
  /\ (NoDup (map UNode.id main_nodes) ->
      exists rest, UnifiedKG.nodes optimized = main_nodes ++ rest)
  /\ (forall node main_node,
        node ∈ fragment_nodes -> main_node ∈ main_nodes ->
        UNode.id node = UNode.id main_node ->
        UNode.source node = u "sub_logic"
        /\ forall survivor,
             survivor ∈ UnifiedKG.nodes optimized ->
             UNode.id survivor = UNode.id node ->
             UNode.source survivor = u "main_logic").
Proof.
  intros main_nodes fragment_nodes optimized.
  assert (UnifiedKG.nodes optimized
          = dedup_by UNode.id ∅ main_nodes
            ++ dedup_by UNode.id (list_to_set (map UNode.id main_nodes))
                 fragment_nodes) as Hnodes.
  { subst optimized. unfold _optimize_unified_kg. simpl.
    rewrite fuse_graphs_nodes. fold main_nodes fragment_nodes.
    rewrite dedup_by_app. by rewrite (left_id_L ∅ (∪)). }
  split; [done|]. split.
  - intros Hnd. eexists. rewrite Hnodes.
    rewrite (dedup_by_fixed UNode.id ∅ main_nodes Hnd); [done|set_solver].
  - intros node main_node Hnode Hmain Hid. split.
    + subst fragment_nodes.
      apply list_elem_of_In, in_flat_map in Hnode as (kg & _ & Hnode).
      by apply in_map_iff in Hnode as (sn & <- & _).
    + intros survivor Hs Hsid. rewrite Hnodes in Hs.
      apply elem_of_app in Hs as [Hs|Hs].
      * apply dedup_by_elem_of in Hs as [Hs _]. subst main_nodes.
        by apply list_elem_of_fmap in Hs as (m & -> & _).
      * apply dedup_by_elem_of in Hs as [_ Hs]. exfalso. apply Hs.
        rewrite Hsid, Hid. apply elem_of_list_to_set.
        apply list_elem_of_fmap. by exists main_node.
Qed.

(** The statement above for a main-logic graph of one node. *)
Lemma optimize_keeps_main_nodes_first_witness :
  let main_nodes :=
    map unify_main_node ((MainKG.nodes Inputs.main_only).get []) in
  NoDup (map UNode.id main_nodes)
  /\ exists rest,
       UnifiedKG.nodes
         (_optimize_unified_kg
            (_fuse_graphs [] [] Inputs.main_only [] []))
       = main_nodes ++ rest.
Proof.
  intros main_nodes.
  assert (NoDup (map UNode.id main_nodes)) as Hnd.
  { repeat constructor; [apply not_elem_of_nil]. }
  split; [exact Hnd|].
  exact (proj1 (proj2 (optimize_keeps_main_nodes_first [] []
                         Inputs.main_only [] [])) Hnd).
Defined.

(** ** The main-logic node of a section *)

Lemma startswith_dot c (rest : str) :
  startswith (c :: rest) [46%N] = (46 =? c)%N.
Proof. cbn [startswith]. by destruct rest; rewrite andb_true_r. Qed.

Lemma split_go_dot_head (s : str) : forall cur,
  hd [] (split_go [46%N] 0 cur s) = rev cur ++ before_dot s.
Proof.
  induction s as [|c rest IH]; intros cur.
  - cbn [split_go before_dot hd]. by rewrite app_nil_r.
  - cbn [split_go before_dot]. rewrite startswith_dot, N.eqb_sym.
    destruct (c =? 46)%N.
    + cbn [hd]. by rewrite app_nil_r.
    + rewrite IH. cbn [rev]. by rewrite <- app_assoc.
Qed.

Lemma contains_dot_false (s : str) :
  contains s [46%N] = false -> before_dot s = s.
Proof.
  induction s as [|c rest IH]; [done|].
  cbn [contains before_dot]. rewrite startswith_dot, N.eqb_sym.
  destruct (c =? 46)%N; [done|]. cbn [orb]. intros H. by rewrite IH.
Qed.

Lemma section_prefix_before_dot (section_num : str) :
  (if contains section_num (u ".")
   then hd [] (split section_num (u "."))
   else section_num) = before_dot section_num.
Proof.
  change (u ".") with [46%N].
  destruct (contains section_num [46%N]) eqn:E.
  - unfold split. by rewrite split_go_dot_head.
  - by rewrite contains_dot_false.
Qed.

Lemma find_none_iff {A} (f : A -> bool) (l : list A) :
  find f l = None <-> forall x, x ∈ l -> f x = false.
Proof.
  induction l as [|y l IH]; simpl.
  - split; [intros _ x Hx; inversion Hx | done].
  - destruct (f y) eqn:E.
    + split; [done|]. intros H. specialize (H y ltac:(by left)). congruence.
    + rewrite IH. split.
      * intros H x [->|Hx]%elem_of_cons; [done | by apply H].
      * intros H x Hx. apply H. by right.
Qed.

(** X10. [_find_main_logic_node_for_section] returns a node of the list.
    When some main-logic node has exactly the section number asked for, the
    result is such a node. Otherwise the result is a node whose section
    number starts with the part of the asked number before its first dot;
    and there is no result exactly when no node is of either kind. An
    empty section number is thus matched by any list that is not empty. *)
Theorem find_main_logic_node_for_section_spec
  (main_logic_nodes : list UNode.t) (section_num : str) :
  let found :=
    _find_main_logic_node_for_section main_logic_nodes section_num in
  let exact node := UNode.section_num node = section_num in
  let close node :=
    startswith (UNode.section_num node) (before_dot section_num) = true in
  (forall node, found = Some node ->
     node ∈ main_logic_nodes
     /\ (exact node
         \/ (forall other, other ∈ main_logic_nodes -> ~ exact other)
            /\ close node))
  /\ (forall other, other ∈ main_logic_nodes -> exact other ->
        exists node, found = Some node /\ exact node)
  /\ (found = None
      <-> forall other, other ∈ main_logic_nodes ->
            ~ exact other /\ ~ close other)
  /\ (section_num = [] -> main_logic_nodes <> [] -> found <> None).
Proof.
  intros found exact close. subst found.
  unfold _find_main_logic_node_for_section.
  rewrite section_prefix_before_dot.
  destruct (find (fun node => bool_decide (UNode.section_num node
                                           = section_num))
                 main_logic_nodes) as [n|] eqn:Efind.
  - apply find_some in Efind as [Hin Hexact].
    apply bool_decide_eq_true in Hexact. apply list_elem_of_In in Hin.
    split; [|split; [|split]].
    + intros node [= <-]. split; [done | by left].
    + intros other _ _. by exists n.
    + split; [done|]. intros H. destruct (H n Hin) as [Hne _]. done.
    + done.
  - pose proof (proj1 (find_none_iff _ _) Efind) as Hnone.
    assert (forall other, other ∈ main_logic_nodes -> ~ exact other)
      as Hnoexact.
    { intros other Hin. apply Hnone in Hin.
      by apply bool_decide_eq_false in Hin. }
    split; [|split; [|split]].
    + intros node Hfind. apply find_some in Hfind as [Hin Hclose].
      apply list_elem_of_In in Hin. split; [done|]. right. done.
    + intros other Hin Hex. by apply Hnoexact in Hin.
    + rewrite find_none_iff. split.
      * intros H other Hin. split; [by apply Hnoexact|].
        unfold close. rewrite (H other Hin). done.
      * intros H other Hin. destruct (H other Hin) as [_ Hc].
        unfold close in Hc. by destruct (startswith _ _).
    + intros -> Hne. destruct main_logic_nodes as [|n0 rest]; [done|].
      simpl. by destruct (UNode.section_num n0).
Qed.

(** The statement above for a section [1.2] and a main-logic node of
    section [1]. *)
Lemma find_main_logic_node_for_section_spec_witness :
  let nodes := [unify_main_node Inputs.main_node_1] in
  _find_main_logic_node_for_section nodes (u "1.2")
  = Some (unify_main_node Inputs.main_node_1)
  /\ unify_main_node Inputs.main_node_1 ∈ nodes.
Proof.
  intros nodes.
  assert (_find_main_logic_node_for_section nodes (u "1.2")
          = Some (unify_main_node Inputs.main_node_1)) as Hfound
    by (by vm_compute).
  split; [exact Hfound|].
  exact (proj1 (proj1 (find_main_logic_node_for_section_spec nodes (u "1.2"))
                  _ Hfound)).
Defined.

(** ** Synthesized edges have their endpoints *)

Lemma find_main_logic_node_elem_of main_logic_nodes section_num node :
  _find_main_logic_node_for_section main_logic_nodes section_num = Some node
  -> node ∈ main_logic_nodes.
Proof.
  unfold _find_main_logic_node_for_section.
  destruct (find _ main_logic_nodes) as [n|] eqn:E.
  - intros [= <-]. by apply find_some in E as [?%list_elem_of_In _].
  - by intros [?%list_elem_of_In _]%find_some.
Qed.

(** Every synthesized edge of the fused graph joins two of its nodes. *)
Lemma fused_synthesized_anchored now1 now2 main_logic_kg sub_logic_kgs conns
  edge :
  let fused := _fuse_graphs now1 now2 main_logic_kg sub_logic_kgs conns in
  edge ∈ UnifiedKG.edges fused ->
  UEdge.edge_type edge ∈ synthesized_kinds ->
  anchored (UnifiedKG.nodes fused) edge.
Proof.
  intros fused Hin Hkind. subst fused.
  unfold synthesized_kinds in Hkind. rewrite !elem_of_cons in Hkind.
  destruct Hkind as [Hkind|[Hkind|[Hkind|Hkind]]]; [| | |inversion Hkind].
  - (* main_to_sub *)
    rewrite fuse_graphs_nodes.
    destruct (fuse_graphs_edges now1 now2 main_logic_kg sub_logic_kgs conns)
      as [Hedges _].
    rewrite Hedges in Hin. clear Hedges.
    rewrite !elem_of_app in Hin.
    destruct Hin as [H|[H|[H|[H|H]]]].
    + apply list_elem_of_fmap in H as (x & -> & _).
      vm_compute in Hkind. discriminate.
    + apply list_elem_of_In, in_flat_map in H as (kg & Hkg & H).
      unfold section_edges in H. apply in_app_iff in H as [H|H].
      * destruct (_find_main_logic_node_for_section _ _) as [main_node|]
          eqn:Efind; [|done].
        apply find_main_logic_node_elem_of in Efind.
        apply in_map_iff in H as (app & <- & Happ).
        simpl in Happ. apply filter_In in Happ as [Happ _].
        split.
        -- exists main_node. split; [|done]. apply elem_of_app. by left.
        -- exists app. split; [|done]. apply elem_of_app. right.
           apply list_elem_of_In, in_flat_map. by exists kg.
      * apply list_elem_of_In, hierarchical_connections_keyworded in H
          as [_ H].
        rewrite H in Hkind. vm_compute in Hkind. discriminate.
    + apply list_elem_of_In, in_flat_map in H as (kg & _ & H).
      apply in_map_iff in H as (x & <- & _).
      vm_compute in Hkind. discriminate.
    + apply application_connections_keyworded in H as [_ H].
      rewrite H in Hkind. vm_compute in Hkind. discriminate.
    + apply list_elem_of_fmap in H as (x & -> & _).
      vm_compute in Hkind. discriminate.
  - destruct (fuse_graphs_synthesized _ _ _ _ _ _ Hin (or_introl Hkind))
      as (n1 & n2 & H1 & H2 & Hs & Ht & _).
    rewrite fuse_graphs_nodes.
    split; [exists n1 | exists n2]; (split; [|done]);
      apply elem_of_app; by right.
  - destruct (fuse_graphs_synthesized _ _ _ _ _ _ Hin (or_intror Hkind))
      as (n1 & n2 & H1 & H2 & Hs & Ht & _).
    rewrite fuse_graphs_nodes.
    split; [exists n1 | exists n2]; (split; [|done]);
      apply elem_of_app; by right.
Qed.

(** X11. A synthesized edge never dangles: in the optimized graph, every
    edge of type [main_to_sub], [hierarchical] or [application_network] has
    a surviving node with its source id and one with its target id. *)
Theorem synthesized_edges_are_anchored (now1 now2 : str)
  (main_logic_kg : MainKG.t) (sub_logic_kgs : list SubKG.t)
  (conns : list Conn.t) (edge : UEdge.t) :
  let optimized :=
    _optimize_unified_kg
      (_fuse_graphs now1 now2 main_logic_kg sub_logic_kgs conns) in
  edge ∈ UnifiedKG.edges optimized ->
  UEdge.edge_type edge ∈ synthesized_kinds ->
  anchored (UnifiedKG.nodes optimized) edge.
Proof.
  intros optimized Hin Hkind. subst optimized.
  unfold _optimize_unified_kg in *. simpl in *.
  apply dedup_by_elem_of in Hin as [Hin _].
  destruct (fused_synthesized_anchored _ _ _ _ _ _ Hin Hkind)
    as [(n1 & H1 & Hs) (n2 & H2 & Ht)].
  split.
  - destruct (dedup_by_keeps_key UNode.id ∅ _ n1 H1) as (n & Hn & Hid);
      [set_solver|].
    exists n. split; [done | congruence].
  - destruct (dedup_by_keeps_key UNode.id ∅ _ n2 H2) as (n & Hn & Hid);
      [set_solver|].
    exists n. split; [done | congruence].
Qed.

(** The statement above for the edge from the main-logic node of section 1
    to the circuit application of its fragment. *)
Lemma synthesized_edges_are_anchored_witness :
  let optimized :=
    _optimize_unified_kg
      (_fuse_graphs [] [] Inputs.main_only [Inputs.app_fragment] []) in
  let edge :=
    contains_application_edge (u "1") (unify_main_node Inputs.main_node_1)
      (unify_sub_node (u "1") Inputs.app_sub_node) in
  edge ∈ UnifiedKG.edges optimized
  /\ UEdge.edge_type edge ∈ synthesized_kinds
  /\ anchored (UnifiedKG.nodes optimized) edge.
Proof.
  intros optimized edge.
  assert (edge ∈ UnifiedKG.edges optimized) as Hin by (vm_compute; left).
  assert (UEdge.edge_type edge ∈ synthesized_kinds) as Hkind
    by (vm_compute; left).
  split; [exact Hin|]. split; [exact Hkind|].
  exact (synthesized_edges_are_anchored [] [] Inputs.main_only
           [Inputs.app_fragment] [] edge Hin Hkind).
Defined.

(** X12. Every circuit application of a fragment whose section has a
    main-logic node is attached to it: the fused graph has the
    [contains_application] edge from that node to the application, and the
    optimized graph keeps an edge with the same source, target and
    relationship. *)
Theorem applications_are_attached (now1 now2 : str)
  (main_logic_kg : MainKG.t) (sub_logic_kgs : list SubKG.t)
  (conns : list Conn.t) (kg : SubKG.t) (main_node app : UNode.t) :
  let fused := _fuse_graphs now1 now2 main_logic_kg sub_logic_kgs conns in
  let section_num := (SubKG.section_num kg).get [] in
  kg ∈ sub_logic_kgs ->
  _find_main_logic_node_for_section
    (map unify_main_node ((MainKG.nodes main_logic_kg).get [])) section_num
  = Some main_node ->
  app ∈ section_unified_nodes kg ->
  UNode.node_type app = u "circuit_application" ->
  contains_application_edge section_num main_node app
  ∈ UnifiedKG.edges fused
  /\ exists edge,
       edge ∈ UnifiedKG.edges (_optimize_unified_kg fused)
       /\ edge_key edge
          = (UNode.id main_node, UNode.id app, u "contains_application").
Proof.
  intros fused section_num Hkg Hfind Happ Htype.
  assert (contains_application_edge section_num main_node app
          ∈ UnifiedKG.edges fused) as Hin.
  { subst fused.
    destruct (fuse_graphs_edges now1 now2 main_logic_kg sub_logic_kgs conns)
      as [-> _].
    apply elem_of_app. right. apply elem_of_app. left.
    apply list_elem_of_In, in_flat_map. exists kg.
    split; [by apply list_elem_of_In|].
    unfold section_edges. fold section_num. rewrite Hfind.
    apply in_app_iff. left. apply in_map. simpl.
    apply filter_In. split; [by apply list_elem_of_In|].
    unfold has_type. by apply bool_decide_eq_true. }
  split; [done|].
  destruct (dedup_by_keeps_key edge_key ∅ _ _ Hin) as (e & He & Hkey);
    [set_solver|].
  by exists e.
Qed.

(** The statement above for the fragment of section 1. *)
Lemma applications_are_attached_witness :
  let main_node := unify_main_node Inputs.main_node_1 in
  let app := unify_sub_node (u "1") Inputs.app_sub_node in
  Inputs.app_fragment ∈ [Inputs.app_fragment]
  /\ _find_main_logic_node_for_section
       (map unify_main_node ((MainKG.nodes Inputs.main_only).get []))
       ((SubKG.section_num Inputs.app_fragment).get [])
     = Some main_node
  /\ app ∈ section_unified_nodes Inputs.app_fragment
  /\ UNode.node_type app = u "circuit_application"
  /\ contains_application_edge (u "1") main_node app
     ∈ UnifiedKG.edges
         (_fuse_graphs [] [] Inputs.main_only [Inputs.app_fragment] []).
Proof.
  intros main_node app.
  assert (Inputs.app_fragment ∈ [Inputs.app_fragment]) as H1 by left.
  assert (_find_main_logic_node_for_section
            (map unify_main_node ((MainKG.nodes Inputs.main_only).get []))
            ((SubKG.section_num Inputs.app_fragment).get [])
          = Some main_node) as H2 by (by vm_compute).
  assert (app ∈ section_unified_nodes Inputs.app_fragment) as H3 by left.
  assert (UNode.node_type app = u "circuit_application") as H4
    by reflexivity.
  split; [exact H1|]. split; [exact H2|]. split; [exact H3|].
  split; [exact H4|].
  exact (proj1 (applications_are_attached [] [] Inputs.main_only
                  [Inputs.app_fragment] [] Inputs.app_fragment main_node app
                  H1 H2 H3 H4)).
Defined.

(** ** Fragments of the section stage *)

Lemma build_kg_nodes_spec analysis_data node :
  node ∈ fst (SubLogic.build_kg analysis_data) ->
  KGNode.node_type node ∈ tiers
  /\ len (KGNode.technical_details node) <= 200
  /\ KGNode.technical_details node = slice_to 200 (KGNode.summary node).
Proof.
  unfold SubLogic.build_kg, tiers. simpl.
  rewrite !elem_of_app, !list_elem_of_fmap.
  intros [H|[H|H]]; destruct H as (c & -> & _);
    cbn [SubLogic.build_node KGNode.node_type KGNode.technical_details
         KGNode.summary];
    (split; [rewrite !elem_of_cons; tauto|]);
    (split; [|done]); unfold len, slice_to; rewrite length_take; lia.
Qed.

Lemma collected_spec clock r kg :
  collected clock r = Some kg ->
  exists analysis_data,
    KG.nodes kg = fst (SubLogic.build_kg analysis_data)
    /\ KG.section_num kg = Section.section_num (fst (fst r)).
Proof.
  destruct r as [[s [[a|]|]] [|]]; unfold collected; try done.
  cbn [SubLogic._build_kg_from_analysis].
  destruct (SubLogic.build_kg a) as [nodes edges] eqn:E.
  intros [= <-]. exists a. by rewrite E.
Qed.

Lemma is_valid_kg_spec kg :
  SubLogic._is_valid_kg kg = true
  <-> (2 <= length (KG.nodes kg))%nat
      /\ forall node, node ∈ KG.nodes kg ->
           KGNode.id node <> [] /\ KGNode.label node <> [].
Proof.
  unfold SubLogic._is_valid_kg.
  case_bool_decide as Hnil.
  { rewrite Hnil. simpl. split; [done | lia]. }
  destruct (Z.ltb_spec (Z.of_nat (length (KG.nodes kg))) 2) as [Hlt|Hge].
  { split; [done | lia]. }
  rewrite forallb_forall. split.
  - intros Hall. split; [lia|]. intros node Hnode%list_elem_of_In.
    apply Hall, negb_true_iff, orb_false_iff in Hnode as [H1 H2].
    by apply bool_decide_eq_false in H1, H2.
  - intros [_ Hall] node Hnode%list_elem_of_In.
    destruct (Hall node Hnode) as [H1 H2].
    apply negb_true_iff, orb_false_iff.
    by rewrite !bool_decide_eq_false.
Qed.

(** X13. Whatever the extraction calls return and in whatever order the
    tasks complete, every fragment that [generate_sub_logic] returns belongs
    to a section of the file whose content is longer than 200 characters,
    has at least two nodes, and each of its nodes has a non-empty id, a
    non-empty label, one of the three tier types, and technical details of
    at most 200 characters cut from its summary. *)
Theorem generate_sub_logic_fragments_are_valid
  (as_completed : forall A : Type, list A -> list A)
  (w : SubLogic.worker) (max_retries : nat) (clock : Section.t -> str)
  (sections : list Section.t) (kg : KG.t) :
  (forall (A : Type) (l : list A), as_completed A l ≡ₚ l) ->
  kg ∈ SubLogic.generate_sub_logic as_completed w max_retries clock
         (Some sections) ->
  (exists section,
     section ∈ sections /\ 200 < len (Section.content section)
     /\ KG.section_num kg = Section.section_num section)
  /\ (2 <= length (KG.nodes kg))%nat
  /\ (forall node, node ∈ KG.nodes kg ->
        KGNode.id node <> [] /\ KGNode.label node <> []
        /\ KGNode.node_type node ∈ tiers
        /\ len (KGNode.technical_details node) <= 200
        /\ KGNode.technical_details node
           = slice_to 200 (KGNode.summary node)).
Proof.
  intros Hperm Hkg.
  unfold SubLogic.generate_sub_logic, SubLogic._validate_sub_logic_kgs in Hkg.
  simpl in Hkg. fold long_enough in Hkg.
  apply list_elem_of_In, filter_In in Hkg as [Hkg Hvalid].
  apply is_valid_kg_spec in Hvalid as [Hlen Hnodes].
  destruct (extract_concurrent_per_task as_completed Hperm w max_retries
              clock (List.filter long_enough sections)) as [Hres _].
  apply list_elem_of_In in Hkg. rewrite Hres in Hkg.
  apply list_elem_of_omap in Hkg as (r & Hr & Hcol).
  apply list_elem_of_fmap in Hr as (section & -> & Hsec).
  apply list_elem_of_In, filter_In in Hsec as [Hsec Hlong].
  apply collected_spec in Hcol as (a & Hbuilt & Hnum).
  unfold SubLogic.process_single_section in Hnum.
  rewrite process_attempts_section in Hnum.
  split; [|split; [done|]].
  - exists section. split; [by apply list_elem_of_In|].
    split; [|done]. by apply Z.ltb_lt in Hlong.
  - intros node Hnode. destruct (Hnodes node Hnode) as [Hid Hlabel].
    split; [done|]. split; [done|].
    rewrite Hbuilt in Hnode. by apply build_kg_nodes_spec in Hnode.
Qed.

(** The statement above for the fragment of the section of two long
    paragraphs. *)
Lemma generate_sub_logic_fragments_are_valid_witness :
  let sections := [Inputs.short_section; Inputs.two_paragraph_section] in
  let kg := Pipeline.fallback_kg lower_ascii Inputs.noon
              Inputs.two_paragraph_section in
  (forall (A : Type) (l : list A), Inputs.in_order A l ≡ₚ l)
  /\ kg ∈ SubLogic.generate_sub_logic Inputs.in_order
            (SubLogic.extraction_worker lower_ascii SubLogic.unavailable)
            3 Inputs.noon (Some sections)
  /\ (2 <= length (KG.nodes kg))%nat.
Proof.
  intros sections kg.
  assert (forall (A : Type) (l : list A), Inputs.in_order A l ≡ₚ l) as Hperm
    by (intros A l; reflexivity).
  assert (kg ∈ SubLogic.generate_sub_logic Inputs.in_order
                 (SubLogic.extraction_worker lower_ascii SubLogic.unavailable)
                 3 Inputs.noon (Some sections)) as Hin
    by (vm_compute; left).
  split; [exact Hperm|]. split; [exact Hin|].
  exact (proj1 (proj2 (generate_sub_logic_fragments_are_valid
                         Inputs.in_order _ 3 Inputs.noon sections kg
                         Hperm Hin))).
Defined.

(** ** Size of the rule-based fragment *)

Lemma fallback_nodes_length lower section_num paragraphs : forall node_id,
  length (SubLogic.fallback_nodes lower section_num node_id paragraphs)
  = length (List.filter (fun para => 50 <=? len para) paragraphs).
Proof.
  induction paragraphs as [|para rest IH]; intros node_id; simpl; [done|].
  destruct (Z.ltb_spec (len para) 50), (Z.leb_spec 50 (len para));
    try lia; simpl; by rewrite IH.
Qed.

Lemma exclusive_filters_length {A} (p q r : A -> bool) (l : list A) :
  (forall x, p x && q x = false) -> (forall x, p x && r x = false) ->
  (forall x, q x && r x = false) ->
  (length (List.filter p l) + length (List.filter q l)
   + length (List.filter r l) <= length l)%nat.
Proof.
  intros Hpq Hpr Hqr. induction l as [|x l IH]; simpl; [lia|].
  specialize (Hpq x). specialize (Hpr x). specialize (Hqr x).
  destruct (p x), (q x), (r x); simpl in *; try discriminate; lia.
Qed.

Lemma is_type_exclusive t1 t2 c :
  t1 <> t2 -> SubLogic.is_type t1 c && SubLogic.is_type t2 c = false.
Proof.
  intros Hne. unfold SubLogic.is_type.
  destruct (bool_decide _) eqn:E1; [|done].
  apply bool_decide_eq_true in E1. rewrite E1. simpl.
  apply bool_decide_eq_false. congruence.
Qed.

Lemma tier_filters_length (nodes : list Concept.t) :
  (length (List.filter (SubLogic.is_type (u "basic_concept")) nodes)
   + length (List.filter (SubLogic.is_type (u "core_technology")) nodes)
   + length (List.filter (SubLogic.is_type (u "circuit_application")) nodes)
   <= length nodes)%nat.
Proof.
  apply exclusive_filters_length; intros c; apply is_type_exclusive;
    by vm_compute.
Qed.

(** X14. The rule-based fragment has at most as many nodes as the section
    has retained paragraphs, hence at most ten, and none when every
    paragraph is shorter than 50 characters. Each node has a non-empty id
    that starts with the section number, a label of at most 53 characters,
    a summary of at most 303, technical details of at most 200, difficulty
    3 and no keywords. *)
Theorem rule_based_fragment_is_bounded (lower : str -> str)
  (section_num title content : str) :
  let fragment :=
    SubLogic._rule_based_extraction lower section_num title content in
  (length (analysis_nodes fragment)
   <= length (retained_paragraphs content) <= 10)%nat
  /\ (retained_paragraphs content = [] -> analysis_nodes fragment = [])
  /\ (forall c, c ∈ analysis_nodes fragment ->
        exists id label summary details,
          Concept.id c = Some id /\ Concept.label c = Some label
          /\ Concept.summary c = Some summary
          /\ Concept.technical_details c = Some details
          /\ id <> [] /\ startswith id section_num = true
          /\ len label <= 53 /\ len summary <= 303 /\ len details <= 200
          /\ Concept.difficulty c = Some 3
          /\ Concept.keywords c = Some []).
Proof.
  intros fragment.
  assert (length (analysis_nodes fragment)
          <= length (retained_paragraphs content))%nat as Hlen.
  { unfold analysis_nodes, fragment, SubLogic._rule_based_extraction,
      retained_paragraphs. simpl.
    rewrite !length_app, <- (fallback_nodes_length lower section_num _ 1).
    pose proof (tier_filters_length
                  (SubLogic.fallback_nodes lower section_num 1
                     (take 10 (SubLogic.paragraphs_of content)))).
    lia. }
  split; [|split].
  - split; [done|]. unfold retained_paragraphs.
    etrans; [apply List.filter_length_le|]. rewrite length_take. lia.
  - intros Hnone. rewrite Hnone in Hlen. simpl in Hlen.
    by destruct (analysis_nodes fragment); [|simpl in Hlen; lia].
  - intros c Hc.
    assert (exists para ordinal,
              c = SubLogic.fallback_node lower section_num ordinal para)
      as (para & k & ->).
    { unfold analysis_nodes, fragment, SubLogic._rule_based_extraction in Hc.
      simpl in Hc. rewrite !elem_of_app in Hc.
      destruct Hc as [Hc|[Hc|Hc]];
        apply list_elem_of_In, filter_In in Hc as [Hc _];
        apply list_elem_of_In, fallback_nodes_elem in Hc
          as (para & k & _ & _ & ->); by exists para, k. }
    unfold SubLogic.fallback_node. do 4 eexists.
    cbn [Concept.id Concept.label Concept.summary Concept.technical_details
         Concept.difficulty Concept.keywords].
    repeat (split; [reflexivity|]).
    split; [by destruct section_num|].
    split.
    { clear. induction section_num as [|ch rest IH]; [done|]. simpl.
      by rewrite N.eqb_refl. }
    unfold len, slice_to.
    split; [|split; [|split; [|done]]].
    + destruct (Z.ltb_spec 50 (Z.of_nat (length (hd [] (split para (u "。"))))));
        [|lia].
      rewrite length_app, length_take.
      change (length (u "...")) with 3%nat. lia.
    + destruct (Z.ltb_spec 300 (Z.of_nat (length para))); [|lia].
      rewrite length_app, length_take.
      change (length (u "...")) with 3%nat. lia.
    + rewrite length_take. lia.
Qed.

(** The statement above for a section of five characters. *)
Lemma rule_based_fragment_is_bounded_witness :
  retained_paragraphs (u "short") = []
  /\ analysis_nodes
       (SubLogic._rule_based_extraction lower_ascii (u "1") (u "T")
          (u "short")) = [].
Proof.
  assert (retained_paragraphs (u "short") = []) as Hnone by reflexivity.
  split; [exact Hnone|].
  exact (proj1 (proj2 (rule_based_fragment_is_bounded lower_ascii (u "1")
                         (u "T") (u "short"))) Hnone).
Defined.

(** ** Ids of the rule-based fragment *)

Lemma digits_go_value fuel : forall n acc,
  (N.to_nat n < fuel)%nat ->
  digits_value 0 (digits_go fuel n acc) = digits_value n acc.
Proof.
  induction fuel as [|fuel IH]; intros n acc Hfuel; [lia|].
  cbn [digits_go]. destruct (N.ltb_spec n 10) as [Hsmall|Hbig].
  - unfold digits_value. cbn [foldl]. f_equal.
    rewrite N.mod_small by done. lia.
  - rewrite IH.
    + unfold digits_value. cbn [foldl]. f_equal.
      replace (48 + n mod 10 - 48)%N with (n mod 10)%N
        by (rewrite N.add_comm; symmetry; apply N.add_sub).
      symmetry. apply N.div_mod'.
    + assert (n / 10 < n)%N as Hlt by (apply N.div_lt; lia).
      revert Hlt. generalize (n / 10)%N. intros q Hlt. lia.
Qed.

Lemma of_nat_value n : digits_value 0 (of_nat n) = N.of_nat n.
Proof.
  unfold of_nat. rewrite digits_go_value by lia. done.
Qed.

Lemma of_nat_inj n m : of_nat n = of_nat m -> n = m.
Proof.
  intros Heq. apply (f_equal (digits_value 0)) in Heq.
  rewrite !of_nat_value in Heq. lia.
Qed.

Lemma digits_go_digits fuel : forall n acc,
  Forall (fun d => (48 <= d <= 57)%N) acc ->
  Forall (fun d => (48 <= d <= 57)%N) (digits_go fuel n acc).
Proof.
  induction fuel as [|fuel IH]; intros n acc Hacc; [done|].
  cbn [digits_go].
  assert (Forall (fun d => (48 <= d <= 57)%N) ((48 + n mod 10)%N :: acc))
    as Hacc'.
  { constructor; [|done].
    pose proof (N.mod_upper_bound n 10 ltac:(lia)) as Hr.
    revert Hr. generalize (n mod 10)%N. intros r Hr. lia. }
  destruct (n <? 10)%N; [done | by apply IH].
Qed.

Lemma of_nat_no_underscore n : 95%N ∉ of_nat n.
Proof.
  intros Hin. unfold of_nat in Hin.
  pose proof (digits_go_digits (S n) (N.of_nat n) [] ltac:(constructor))
    as Hall.
  rewrite Forall_forall in Hall. apply Hall in Hin. lia.
Qed.

(** What follows the last separator of a string is determined by it. *)
Lemma after_last_separator (c : N) (x : str) : forall y d1 d2,
  c ∉ d1 -> c ∉ d2 -> x ++ c :: d1 = y ++ c :: d2 -> d1 = d2.
Proof.
  induction x as [|a x IH]; intros [|b y] d1 d2 H1 H2 Heq; simpl in Heq.
  - by injection Heq.
  - injection Heq as -> ->. exfalso. apply H1. set_solver.
  - injection Heq as -> <-. exfalso. apply H2. set_solver.
  - injection Heq as -> Heq. by eapply IH.
Qed.

Lemma fallback_id_inj lower section_num k1 k2 para1 para2 :
  Concept.id (SubLogic.fallback_node lower section_num k1 para1)
  = Concept.id (SubLogic.fallback_node lower section_num k2 para2) ->
  k1 = k2.
Proof.
  unfold SubLogic.fallback_node. cbn [Concept.id]. intros [= Heq].
  apply app_inv_head in Heq. change (u "_") with [95%N] in Heq.
  simpl in Heq. injection Heq as Heq.
  apply of_nat_inj.
  eapply (after_last_separator 95%N); [| |exact Heq];
    apply of_nat_no_underscore.
Qed.

Lemma fallback_nodes_ordinals lower section_num paragraphs :
  forall node_id c,
  c ∈ SubLogic.fallback_nodes lower section_num node_id paragraphs ->
  exists para ordinal,
    (node_id <= ordinal
     < node_id + length (List.filter (fun para => (50 <=? len para)%Z)
                                     paragraphs))%nat
    /\ c = SubLogic.fallback_node lower section_num ordinal para.
Proof.
  induction paragraphs as [|p rest IH]; simpl; intros node_id c Hc.
  - inversion Hc.
  - destruct (Z.ltb_spec (len p) 50), (Z.leb_spec 50 (len p)); try lia.
    + by apply IH.
    + apply elem_of_cons in Hc as [->|Hc].
      * exists p, node_id. simpl. split; [lia|done].
      * destruct (IH _ _ Hc) as (para & k & Hk & ->).
        exists para, k. simpl. split; [lia|done].
Qed.

Lemma fallback_nodes_NoDup lower section_num paragraphs : forall node_id,
  NoDup (map Concept.id
           (SubLogic.fallback_nodes lower section_num node_id paragraphs)).
Proof.
  induction paragraphs as [|p rest IH]; simpl; intros node_id.
  - constructor.
  - destruct (len p <? 50); [apply IH|]. simpl.
    constructor; [|apply IH].
    intros (c & Hid & Hc)%list_elem_of_fmap.
    apply fallback_nodes_ordinals in Hc as (para & k & Hk & ->).
    apply fallback_id_inj in Hid. lia.
Qed.

Lemma exclusive_filters_perm {A} (p q r : A -> bool) (l : list A) :
  (forall x, p x && q x = false) -> (forall x, p x && r x = false) ->
  (forall x, q x && r x = false) ->
  List.filter p l ++ List.filter q l ++ List.filter r l
  ≡ₚ List.filter (fun x => p x || q x || r x) l.
Proof.
  intros Hpq Hpr Hqr. induction l as [|x l IH]; simpl; [done|].
  specialize (Hpq x). specialize (Hpr x). specialize (Hqr x).
  destruct (p x), (q x), (r x); simpl in *; try discriminate.
  - by apply Permutation_cons.
  - rewrite <- Permutation_middle. by apply Permutation_cons.
  - rewrite app_assoc, <- Permutation_middle, <- app_assoc.
    by apply Permutation_cons.
  - done.
Qed.

Lemma filter_sublist {A} (p : A -> bool) (l : list A) :
  sublist (List.filter p l) l.
Proof.
  induction l as [|x l IH]; simpl; [constructor|].
  destruct (p x); [by apply sublist_skip | by apply sublist_cons].
Qed.

Lemma exclusive_filters_NoDup {A B} (f : A -> B) (p q r : A -> bool)
  (l : list A) :
  (forall x, p x && q x = false) -> (forall x, p x && r x = false) ->
  (forall x, q x && r x = false) ->
  NoDup (map f l) ->
  NoDup (map f (List.filter p l ++ List.filter q l ++ List.filter r l)).
Proof.
  intros Hpq Hpr Hqr Hnd.
  rewrite (exclusive_filters_perm p q r l Hpq Hpr Hqr).
  eapply sublist_NoDup; [exact Hnd|].
  apply fmap_sublist, filter_sublist.
Qed.

(** X15. The nodes of a rule-based fragment have pairwise distinct ids.
    Each id is the section number, the node type and an ordinal joined by
    underscores; the ordinals count the retained paragraphs from 1, so they
    lie between 1 and 10. *)
Theorem fallback_ids_are_distinct (lower : str -> str)
  (clock : Section.t -> str) (section : Section.t) :
  let kg := Pipeline.fallback_kg lower clock section in
  NoDup (map KGNode.id (KG.nodes kg))
  /\ (forall node, node ∈ KG.nodes kg ->
        exists ordinal,
          (1 <= ordinal <= 10)%nat
          /\ KGNode.node_type node ∈ tiers
          /\ KGNode.id node
             = Section.section_num section ++ u "_" ++ KGNode.node_type node
               ++ u "_" ++ of_nat ordinal).
Proof.
  intros kg. subst kg.
  unfold Pipeline.fallback_kg, SubLogic.build_kg,
    SubLogic._rule_based_extraction.
  cbn [KG.nodes Analysis.basic_concepts Analysis.core_technologies
       Analysis.circuit_applications default].
  set (nodes := SubLogic.fallback_nodes lower (Section.section_num section) 1
                  (take 10 (SubLogic.paragraphs_of (Section.content section)))).
  assert (forall t d b (l : list Concept.t),
            map KGNode.id (map (SubLogic.build_node t d b) l)
            = map (fun c => (Concept.id c).get []) l) as Hids.
  { intros t d b l. rewrite map_map. done. }
  split.
  - rewrite !map_app, !Hids, <- !map_app.
    apply exclusive_filters_NoDup;
      try (intros c; apply is_type_exclusive; by vm_compute).
    pose proof (fallback_nodes_NoDup lower (Section.section_num section)
                  (take 10 (SubLogic.paragraphs_of (Section.content section)))
                  1) as Hnd.
    fold nodes in Hnd.
    match goal with
    | |- NoDup ?l =>
        assert (l = map (fun o : option str => o.get []) (map Concept.id nodes))
          as -> by (symmetry; apply map_map)
    end.
    apply (NoDup_fmap_2_strong (fun o : option str => o.get []));
      [|exact Hnd].
    intros o1 o2 (c1 & -> & H1)%list_elem_of_fmap
      (c2 & -> & H2)%list_elem_of_fmap.
    apply fallback_nodes_ordinals in H1 as (p1 & k1 & _ & ->).
    apply fallback_nodes_ordinals in H2 as (p2 & k2 & _ & ->).
    simpl. by intros ->.
  - intros node Hnode. rewrite !elem_of_app, !list_elem_of_fmap in Hnode.
    assert (exists t d b c,
              node = SubLogic.build_node t d b c /\ c ∈ nodes
              /\ Concept.node_type c = Some t /\ t ∈ tiers)
      as (t & d & b & c & -> & Hc & Ht & Htier).
    { unfold Datatypes.id in Hnode.
      destruct Hnode as [H|[H|H]]; destruct H as (c & -> & Hc);
        apply list_elem_of_In, filter_In in Hc as [Hc Ht];
        apply list_elem_of_In in Hc;
        apply bool_decide_eq_true in Ht;
        do 4 eexists; (split; [reflexivity|]); (split; [exact Hc|]);
        (split; [exact Ht|]); unfold tiers; rewrite !elem_of_cons; tauto. }
    subst nodes.
    apply fallback_nodes_ordinals in Hc as (para & k & Hk & ->).
    exists k. split.
    + pose proof (List.filter_length_le
                    (fun para => 50 <=? len para)
                    (take 10 (SubLogic.paragraphs_of
                                (Section.content section)))) as Hle.
      rewrite length_take in Hle. lia.
    + split; [done|]. simpl in Ht. injection Ht as Ht.
      cbn [SubLogic.build_node KGNode.id KGNode.node_type
           SubLogic.fallback_node Concept.id default].
      by rewrite Ht.
Qed.

(** ** Validation of the connections *)

Lemma number_lt_not_below (x : number) (threshold : Q) :
  number_lt x threshold = false <-> not_below threshold x.
Proof.
  destruct x as [q| | |]; simpl; [|done..|split; [discriminate|done]].
  by rewrite negb_false_iff, Qle_bool_iff.
Qed.

Lemma is_valid_connection_spec conn :
  _is_valid_connection conn = true <-> sound_connection conn.
Proof.
  unfold _is_valid_connection, sound_connection.
  destruct conn as [[[]|] [[|c1 id1]|] [[|c2 id2]|] ty [s|] de ev]; simpl;
    try (split; [discriminate|]);
    try (intros (? & (? & ? & ?) & (? & ? & ?) & (? & ? & ?)); congruence).
  destruct (number_lt s strength_threshold) eqn:Hs.
  - split; [discriminate|].
    intros (_ & _ & _ & (s' & Heq & Hnb)). injection Heq as <-.
    apply number_lt_not_below in Hnb. congruence.
  - split; [intros _|done]. apply number_lt_not_below in Hs.
    repeat split; eauto.
Qed.

(** The threshold is the binary64 number that the literal [0.3] denotes:
    its mantissa and exponent are those of the primitive float. *)
Example strength_threshold_in_binary64 :
  Prim2SF 0x1.3333333333333p-2%float = S754_finite false 5404319552844595 (-54)
  /\ strength_threshold = 5404319552844595 # (2 ^ 54).
Proof. split; reflexivity. Qed.

Lemma elem_of_validate_connections connections conn :
  conn ∈ _validate_connections connections
  <-> conn ∈ connections /\ sound_connection conn.
Proof.
  unfold _validate_connections.
  rewrite list_elem_of_In, filter_In, <- list_elem_of_In.
  by rewrite is_valid_connection_spec.
Qed.

Lemma filter_all {A} (p : A -> bool) l :
  (forall x, x ∈ l -> p x = true) -> List.filter p l = l.
Proof.
  induction l as [|x l IH]; intros Hall; simpl; [done|].
  rewrite (Hall x) by left. f_equal. apply IH. intros y Hy. apply Hall.
  by right.
Qed.

Lemma fuse_graphs_inter_section now1 now2 main_logic_kg sub_logic_kgs conns :
  List.filter (fun e => bool_decide (UEdge.edge_type e = u "inter_section"))
    (UnifiedKG.edges
       (_fuse_graphs now1 now2 main_logic_kg sub_logic_kgs conns))
  = map unify_connection (List.filter confirmed conns).
Proof.
  destruct (fuse_graphs_edges now1 now2 main_logic_kg sub_logic_kgs conns)
    as [-> _].
  fold confirmed. rewrite !List.filter_app.
  assert (forall l : list UEdge.t,
            (forall e, e ∈ l -> UEdge.edge_type e <> u "inter_section") ->
            List.filter
              (fun e => bool_decide (UEdge.edge_type e = u "inter_section"))
              l = []) as Hnone.
  { intros l Hl. induction l as [|e l IH]; simpl; [done|].
    rewrite bool_decide_eq_false_2 by (apply Hl; left).
    apply IH. intros e' He'. apply Hl. by right. }
  rewrite (Hnone (map unify_main_edge _)), (Hnone (flat_map _ _)),
    (Hnone (flat_map _ _)), (Hnone (_build_circuit_application_connections _)).
  - simpl. apply filter_all.
    intros e (conn & -> & _)%list_elem_of_fmap. by vm_compute.
  - intros e He. apply application_connections_keyworded in He as [_ He].
    rewrite He. by vm_compute.
  - intros e (kg & _ & He%list_elem_of_In)%list_elem_of_In%in_flat_map.
    apply list_elem_of_fmap in He as (se & -> & _). by vm_compute.
  - intros e (kg & _ & He%list_elem_of_In)%list_elem_of_In%in_flat_map.
    apply section_edges_kind in He as [-> | ->]; by vm_compute.
  - intros e (me & -> & _)%list_elem_of_fmap. by vm_compute.
Qed.

(** X16. [_validate_connections] keeps, in order, the connections that are
    confirmed, name both ends and state a strength that Python does not
    find smaller than 0.3: a finite strength of at least 0.3, [Infinity],
    or [NaN], which [json.loads] accepts and no comparison finds smaller
    than anything. A connection without strength, or of strength
    [-Infinity], is dropped, and validating twice changes nothing. Fused
    with validated connections, the graph has exactly one [inter_section]
    edge for each of them, none of whose source, target or weight is a
    default of the fuser; the weight of the edge is the strength, [NaN]
    included. *)
Theorem validated_connections_feed_the_fuser (connections : list Conn.t)
  (now1 now2 : str) (main_logic_kg : MainKG.t)
  (sub_logic_kgs : list SubKG.t) :
  let validated := _validate_connections connections in
  let fused :=
    _fuse_graphs now1 now2 main_logic_kg sub_logic_kgs validated in
  sublist validated connections
  /\ (forall conn, conn ∈ validated
                   <-> conn ∈ connections /\ sound_connection conn)
  /\ (forall conn, Conn.connection_strength conn = None ->
                   conn ∉ validated)
  /\ (forall conn, Conn.connection_strength conn = Some NegInfinity ->
                   conn ∉ validated)
  /\ (forall conn strength,
        Conn.connection_strength conn = Some (Num strength) ->
        conn ∈ validated -> (strength_threshold <= strength)%Q)
  /\ (_validate_connections [Inputs.nan_connection]
      = [Inputs.nan_connection]
      /\ UEdge.weight (unify_connection Inputs.nan_connection) = NaN)
  /\ _validate_connections validated = validated
  /\ List.filter (fun e => bool_decide (UEdge.edge_type e = u "inter_section"))
                 (UnifiedKG.edges fused)
     = map unify_connection validated
  /\ Statistics.cross_section_edges (UnifiedKG.statistics fused)
     = Z.of_nat (length validated)
  /\ (forall conn, conn ∈ validated ->
        Conn.source_id conn = Some (UEdge.source_id (unify_connection conn))
        /\ Conn.target_id conn
           = Some (UEdge.target_id (unify_connection conn))
        /\ Conn.connection_strength conn
           = Some (UEdge.weight (unify_connection conn))
        /\ UEdge.source_id (unify_connection conn) <> []
        /\ UEdge.target_id (unify_connection conn) <> []
        /\ not_below strength_threshold
             (UEdge.weight (unify_connection conn))).
Proof.
  intros validated fused.
  assert (List.filter confirmed validated = validated) as Hconfirmed.
  { apply filter_all. intros conn [_ (Hc & _)]%elem_of_validate_connections.
    unfold confirmed. by rewrite Hc. }
  assert (List.filter
            (fun e => bool_decide (UEdge.edge_type e = u "inter_section"))
            (UnifiedKG.edges fused)
          = map unify_connection validated) as Hinter.
  { subst fused. by rewrite fuse_graphs_inter_section, Hconfirmed. }
  split; [apply filter_sublist|].
  split; [apply elem_of_validate_connections|].
  split.
  { intros conn Hnone
      [_ (_ & _ & _ & (s & Hs & _))]%elem_of_validate_connections.
    congruence. }
  split.
  { intros conn Hneg
      [_ (_ & _ & _ & (s & Hs & Hnb))]%elem_of_validate_connections.
    rewrite Hneg in Hs. injection Hs as <-. exact Hnb. }
  split.
  { intros conn strength Hstrength
      [_ (_ & _ & _ & (s & Hs & Hnb))]%elem_of_validate_connections.
    rewrite Hstrength in Hs. injection Hs as <-. exact Hnb. }
  split; [split; reflexivity|].
  split.
  { apply filter_all. intros conn Hc. apply is_valid_connection_spec.
    by apply elem_of_validate_connections in Hc as [_ Hc]. }
  split; [exact Hinter|].
  split.
  { destruct (fuse_graphs_statistics now1 now2 main_logic_kg sub_logic_kgs
                validated) as (_ & _ & Hstat).
    fold fused in Hstat. rewrite Hstat. unfold count.
    by rewrite Hinter, length_map. }
  intros conn [_ (_ & (sid & Hs & Hsne) & (tid & Ht & Htne)
                    & (w & Hw & Hnb))]%elem_of_validate_connections.
  unfold unify_connection. simpl. rewrite Hs, Ht, Hw. simpl.
  repeat split; done.
Qed.

(** ** Distribution of the connection types *)

Lemma total_insert (type_counts : gmap str Z) conn_type n :
  total (<[conn_type := n]> type_counts)
  = total type_counts - (type_counts !! conn_type).get 0 + n.
Proof.
  unfold total.
  assert (forall (m : gmap str Z) (j1 j2 : str) (z1 z2 y : Z),
            j1 <> j2 -> m !! j1 = Some z1 -> m !! j2 = Some z2 ->
            z1 + (z2 + y) = z2 + (z1 + y)) as Hcomm by (intros; lia).
  destruct (type_counts !! conn_type) as [old|] eqn:Hold; simpl.
  - rewrite <- (insert_delete_eq type_counts).
    rewrite (map_fold_insert_L _ _ _ _ _ (Hcomm _))
      by apply lookup_delete_eq.
    rewrite (map_fold_delete_L _ 0 conn_type old type_counts (Hcomm _) Hold).
    lia.
  - rewrite (map_fold_insert_L _ _ _ _ _ (Hcomm _) Hold). lia.
Qed.

Lemma of_type_snoc conn_type connections conn :
  of_type conn_type (connections ++ [conn])
  = of_type conn_type connections
    + (if bool_decide ((Conn.connection_type conn).get (u "unknown")
                       = conn_type) then 1 else 0).
Proof.
  unfold of_type. rewrite List.filter_app, length_app. simpl.
  case_bool_decide; simpl; lia.
Qed.

Lemma of_type_nonneg conn_type connections :
  0 <= of_type conn_type connections.
Proof. unfold of_type. lia. Qed.

Lemma analyze_connection_types_lookup connections conn_type :
  _analyze_connection_types connections !! conn_type
  = if of_type conn_type connections =? 0 then None
    else Some (of_type conn_type connections).
Proof.
  unfold _analyze_connection_types.
  induction connections as [|conn connections IH] using rev_ind.
  - done.
  - rewrite foldl_snoc, of_type_snoc. cbv zeta.
    pose proof (of_type_nonneg conn_type connections) as Hnn.
    case_bool_decide as Hty.
    + rewrite Hty, lookup_insert_eq, IH.
      destruct (of_type conn_type connections =? 0) eqn:Hz.
      * apply Z.eqb_eq in Hz. rewrite Hz. reflexivity.
      * apply Z.eqb_neq in Hz. simpl.
        destruct (of_type conn_type connections + 1 =? 0) eqn:Hz';
          [apply Z.eqb_eq in Hz'; lia|done].
    + rewrite lookup_insert_ne by done. rewrite IH. by rewrite Z.add_0_r.
Qed.

(** X17. The dictionary of [_analyze_connection_types] holds, for each type,
    the number of connections of that type, a connection without type
    counting as [unknown]; a type has an entry exactly when some connection
    has it, no entry is below 1, and the entries add up to the number of
    connections. *)
Theorem connection_types_are_counted (connections : list Conn.t) :
  let type_counts := _analyze_connection_types connections in
  (forall conn_type,
     (type_counts !! conn_type).get 0 = of_type conn_type connections)
  /\ (forall conn_type,
        is_Some (type_counts !! conn_type)
        <-> exists conn,
              conn ∈ connections
              /\ (Conn.connection_type conn).get (u "unknown") = conn_type)
  /\ (forall conn_type n, type_counts !! conn_type = Some n -> 1 <= n)
  /\ total type_counts = Z.of_nat (length connections).
Proof.
  intros type_counts. subst type_counts.
  split; [|split; [intros conn_type; split|split]].
  - intros conn_type. rewrite analyze_connection_types_lookup.
    destruct (of_type conn_type connections =? 0) eqn:Hz; [|done].
    apply Z.eqb_eq in Hz. by rewrite Hz.
  - rewrite analyze_connection_types_lookup.
    destruct (of_type conn_type connections =? 0) eqn:Hz;
      [by intros [? ?]|intros _].
    apply Z.eqb_neq in Hz. unfold of_type in Hz.
    destruct (List.filter _ connections) as [|conn rest] eqn:Hf; [done|].
    assert (In conn (List.filter
                       (fun conn => bool_decide
                          ((Conn.connection_type conn).get (u "unknown")
                           = conn_type)) connections)) as Hin
      by (rewrite Hf; by left).
    apply filter_In in Hin as [Hin Hty]. apply bool_decide_eq_true in Hty.
    exists conn. by rewrite list_elem_of_In.
  - intros (conn & Hin & Hty). rewrite analyze_connection_types_lookup.
    destruct (of_type conn_type connections =? 0) eqn:Hz; [|by eexists].
    apply Z.eqb_eq in Hz. unfold of_type in Hz.
    assert (In conn (List.filter
                       (fun conn => bool_decide
                          ((Conn.connection_type conn).get (u "unknown")
                           = conn_type)) connections)) as Hf.
    { apply filter_In. split; [by apply list_elem_of_In|].
      by apply bool_decide_eq_true. }
    destruct (List.filter _ connections); [done|simpl in Hz; lia].
  - intros conn_type n. rewrite analyze_connection_types_lookup.
    pose proof (of_type_nonneg conn_type connections).
    destruct (of_type conn_type connections =? 0) eqn:Hz; [done|].
    apply Z.eqb_neq in Hz. intros [= <-]. lia.
  - unfold _analyze_connection_types.
    induction connections as [|conn connections IH] using rev_ind.
    + done.
    + rewrite foldl_snoc. cbv zeta. rewrite total_insert, IH, length_app.
      simpl. lia.
Qed.

(** ** From the fragments to the cross-section edges *)

Lemma foldl_collect_pair_results futures : forall results failed,
  fst (foldl collect_pair (results, failed) futures)
  = results ++ omap found futures.
Proof.
  induction futures as [|[[app1 app2] [e|[c|]]] futures IH];
    intros results failed; simpl.
  - by rewrite app_nil_r.
  - apply IH.
  - rewrite IH. by rewrite <- app_assoc.
  - apply IH.
Qed.

Lemma omap_found_returned call max_retries node_pairs :
  omap found
       (map (fun pair : node_pair =>
               (pair, Return (E := exn)
                        (analyze_single_pair call max_retries pair)))
            node_pairs)
  = omap (analyze_single_pair call max_retries) node_pairs.
Proof.
  induction node_pairs as [|[app1 app2] node_pairs IH]; [done|].
  cbn [map omap list_omap]. rewrite IH. unfold found at 1.
  by destruct (analyze_single_pair call max_retries (app1, app2)).
Qed.

Lemma analyze_concurrent_results
  (as_completed : forall A : Type, list A -> list A) call max_retries
  node_pairs :
  (forall (A : Type) (l : list A), as_completed A l ≡ₚ l) ->
  fst (_analyze_concurrent as_completed call max_retries node_pairs)
  ≡ₚ omap (analyze_single_pair call max_retries) node_pairs.
Proof.
  intros Hperm. unfold _analyze_concurrent.
  rewrite foldl_collect_pair_results. simpl.
  rewrite Hperm. by rewrite omap_found_returned.
Qed.

Lemma analyze_attempts_connection_call service app1 app2 conn :
  forall rem calls,
  fst (analyze_attempts (connection_call service) (app1, app2) rem calls)
  = Some conn ->
  Conn.source_id conn = Some (AppNode.id app1)
  /\ Conn.target_id conn = Some (AppNode.id app2).
Proof.
  intros [|rem] calls; simpl; [discriminate|].
  destruct (service (app1, app2) calls) as [|[[[]|] s t ty w de ev]]; simpl;
    try discriminate.
  by intros [= <-].
Qed.

Lemma elem_of_extract_circuit_applications sub_logic_data app :
  app ∈ _extract_circuit_applications sub_logic_data ->
  exists kg node,
    kg ∈ sub_logic_data /\ node ∈ (LoadedKG.nodes kg).get []
    /\ SubNode.node_type node = Some (u "circuit_application")
    /\ AppNode.id app = (SubNode.id node).get []
    /\ AppNode.section_num app = (LoadedKG.section_num kg).get [].
Proof.
  unfold _extract_circuit_applications.
  intros (kg & Hkg & Happ)%list_elem_of_In%in_flat_map.
  apply in_map_iff in Happ as (node & <- & Hnode).
  apply filter_In in Hnode as [Hnode Hty].
  apply bool_decide_eq_true in Hty.
  exists kg, node. by rewrite !list_elem_of_In.
Qed.

Lemma generate_node_pairs_subset sample circuit_apps pair :
  (forall population k,
     (k <= length population)%nat ->
     is_sample population k (sample population k)) ->
  pair ∈ _generate_node_pairs sample circuit_apps ->
  pair ∈ cross_section_pairs circuit_apps.
Proof.
  intros Hsample. unfold _generate_node_pairs.
  destruct (Z.ltb_spec 1000
              (Z.of_nat (length (cross_section_pairs circuit_apps))))
    as [Hmany|Hfew]; [|done].
  apply (is_sample_elem_of _ _ 1000%nat). apply Hsample. lia.
Qed.

Lemma analyze_connections_unfold
  (as_completed : forall A : Type, list A -> list A) sample call
  sub_logic_data :
  (forall (A : Type) (l : list A), as_completed A l ≡ₚ l) ->
  analyze_connections as_completed sample call sub_logic_data
  = _validate_connections
      (fst (_analyze_concurrent as_completed call max_retries
              (_generate_node_pairs sample
                 (_extract_circuit_applications sub_logic_data)))).
Proof.
  intros Hperm.
  assert (_validate_connections
            (fst (_analyze_concurrent as_completed call max_retries []))
          = []) as Hnil.
  { unfold _analyze_concurrent. simpl.
    by rewrite (proj1 (Permutation_nil_r _) (Hperm _ [])). }
  unfold analyze_connections.
  destruct sub_logic_data as [|kg data]; [symmetry; exact Hnil|].
  destruct (_extract_circuit_applications (kg :: data)) as [|app apps];
    [symmetry; exact Hnil|].
  destruct (_generate_node_pairs sample (app :: apps));
    [symmetry; exact Hnil|done].
Qed.

(** X18. The connections that [analyze_connections] returns, when each
    request is answered by the service, are validated connections between
    two circuit applications of the fragments that lie in different
    sections: source and target are the ids of those nodes, whatever ends
    the service named. Fused with the same fragments, every
    [inter_section] edge of the optimized graph therefore has a surviving
    node at each end. *)
Theorem analyzer_connections_are_anchored
  (as_completed : forall A : Type, list A -> list A)
  (sample : list node_pair -> nat -> list node_pair)
  (service : node_pair -> nat -> reply) (now1 now2 : str)
  (main_logic_kg : MainKG.t) (kgs : list KG.t) :
  (forall (A : Type) (l : list A), as_completed A l ≡ₚ l) ->
  (forall population k,
     (k <= length population)%nat ->
     is_sample population k (sample population k)) ->
  let connections :=
    analyze_connections as_completed sample (connection_call service)
      (map Pipeline.to_loaded_kg kgs) in
  let optimized :=
    _optimize_unified_kg
      (_fuse_graphs now1 now2 main_logic_kg (map Pipeline.to_sub_kg kgs)
         connections) in
  (forall conn, conn ∈ connections ->
     sound_connection conn
     /\ exists kg1 kg2 node1 node2,
          kg1 ∈ kgs /\ kg2 ∈ kgs
          /\ node1 ∈ KG.nodes kg1 /\ node2 ∈ KG.nodes kg2
          /\ KGNode.node_type node1 = u "circuit_application"
          /\ KGNode.node_type node2 = u "circuit_application"
          /\ KG.section_num kg1 <> KG.section_num kg2
          /\ Conn.source_id conn = Some (KGNode.id node1)
          /\ Conn.target_id conn = Some (KGNode.id node2))
  /\ (forall edge, edge ∈ UnifiedKG.edges optimized ->
        UEdge.edge_type edge = u "inter_section" ->
        anchored (UnifiedKG.nodes optimized) edge).
Proof.
  intros Hperm Hsample connections optimized.
  assert (forall app,
            app ∈ _extract_circuit_applications
                    (map Pipeline.to_loaded_kg kgs) ->
            exists kg node,
              kg ∈ kgs /\ node ∈ KG.nodes kg
              /\ KGNode.node_type node = u "circuit_application"
              /\ AppNode.id app = KGNode.id node
              /\ AppNode.section_num app = KG.section_num kg) as Happs.
  { intros app (lkg & snode & Hlkg & Hsnode & Hty & Hid & Hsec)
      %elem_of_extract_circuit_applications.
    apply list_elem_of_fmap in Hlkg as (kg & -> & Hkg).
    simpl in Hsnode, Hsec.
    apply list_elem_of_fmap in Hsnode as (node & -> & Hnode).
    simpl in Hty, Hid. exists kg, node. repeat split; try done.
    by injection Hty. }
  assert (forall conn, conn ∈ connections ->
            sound_connection conn
            /\ exists kg1 kg2 node1 node2,
                 kg1 ∈ kgs /\ kg2 ∈ kgs
                 /\ node1 ∈ KG.nodes kg1 /\ node2 ∈ KG.nodes kg2
                 /\ KGNode.node_type node1 = u "circuit_application"
                 /\ KGNode.node_type node2 = u "circuit_application"
                 /\ KG.section_num kg1 <> KG.section_num kg2
                 /\ Conn.source_id conn = Some (KGNode.id node1)
                 /\ Conn.target_id conn = Some (KGNode.id node2)) as Hconn.
  { intros conn Hin. subst connections.
    rewrite analyze_connections_unfold in Hin by done.
    apply elem_of_validate_connections in Hin as [Hin Hsound].
    split; [done|].
    rewrite analyze_concurrent_results in Hin by done.
    apply list_elem_of_omap in Hin as ([app1 app2] & Hpair & Hfound).
    apply (generate_node_pairs_subset _ _ _ Hsample) in Hpair.
    apply elem_of_cross_section_pairs in Hpair
      as (i & j & _ & Hi & Hj & Hne).
    apply list_elem_of_lookup_2, Happs in Hi
      as (kg1 & node1 & Hkg1 & Hnode1 & Hty1 & Hid1 & Hsec1).
    apply list_elem_of_lookup_2, Happs in Hj
      as (kg2 & node2 & Hkg2 & Hnode2 & Hty2 & Hid2 & Hsec2).
    apply analyze_attempts_connection_call in Hfound as [Hs Ht].
    exists kg1, kg2, node1, node2. repeat split; try done; congruence. }
  split; [exact Hconn|].
  intros edge Hedge Hkind. subst optimized.
  unfold _optimize_unified_kg in *. simpl in *.
  apply dedup_by_elem_of in Hedge as [Hedge _].
  assert (edge ∈ List.filter
                   (fun e => bool_decide
                               (UEdge.edge_type e = u "inter_section"))
                   (UnifiedKG.edges
                      (_fuse_graphs now1 now2 main_logic_kg
                         (map Pipeline.to_sub_kg kgs) connections)))
    as Hinter.
  { apply list_elem_of_In, filter_In. split; [by apply list_elem_of_In|].
    by apply bool_decide_eq_true. }
  rewrite fuse_graphs_inter_section in Hinter.
  apply list_elem_of_fmap in Hinter as (conn & -> & Hin).
  apply list_elem_of_In, filter_In in Hin as [Hin%list_elem_of_In _].
  destruct (Hconn conn Hin)
    as (_ & kg1 & kg2 & node1 & node2 & Hkg1 & Hkg2 & Hnode1 & Hnode2
        & _ & _ & _ & Hs & Ht).
  assert (forall (kg : KG.t) (node : KGNode.t),
            kg ∈ kgs -> node ∈ KG.nodes kg ->
            exists survivor,
              survivor ∈ dedup_by UNode.id ∅
                           (UnifiedKG.nodes
                              (_fuse_graphs now1 now2 main_logic_kg
                                 (map Pipeline.to_sub_kg kgs) connections))
              /\ UNode.id survivor = KGNode.id node) as Hsurvive.
  { intros kg node Hkg Hnode.
    destruct (dedup_by_keeps_key UNode.id ∅
                (UnifiedKG.nodes
                   (_fuse_graphs now1 now2 main_logic_kg
                      (map Pipeline.to_sub_kg kgs) connections))
                (unify_sub_node (KG.section_num kg)
                   (Pipeline.to_sub_node node)))
      as (survivor & Hsurv & Hid); [|set_solver|by exists survivor].
    rewrite fuse_graphs_nodes. apply elem_of_app. right.
    apply list_elem_of_In, in_flat_map.
    exists (Pipeline.to_sub_kg kg). split.
    - apply list_elem_of_In, list_elem_of_fmap. by exists kg.
    - apply list_elem_of_In. unfold section_unified_nodes. simpl.
      apply list_elem_of_fmap. eexists. split; [reflexivity|].
      apply list_elem_of_fmap. by exists node. }
  unfold anchored, unify_connection. simpl. rewrite Hs, Ht. simpl.
  split; [exact (Hsurvive kg1 node1 Hkg1 Hnode1)
         |exact (Hsurvive kg2 node2 Hkg2 Hnode2)].
Qed.

(** The statement above for two fragments with one application each, and
    a service that finds a connection for every pair. *)
Lemma analyzer_connections_are_anchored_witness :
  let kgs := [Inputs.app_kg "1" "ca_1_1"; Inputs.app_kg "2" "ca_2_1"] in
  let connections :=
    analyze_connections Inputs.in_order Inputs.first_k
      (connection_call Inputs.affirmative)
      (map Pipeline.to_loaded_kg kgs) in
  (forall (A : Type) (l : list A), Inputs.in_order A l ≡ₚ l)
  /\ (forall (population : list node_pair) k,
        (k <= length population)%nat ->
        is_sample population k (Inputs.first_k population k))
  /\ map Conn.source_id connections = [Some (u "ca_1_1")]
  /\ map Conn.target_id connections = [Some (u "ca_2_1")]
  /\ forall edge,
       edge ∈ UnifiedKG.edges
                (_optimize_unified_kg
                   (_fuse_graphs [] [] Inputs.main_only
                      (map Pipeline.to_sub_kg kgs) connections)) ->
       UEdge.edge_type edge = u "inter_section" ->
       anchored (UnifiedKG.nodes
                   (_optimize_unified_kg
                      (_fuse_graphs [] [] Inputs.main_only
                         (map Pipeline.to_sub_kg kgs) connections)))
                edge.
Proof.
  intros kgs connections.
  assert (forall (A : Type) (l : list A), Inputs.in_order A l ≡ₚ l) as Hperm
    by (intros A l; reflexivity).
  split; [exact Hperm|].
  split; [intros population k; apply first_k_is_sample|].
  split; [by vm_compute|]. split; [by vm_compute|].
  exact (proj2 (analyzer_connections_are_anchored Inputs.in_order
                  Inputs.first_k Inputs.affirmative [] [] Inputs.main_only
                  kgs Hperm
                  (fun population k => first_k_is_sample population k))).
Defined.

(** ** Cleaning a reply of the service *)

Import Reply.

Lemma u_fence_json : u "```json" = [96; 96; 96; 106; 115; 111; 110]%N.
Proof. reflexivity. Qed.

Lemma u_fence : u "```" = [96; 96; 96]%N.
Proof. reflexivity. Qed.

Lemma brace_not_in_fence_json : 123%N ∉ u "```json".
Proof.
  rewrite u_fence_json.
  repeat (apply not_elem_of_cons; split; [discriminate|]).
  apply not_elem_of_nil.
Qed.

Lemma brace_not_in_fence : 123%N ∉ u "```".
Proof.
  rewrite u_fence.
  repeat (apply not_elem_of_cons; split; [discriminate|]).
  apply not_elem_of_nil.
Qed.

Lemma elem_of_rev {A} (x : A) l : x ∈ rev l <-> x ∈ l.
Proof. rewrite !list_elem_of_In. symmetry. apply in_rev. Qed.

Lemma rev_lookup_Some {A} (l : list A) i x :
  rev l !! i = Some x <-> l !! (length l - S i)%nat = Some x /\ (i < length l)%nat.
Proof.
  rewrite rev_alt. change (rev_append l []) with (reverse l).
  apply reverse_lookup_Some.
Qed.

Lemma startswith_length_before (c : N) p : forall a t,
  c ∉ p -> startswith (a ++ c :: t) p = true -> (length p <= length a)%nat.
Proof.
  induction p as [|x p IH]; intros a t Hp Hs; simpl; [lia|].
  apply not_elem_of_cons in Hp as [Hx Hp].
  destruct a as [|y a]; simpl in Hs.
  - apply andb_true_iff in Hs as [Hs _]. apply N.eqb_eq in Hs. congruence.
  - apply andb_true_iff in Hs as [_ Hs]. apply IH in Hs; [simpl; lia|done].
Qed.

Lemma startswith_other_head c s x p :
  c <> x -> startswith (c :: s) (x :: p) = false.
Proof.
  intros Hne. simpl. apply andb_false_iff. left. apply N.eqb_neq. congruence.
Qed.

Lemma sub_json_fence_before_brace pre : forall skip space t,
  123%N ∉ pre -> (skip <= length pre)%nat ->
  exists pre',
    (forall x, x ∈ pre' -> x ∈ pre)
    /\ sub_json_fence skip space (pre ++ 123%N :: t)
       = pre' ++ 123%N :: sub_json_fence 0 false t.
Proof.
  induction pre as [|c pre IH]; intros skip space t Hpre Hskip.
  - destruct skip; [|simpl in Hskip; lia]. exists []. split; [done|].
    cbn [app sub_json_fence]. rewrite u_fence_json.
    rewrite startswith_other_head by done.
    by destruct space.
  - apply not_elem_of_cons in Hpre as [Hc Hpre].
    destruct skip as [|k]; cbn [app sub_json_fence].
    + destruct (space && is_space c).
      * destruct (IH 0%nat true t Hpre) as (pre' & Hsub & ->); [lia|].
        exists pre'. split; [|done]. intros x Hx. right. by apply Hsub.
      * destruct (startswith (c :: pre ++ 123%N :: t) (u "```json")) eqn:Hs.
        -- apply (startswith_length_before 123 _ (c :: pre) t) in Hs;
             [|exact brace_not_in_fence_json].
           rewrite u_fence_json in Hs. simpl in Hs.
           destruct (IH 6%nat true t Hpre) as (pre' & Hsub & ->); [lia|].
           exists pre'. split; [|done]. intros x Hx. right. by apply Hsub.
        -- destruct (IH 0%nat false t Hpre) as (pre' & Hsub & ->); [lia|].
           exists (c :: pre'). split; [|done].
           intros x [->|Hx]%elem_of_cons; [by left|right; by apply Hsub].
    + destruct (IH k true t Hpre) as (pre' & Hsub & ->);
        [simpl in Hskip; lia|].
      exists pre'. split; [|done]. intros x Hx. right. by apply Hsub.
Qed.

Lemma sub_json_fence_no_backtick body : forall t,
  96%N ∉ body ->
  sub_json_fence 0 false (body ++ t) = body ++ sub_json_fence 0 false t.
Proof.
  induction body as [|c body IH]; intros t Hbody; [done|].
  apply not_elem_of_cons in Hbody as [Hc Hbody].
  cbn [app sub_json_fence andb]. rewrite u_fence_json.
  rewrite startswith_other_head by congruence.
  by rewrite IH.
Qed.

Lemma elem_of_sub_json_fence s : forall skip space x,
  x ∈ sub_json_fence skip space s -> x ∈ s.
Proof.
  induction s as [|c s IH]; intros skip space x; [done|].
  destruct skip as [|k]; cbn [sub_json_fence].
  - destruct (space && is_space c); [intros Hx%IH; by right|].
    destruct (startswith (c :: s) (u "```json")); [intros Hx%IH; by right|].
    intros [->|Hx%IH]%elem_of_cons; [by left|by right].
  - intros Hx%IH. by right.
Qed.

Lemma sub_closing_fence_before_brace pre t :
  123%N ∉ pre ->
  sub_closing_fence (pre ++ 123%N :: t)
  = pre ++ sub_closing_fence (123%N :: t).
Proof.
  induction pre as [|c pre IH]; intros Hpre; [done|].
  apply not_elem_of_cons in Hpre as [Hc Hpre].
  cbn [app sub_closing_fence].
  destruct (startswith (c :: pre ++ 123%N :: t) (u "```")) eqn:Hs.
  - apply (startswith_length_before 123 _ (c :: pre) t) in Hs;
      [|exact brace_not_in_fence].
    rewrite u_fence in Hs. simpl in Hs.
    assert (forallb is_space (drop 3 (c :: pre ++ 123%N :: t)) = false)
      as ->.
    { change (c :: pre ++ 123%N :: t) with ((c :: pre) ++ 123%N :: t).
      rewrite drop_app, forallb_app. apply andb_false_iff. right.
      replace (3 - length (c :: pre))%nat with 0%nat by (simpl; lia).
      reflexivity. }
    rewrite andb_false_r. by rewrite IH.
  - simpl. by rewrite IH.
Qed.

Lemma sub_closing_fence_no_backtick body : forall t,
  96%N ∉ body ->
  sub_closing_fence (body ++ t) = body ++ sub_closing_fence t.
Proof.
  induction body as [|c body IH]; intros t Hbody; [done|].
  apply not_elem_of_cons in Hbody as [Hc Hbody].
  cbn [app sub_closing_fence]. rewrite u_fence.
  rewrite startswith_other_head by congruence.
  simpl. by rewrite IH.
Qed.

Lemma elem_of_sub_closing_fence s x : x ∈ sub_closing_fence s -> x ∈ s.
Proof.
  induction s as [|c s IH]; [done|]. cbn [sub_closing_fence].
  destruct (startswith (c :: s) (u "```") && forallb is_space (drop 3 (c :: s)));
    [by intros ?%elem_of_nil|].
  intros [->|Hx%IH]%elem_of_cons; [by left|by right].
Qed.

Lemma lstrip_before c a t :
  is_space c = false ->
  exists a2, (forall x, x ∈ a2 -> x ∈ a)
             /\ lstrip (a ++ c :: t) = a2 ++ c :: t.
Proof.
  intros Hc. induction a as [|y a IH].
  - exists []. split; [done|]. simpl. by rewrite Hc.
  - simpl. destruct (is_space y).
    + destruct IH as (a2 & Hsub & ->). exists a2. split; [|done].
      intros x Hx. right. by apply Hsub.
    + by exists (y :: a).
Qed.

Lemma strip_around a mid b :
  exists a2 b2,
    (forall x, x ∈ a2 -> x ∈ a) /\ (forall x, x ∈ b2 -> x ∈ b)
    /\ strip (a ++ (123%N :: mid ++ [125%N]) ++ b)
       = a2 ++ (123%N :: mid ++ [125%N]) ++ b2.
Proof.
  unfold strip.
  destruct (lstrip_before 123 a ((mid ++ [125%N]) ++ b) eq_refl)
    as (a2 & Ha & Hl).
  change (a ++ (123%N :: mid ++ [125%N]) ++ b)
    with (a ++ 123%N :: (mid ++ [125%N]) ++ b).
  rewrite Hl.
  replace (rev (a2 ++ 123%N :: (mid ++ [125%N]) ++ b))
    with (rev b ++ 125%N :: rev (a2 ++ 123%N :: mid)).
  2:{ rewrite (app_assoc a2 [123%N] _ : _) || idtac.
      rewrite !rev_app_distr. simpl. rewrite !rev_app_distr. simpl.
      rewrite <- !app_assoc. reflexivity. }
  destruct (lstrip_before 125 (rev b) (rev (a2 ++ 123%N :: mid)) eq_refl)
    as (rb2 & Hb & ->).
  exists a2, (rev rb2). split; [done|]. split.
  - intros x Hx. apply (proj1 (elem_of_rev _ _)) in Hx. apply Hb in Hx.
    by apply (proj1 (elem_of_rev _ _)) in Hx.
  - rewrite rev_app_distr. simpl. rewrite rev_involutive.
    rewrite <- !app_assoc. simpl. by rewrite <- ?app_assoc.
Qed.

Lemma find_from_before c a t : forall i,
  c ∉ a -> find_from c (a ++ c :: t) i = i + Z.of_nat (length a).
Proof.
  induction a as [|y a IH]; intros i Ha; simpl.
  - rewrite N.eqb_refl. lia.
  - apply not_elem_of_cons in Ha as [Hy Ha].
    destruct (N.eqb_spec y c) as [->|_]; [done|].
    rewrite IH by done. lia.
Qed.

Lemma find_from_spec c s : forall i,
  (find_from c s i = -1 /\ c ∉ s)
  \/ exists k,
       find_from c s i = i + Z.of_nat k /\ s !! k = Some c
       /\ forall k', s !! k' = Some c -> (k <= k')%nat.
Proof.
  induction s as [|y s IH]; intros i; simpl.
  - left. split; [done|]. apply not_elem_of_nil.
  - destruct (N.eqb_spec y c) as [->|Hne].
    + right. exists 0%nat. split; [lia|]. split; [done|]. intros; lia.
    + destruct (IH (i + 1)) as [[-> Hnot]|(k & -> & Hk & Hmin)].
      * left. split; [done|]. by apply not_elem_of_cons.
      * right. exists (S k). split; [lia|]. split; [done|].
        intros [|k'] Hk'; [simpl in Hk'; congruence|].
        apply Hmin in Hk'. lia.
Qed.

Lemma str_find_spec s c :
  (str_find s c = -1 /\ c ∉ s)
  \/ exists k,
       str_find s c = Z.of_nat k /\ s !! k = Some c
       /\ forall k', s !! k' = Some c -> (k <= k')%nat.
Proof.
  unfold str_find.
  destruct (find_from_spec c s 0) as [?|(k & Hk & ?)]; [by left|].
  right. exists k. by rewrite Hk.
Qed.

Lemma str_rfind_spec s c :
  (str_rfind s c = -1 /\ c ∉ s)
  \/ exists k,
       str_rfind s c = Z.of_nat k /\ s !! k = Some c
       /\ forall k', s !! k' = Some c -> (k' <= k)%nat.
Proof.
  unfold str_rfind.
  destruct (str_find_spec (rev s) c) as [[-> Hnot]|(k & -> & Hk & Hmin)].
  - left. split; [done|]. by rewrite elem_of_rev in Hnot.
  - right. apply rev_lookup_Some in Hk as [Hk Hlt].
    exists (length s - S k)%nat.
    destruct (Z.eqb_spec (Z.of_nat k) (-1)) as [?|_]; [lia|].
    split; [unfold len; lia|]. split; [done|].
    intros k' Hk'.
    pose proof (lookup_lt_Some _ _ _ Hk') as Hlt'.
    assert (rev s !! (length s - S k')%nat = Some c) as Hrev.
    { apply rev_lookup_Some. split; [|lia].
      by replace (length s - S (length s - S k'))%nat with k' by lia. }
    apply Hmin in Hrev. lia.
Qed.

Lemma slice_ends s i j x y :
  (i < j)%nat -> s !! i = Some x -> s !! j = Some y ->
  exists mid,
    slice (Z.of_nat i) (Z.of_nat j + 1) s = x :: mid ++ [y].
Proof.
  intros Hij Hi Hj. unfold slice.
  replace (Z.to_nat (Z.of_nat j + 1 - Z.of_nat i)) with (S (S (j - S i)))
    by lia.
  rewrite Nat2Z.id, (drop_S _ _ _ Hi). cbn [take].
  exists (take (j - S i) (drop (S i) s)). f_equal.
  apply take_S_r. rewrite lookup_drop.
  by replace (S i + (j - S i))%nat with j by lia.
Qed.

(** X19. [_clean_json_response], the same in the four modules that parse a
    reply: when the reply holds an object, that is a text from an opening
    to a closing brace without backtick, after a prefix without opening
    brace and before a suffix without closing brace, such as a Markdown
    fence and a few words around it, the result is that object. In
    general the result either runs from an opening brace to a closing
    brace, or every closing brace in it comes before every opening one. *)
Theorem clean_json_response_extracts_object :
  (forall pre mid post,
     123%N ∉ pre -> 125%N ∉ post -> 96%N ∉ mid ->
     _clean_json_response (pre ++ (123%N :: mid ++ [125%N]) ++ post)
     = 123%N :: mid ++ [125%N])
  /\ (forall content,
        brace_delimited (_clean_json_response content)
        \/ forall i j,
             _clean_json_response content !! i = Some 123%N ->
             _clean_json_response content !! j = Some 125%N ->
             (j < i)%nat).
Proof.
  split.
  - intros pre mid post Hpre Hpost Hmid.
    unfold _clean_json_response.
    assert (96%N ∉ mid ++ [125%N]) as Hbody.
    { rewrite elem_of_app, list_elem_of_singleton. intros [?|?]; done. }
    destruct (sub_json_fence_before_brace pre 0 false
                ((mid ++ [125%N]) ++ post) Hpre)
      as (pre1 & Hpre1 & Hstep1); [lia|].
    change (pre ++ (123%N :: mid ++ [125%N]) ++ post)
      with (pre ++ 123%N :: (mid ++ [125%N]) ++ post).
    rewrite Hstep1, (sub_json_fence_no_backtick _ _ Hbody).
    assert (123%N ∉ pre1) as Hpre1' by (intros ?%Hpre1; done).
    rewrite (sub_closing_fence_before_brace _ _ Hpre1').
    change (123%N :: (mid ++ [125%N]) ++ sub_json_fence 0 false post)
      with ((123%N :: mid ++ [125%N]) ++ sub_json_fence 0 false post).
    rewrite sub_closing_fence_no_backtick
      by (apply not_elem_of_cons; split; [done|exact Hbody]).
    set (post2 := sub_closing_fence (sub_json_fence 0 false post)).
    assert (125%N ∉ post2) as Hpost2.
    { intros Hin. apply Hpost. subst post2.
      by apply elem_of_sub_closing_fence, elem_of_sub_json_fence in Hin. }
    destruct (strip_around pre1 mid post2)
      as (a & b & Ha & Hb & ->).
    assert (123%N ∉ a) as Ha' by (intros ?%Ha; done).
    assert (125%N ∉ b) as Hb' by (intros ?%Hb; done).
    assert (str_find (a ++ (123%N :: mid ++ [125%N]) ++ b) 123
            = Z.of_nat (length a)) as ->.
    { unfold str_find.
      change (a ++ (123%N :: mid ++ [125%N]) ++ b)
        with (a ++ 123%N :: (mid ++ [125%N]) ++ b).
      rewrite find_from_before by done. lia. }
    assert (str_rfind (a ++ (123%N :: mid ++ [125%N]) ++ b) 125
            = Z.of_nat (length a + S (length mid))) as ->.
    { unfold str_rfind, str_find.
      replace (rev (a ++ (123%N :: mid ++ [125%N]) ++ b))
        with (rev b ++ 125%N :: rev (a ++ 123%N :: mid)).
      2:{ rewrite !rev_app_distr. simpl. rewrite !rev_app_distr. simpl.
          rewrite <- !app_assoc. simpl. by rewrite <- ?app_assoc. }
      rewrite find_from_before by (by rewrite elem_of_rev).
      destruct (Z.eqb_spec (0 + Z.of_nat (length (rev b))) (-1)); [lia|].
      unfold len. rewrite !length_app, length_rev. simpl.
      rewrite !length_app. simpl. lia. }
    destruct (Z.eqb_spec (Z.of_nat (length a)) (-1)); [lia|].
    destruct (Z.eqb_spec (Z.of_nat (length a + S (length mid))) (-1));
      [lia|].
    destruct (Z.ltb_spec (Z.of_nat (length a))
                (Z.of_nat (length a + S (length mid)))); [|lia].
    simpl. unfold slice.
    rewrite Nat2Z.id, drop_app_length.
    replace (Z.to_nat (Z.of_nat (length a + S (length mid)) + 1
                       - Z.of_nat (length a)))
      with (length (123%N :: mid ++ [125%N]))
      by (simpl; rewrite length_app; simpl; lia).
    exact (take_app_length (123%N :: mid ++ [125%N]) b).
  - intros content. unfold _clean_json_response.
    set (text := strip (sub_closing_fence (sub_json_fence 0 false content))).
    destruct (str_find_spec text 123) as [[-> Hno]|(i0 & -> & Hi0 & Hfirst)].
    { right. simpl. intros i j Hi _.
      apply list_elem_of_lookup_2 in Hi. done. }
    destruct (str_rfind_spec text 125) as [[-> Hno]|(j0 & -> & Hj0 & Hlast)].
    { right. rewrite andb_false_r. simpl. intros i j _ Hj.
      apply list_elem_of_lookup_2 in Hj. done. }
    destruct (Z.eqb_spec (Z.of_nat i0) (-1)); [lia|].
    destruct (Z.eqb_spec (Z.of_nat j0) (-1)); [lia|].
    destruct (Z.ltb_spec (Z.of_nat i0) (Z.of_nat j0)) as [Hlt|Hge]; simpl.
    + left. destruct (slice_ends text i0 j0 123 125) as (mid & ->);
        [lia|done|done|]. by exists mid.
    + right. intros i j Hi Hj. apply Hfirst in Hi. apply Hlast in Hj.
      assert (i0 <> j0) by (intros ->; congruence). lia.
Qed.

(** A fenced reply, as the service usually sends it. *)
Example clean_json_response_fenced :
  _clean_json_response (u "```json
{'has_connection': false}
```")
  = u "{'has_connection': false}".
Proof. by vm_compute. Qed.

(** ** Matching the table of contents *)

Lemma filter_insert_by_line n m sorted :
  List.filter (on_line n) (insert_by_line m sorted)
  = List.filter (on_line n) (m :: sorted).
Proof.
  induction sorted as [|x rest IH]; [done|].
  cbn [insert_by_line].
  destruct (Z.leb_spec (Match.content_line_num m) (Match.content_line_num x))
    as [Hle|Hlt]; [done|].
  cbn [List.filter] in *. rewrite IH. unfold on_line.
  repeat case_bool_decide; try done. lia.
Qed.

Lemma filter_sort_by_line n matched :
  List.filter (on_line n) (sort_by_line matched)
  = List.filter (on_line n) matched.
Proof.
  induction matched as [|m matched IH]; [done|].
  unfold sort_by_line in *. cbn [foldr].
  rewrite filter_insert_by_line. cbn [List.filter]. by rewrite IH.
Qed.

Lemma matched_section_made_of raw m :
  matched_section raw = Some m <-> made_of raw m.
Proof.
  unfold matched_section, made_of.
  destruct raw as [[a|] [b|] [c|] [d|] [e|] f], m as [a' b' c' d' e' f'];
    simpl; split; try discriminate;
    try (intros (? & ? & ? & ? & ? & ?); discriminate).
  - intros [= -> -> -> -> -> ->]. done.
  - intros ([= ->] & [= ->] & [= ->] & [= ->] & [= ->] & ->). done.
Qed.

(** X20. [_match_toc_with_content] returns nothing when either title list
    is empty. Otherwise it returns the entries of the reply that have the
    five required keys, each once: an entry that lacks one is skipped
    without harm to the others, and a missing confidence is 0. The result
    is in ascending order of line number, and entries on the same line
    keep the order of the reply. *)
Theorem match_toc_with_content_stable {T C} (toc_titles : list T)
  (content_titles : list C) (matches : option (list RawMatch.t)) :
  let matched := _match_toc_with_content toc_titles content_titles matches in
  let complete := omap matched_section (matches.get []) in
  (toc_titles = [] \/ content_titles = [] -> matched = [])
  /\ (toc_titles <> [] -> content_titles <> [] ->
      matched ≡ₚ complete
      /\ forall n,
           List.filter (on_line n) matched
           = List.filter (on_line n) complete)
  /\ StronglySorted by_line matched
  /\ (forall m, m ∈ complete
                <-> exists raw, raw ∈ matches.get [] /\ made_of raw m).
Proof.
  intros matched complete. subst matched complete.
  split; [|split; [|split]].
  - intros [-> | ->]; [done|]. by destruct toc_titles.
  - intros Htoc Hcontent.
    destruct toc_titles as [|t toc]; [done|].
    destruct content_titles as [|c content]; [done|].
    cbn [_match_toc_with_content]. split.
    + apply sort_by_line_perm.
    + intros n. apply filter_sort_by_line.
  - apply match_toc_with_content_sorted.
  - intros m. rewrite list_elem_of_omap.
    split; intros (raw & Hraw & Hm); exists raw; split; try done;
      by apply matched_section_made_of.
Qed.

Lemma concat_batches {T} (toc_data : list T) m :
  concat (map (fun k => take 30 (drop (30 * k) toc_data)) (seq 0 m))
  = take (30 * m) toc_data.
Proof.
  induction m as [|m IH]; [done|].
  rewrite seq_S, map_app, concat_app, IH. cbn [map concat].
  rewrite app_nil_r, Nat.add_0_l, take_take_drop. f_equal. lia.
Qed.

Lemma batch_count_covers n : (n <= 30 * ((n + 29) / 30))%nat.
Proof.
  pose proof (Nat.div_mod_eq (n + 29) 30) as Hdm.
  pose proof (Nat.mod_upper_bound (n + 29) 30) as Hlt.
  generalize dependent ((n + 29) mod 30)%nat.
  generalize ((n + 29) / 30)%nat. intros q r ? ?. lia.
Qed.

Lemma batch_start_inside n k :
  (k < (n + 29) / 30)%nat -> (30 * k < n)%nat.
Proof.
  pose proof (Nat.div_mod_eq (n + 29) 30) as Hdm.
  pose proof (Nat.mod_upper_bound (n + 29) 30) as Hlt.
  generalize dependent ((n + 29) mod 30)%nat.
  generalize ((n + 29) / 30)%nat. intros q r ? ? ?. lia.
Qed.

Lemma foldl_batches {T} (request : nat -> list T -> batch_reply)
  (toc_data : list T) starts : forall all_matches : option (list RawMatch.t),
  foldl (fun all_matches i =>
           all_matches ← all_matches;
           match request i (take 30 (drop i toc_data)) with
           | BatchParsed matches => Some (all_matches ++ matches.get [])
           | BatchFailed => None
           end)
        all_matches starts
  = all_matches ← all_matches;
    if forallb (fun i => batch_parsed
                           (request i (take 30 (drop i toc_data)))) starts
    then Some (all_matches
               ++ flat_map (fun i => batch_matches
                                       (request i
                                          (take 30 (drop i toc_data))))
                           starts)
    else None.
Proof.
  induction starts as [|i starts IH]; intros [acc|]; cbn [foldl].
  - simpl. by rewrite app_nil_r.
  - done.
  - rewrite IH. simpl.
    destruct (request i (take 30 (drop i toc_data))) as [|matches]; simpl;
      [done|].
    destruct (forallb _ starts); [|done]. by rewrite <- app_assoc.
  - by rewrite IH.
Qed.

(** X21. [_call_llm_for_matching] cuts the table of contents into
    consecutive batches of at most 30 titles, none of them empty, that
    together are the whole table, and makes one request for each. The
    result is all or nothing: when every batch is answered, the matches of
    the batches in order; when one batch fails, [None], whatever the
    others returned, and then [_match_toc_with_content] has no match. *)
Theorem call_llm_for_matching_batches {T C}
  (request : nat -> list T -> batch_reply) (toc_data : list T)
  (content_titles : list C) :
  let starts := batch_starts (length toc_data) in
  let batch i := take 30 (drop i toc_data) in
  let all_matches := _call_llm_for_matching request toc_data in
  flat_map batch starts = toc_data
  /\ length starts = ((length toc_data + 29) / 30)%nat
  /\ (forall i, i ∈ starts -> (1 <= length (batch i) <= 30)%nat)
  /\ all_matches
     = (if forallb (fun i => batch_parsed (request i (batch i))) starts
        then Some (flat_map (fun i => batch_matches (request i (batch i)))
                            starts)
        else None)
  /\ (forall i, i ∈ starts -> request i (batch i) = BatchFailed ->
        all_matches = None
        /\ _match_toc_with_content toc_data content_titles all_matches
           = []).
Proof.
  intros starts batch all_matches.
  assert (all_matches
          = (if forallb (fun i => batch_parsed (request i (batch i))) starts
             then Some (flat_map
                          (fun i => batch_matches (request i (batch i)))
                          starts)
             else None)) as Hall.
  { subst all_matches. unfold _call_llm_for_matching.
    by rewrite foldl_batches. }
  split; [|split; [|split; [|split]]].
  - subst starts batch. unfold batch_starts.
    rewrite flat_map_concat_map, map_map, concat_batches.
    apply take_ge, batch_count_covers.
  - subst starts. unfold batch_starts. by rewrite length_map, length_seq.
  - intros i Hi. subst starts batch. unfold batch_starts in Hi.
    apply list_elem_of_fmap in Hi as (k & -> & Hk).
    apply elem_of_seq in Hk as [_ Hk].
    apply batch_start_inside in Hk. cbv beta.
    rewrite length_take, length_drop. lia.
  - exact Hall.
  - intros i Hi Hfail.
    assert (all_matches = None) as Hnone.
    { rewrite Hall.
      destruct (forallb _ starts) eqn:Hf; [|done].
      rewrite forallb_forall in Hf.
      apply list_elem_of_In, Hf in Hi. by rewrite Hfail in Hi. }
    split; [done|]. rewrite Hnone.
    unfold _match_toc_with_content.
    destruct toc_data, content_titles; done.
Qed.

(** ** The content of a section *)

Lemma content_lines_spec lines n : forall start_line,
  0 <= start_line ->
  content_lines lines start_line (start_line + Z.of_nat n)
  = Some (List.filter nonblank
            (map strip (take n (drop (Z.to_nat start_line) lines)))).
Proof.
  unfold content_lines. induction n as [|n IH]; intros s Hs.
  - rewrite seqZ_nil by lia. done.
  - rewrite seqZ_cons by lia.
    replace (Z.pred (s + Z.of_nat (S n) - s))
      with (Z.succ s + Z.of_nat n - Z.succ s) by lia.
    specialize (IH (Z.succ s)). cbn [mapM].
    destruct (mapM _ (seqZ (Z.succ s) _)) as [pieces|]; simpl in IH;
      [|by discriminate IH; lia].
    assert (Some (concat pieces)
            = Some (List.filter nonblank
                      (map strip (take n (drop (Z.to_nat (Z.succ s))
                                               lines))))) as Hrest
      by (apply IH; lia).
    injection Hrest as Hrest.
    rewrite Z2Nat.inj_succ in Hrest by lia.
    destruct (Z.ltb_spec s (Z.of_nat (length lines))) as [Hlt|Hge].
    + unfold index. destruct (Z.leb_spec 0 s) as [_|?]; [|lia].
      destruct (lookup_lt_is_Some_2 lines (Z.to_nat s)) as [line Hline];
        [lia|].
      rewrite Hline. simpl. rewrite (drop_S _ _ _ Hline). cbn [take map].
      cbn [List.filter]. unfold nonblank at 1. rewrite Hrest.
      by destruct (bool_decide (strip line = [])).
    + simpl. rewrite Hrest.
      rewrite (drop_ge lines (Z.to_nat s)) by lia.
      rewrite (drop_ge lines (S (Z.to_nat s))) by lia.
      by rewrite take_nil.
Qed.

Lemma lstrip_fixed s :
  match s with c :: _ => is_space c = false | [] => True end ->
  lstrip s = s.
Proof. destruct s as [|c s]; [done|]. simpl. by intros ->. Qed.

Lemma lstrip_head s :
  match lstrip s with c :: _ => is_space c = false | [] => True end.
Proof.
  induction s as [|c s IH]; [done|]. simpl.
  destruct (is_space c) eqn:Hc; [done|]. simpl. done.
Qed.

Lemma strip_idempotent s : strip (strip s) = strip s.
Proof.
  unfold strip. pose proof (lstrip_head s) as Hhead.
  destruct (lstrip s) as [|c y] eqn:Hy; [done|].
  change (rev (c :: y)) with (rev y ++ [c]).
  destruct (lstrip_before c (rev y) [] Hhead) as (a2 & _ & Hl).
  pose proof (lstrip_head (rev y ++ [c])) as Hlast.
  rewrite Hl in *. rewrite rev_app_distr.
  change (rev [c] ++ rev a2) with (c :: rev a2).
  cbn [lstrip]. rewrite Hhead.
  change (rev (c :: rev a2)) with (rev (rev a2) ++ [c]).
  rewrite rev_involutive.
  rewrite (lstrip_fixed (a2 ++ [c])) by exact Hlast.
  by rewrite rev_app_distr.
Qed.

Lemma split_content_section_at lines matched_sections sections i s :
  _split_content_by_sections lines matched_sections = Some sections ->
  sections !! i = Some s ->
  exists m,
    matched_sections !! i = Some m
    /\ section_at lines matched_sections i m = Some s.
Proof.
  unfold _split_content_by_sections. intros Hsplit%mapM_Some Hs.
  destruct (Forall2_lookup_r _ _ _ _ _ Hsplit Hs) as ([i' m] & Him & Hat).
  rewrite list_lookup_imap in Him.
  destruct (matched_sections !! i) as [m'|] eqn:Hi; [|done].
  injection Him as <- <-. by exists m'.
Qed.

(** X22. When the matched headings are on lines numbered from 1, the
    content of every section that [_split_content_by_sections] returns is
    the lines of its span, from its start line to its end line, each
    stripped, the blank ones left out, joined by newlines; number and
    title are those of the table of contents. So no line of a content is
    empty or has white space at either end, and each is a line of the
    document, stripped. *)
Theorem section_content_is_span_lines (lines : list str)
  (matched_sections : list Match.t) (sections : list Section.t) (i : nat)
  (s : Section.t) :
  Forall (fun m => 1 <= Match.content_line_num m) matched_sections ->
  _split_content_by_sections lines matched_sections = Some sections ->
  sections !! i = Some s ->
  let content_lines :=
    span_lines lines (Section.start_line s) (Section.end_line s) in
  Section.content s = join [10%N] content_lines
  /\ (exists m, matched_sections !! i = Some m
                /\ Section.section_num s = Match.toc_section_num m
                /\ Section.title s = Match.toc_title m
                /\ Section.start_line s = Match.content_line_num m)
  /\ (forall line, line ∈ content_lines ->
        line <> [] /\ strip line = line
        /\ exists raw, raw ∈ lines /\ line = strip raw).
Proof.
  intros Hpos Hsplit Hs content.
  destruct (split_content_section_at _ _ _ _ _ Hsplit Hs) as (m & Hm & Hat).
  rewrite Forall_lookup in Hpos. specialize (Hpos i m Hm). simpl in Hpos.
  unfold section_at in Hat.
  set (start := Match.content_line_num m) in *.
  match type of Hat with
  | content_lines _ _ ?b ≫= _ = _ => set (end_line := b) in *
  end.
  assert (content_lines lines (start - 1) end_line
          = Some (List.filter nonblank
                    (map strip
                       (take (Z.to_nat (end_line - (start - 1)))
                             (drop (Z.to_nat (start - 1)) lines)))))
    as Hlines.
  { destruct (Z.le_gt_cases (start - 1) end_line) as [Hle|Hgt].
    - replace end_line
        with (start - 1 + Z.of_nat (Z.to_nat (end_line - (start - 1))))
        at 1 by lia.
      apply content_lines_spec. lia.
    - unfold content_lines. rewrite seqZ_nil by lia.
      by replace (Z.to_nat (end_line - (start - 1))) with 0%nat by lia. }
  rewrite Hlines in Hat. simpl in Hat. injection Hat as <-.
  subst content. unfold span_lines.
  cbn [Section.content Section.start_line Section.end_line
       Section.section_num Section.title].
  replace (start - 1 + 1 - 1) with (start - 1) by lia.
  replace (end_line - (start - 1 + 1) + 1) with (end_line - (start - 1))
    by lia.
  split; [done|]. split; [exists m; repeat split; try done; lia|].
  intros line Hline. apply list_elem_of_In, filter_In in Hline
    as [Hline Hnb].
  apply in_map_iff in Hline as (raw & <- & Hraw).
  split; [|split].
  - unfold nonblank in Hnb. apply negb_true_iff in Hnb.
    by apply bool_decide_eq_false in Hnb.
  - apply strip_idempotent.
  - exists raw. split; [|done].
    apply list_elem_of_In in Hraw.
    by apply subseteq_take, subseteq_drop in Hraw.
Qed.

(** The statement above for the six-line document and its two matched
    headings: the first section holds lines 2 and 3, the second lines 4
    and 6, line 5 being blank. *)
Lemma section_content_is_span_lines_witness :
  Forall (fun m => 1 <= Match.content_line_num m) Inputs.two_matches
  /\ exists sections,
       _split_content_by_sections Inputs.six_lines Inputs.two_matches
       = Some sections
       /\ map Section.content sections
          = [u "# 1 Intro
Text of the introduction."; u "# 2 Amplifiers
Text about amplifiers."].
Proof.
  assert (Forall (fun m => 1 <= Match.content_line_num m) Inputs.two_matches)
    as Hpos by (repeat constructor; simpl; lia).
  split; [exact Hpos|].
  destruct (_split_content_by_sections Inputs.six_lines Inputs.two_matches)
    as [sections|] eqn:Hsplit; [|by vm_compute in Hsplit].
  exists sections. split; [done|].
  destruct sections as [|s1 [|s2 [|s3 rest]]];
    try (by vm_compute in Hsplit).
  destruct (section_content_is_span_lines Inputs.six_lines
              Inputs.two_matches [s1; s2] 0 s1 Hpos Hsplit eq_refl)
    as (Hc1 & _).
  destruct (section_content_is_span_lines Inputs.six_lines
              Inputs.two_matches [s1; s2] 1 s2 Hpos Hsplit eq_refl)
    as (Hc2 & _).
  vm_compute in Hsplit. injection Hsplit as <- <-.
  cbn [map]. rewrite Hc1, Hc2. by vm_compute.
Defined.

(** ** The fallback split *)

Lemma opened_at_snoc is_digit lines x s :
  opened_at is_digit lines s -> opened_at is_digit (lines ++ [x]) s.
Proof.
  intros (i & line & Hi & Hh & Hs & He & Hn & Ht).
  pose proof (lookup_lt_Some _ _ _ Hi) as Hlt.
  exists i, line. repeat split; try done.
  - by apply lookup_app_l_Some.
  - by rewrite take_app_le by lia.
Qed.

Lemma opened_at_bound is_digit lines s :
  opened_at is_digit lines s ->
  Section.start_line s <= Z.of_nat (length lines).
Proof.
  intros (i & line & Hi & _ & Hs & _).
  apply lookup_lt_Some in Hi. lia.
Qed.

Lemma headings_snoc is_digit lines x :
  headings is_digit (lines ++ [x])
  = (headings is_digit lines
     + if heading_line is_digit x then 1 else 0)%nat.
Proof.
  unfold headings. rewrite List.filter_app, length_app. simpl.
  by destruct (heading_line is_digit x).
Qed.

Lemma save_current_invariant is_digit lines st :
  fallback_invariant is_digit lines st ->
  Forall (opened_at is_digit lines) (save_current st)
  /\ Forall (fun s => Section.content s <> []) (save_current st)
  /\ StronglySorted Z.lt (map Section.start_line (save_current st))
  /\ (length (save_current st) <= headings is_digit lines)%nat.
Proof.
  intros (_ & Hopen & Hcontent & Hsorted & Hlen).
  unfold save_current, open_sections in *.
  destruct (FallbackLoop.current_section st) as [cs|]; simpl in *.
  - apply Forall_app in Hopen as [Hopen Hcs].
    rewrite map_app in Hsorted. rewrite length_app in Hlen. simpl in Hlen.
    case_bool_decide as Hempty.
    + repeat split; try done; [|lia].
      by apply StronglySorted_app_1_l in Hsorted.
    + repeat split.
      * apply Forall_app. split; [done|].
        apply Forall_singleton.
        apply (proj1 (Forall_singleton _ _)) in Hcs.
        destruct Hcs as (i & line & ? & ? & ? & ? & ? & ?).
        exists i, line. by repeat split.
      * apply Forall_app. split; [done|]. by apply Forall_singleton.
      * by rewrite map_app.
      * rewrite length_app. simpl. lia.
  - rewrite app_nil_r in *. by repeat split.
Qed.

Lemma fallback_step_invariant is_digit lines x st :
  fallback_invariant is_digit lines st ->
  fallback_invariant is_digit (lines ++ [x])
    (fallback_step is_digit st (length lines, x)).
Proof.
  intros Hinv.
  pose proof (save_current_invariant _ _ _ Hinv)
    as (Hsaved & Hsaved_content & Hsaved_sorted & Hsaved_len).
  destruct Hinv as (Hcount & Hopen & Hcontent & Hsorted & Hlen).
  unfold fallback_invariant, fallback_step.
  rewrite headings_snoc.
  assert (heading_line is_digit x = is_heading is_digit (strip x)) as Hhl
    by done.
  rewrite Hhl.
  destruct (is_heading is_digit (strip x)) eqn:Hh.
  - unfold open_sections.
    cbn [FallbackLoop.sections FallbackLoop.current_section
         FallbackLoop.section_count option_list option_rect].
    split; [lia|]. split; [|split; [done|split]].
    + apply Forall_app. split.
      * eapply Forall_impl; [exact Hsaved|].
        intros s. apply opened_at_snoc.
      * apply Forall_singleton. exists (length lines), x.
        cbn [Section.start_line Section.end_line Section.section_num
             Section.title].
        split; [by apply list_lookup_middle|]. split; [exact Hhl|].
        split; [done|]. split; [done|]. split.
        -- rewrite take_ge by (rewrite length_app; simpl; lia).
           rewrite headings_snoc, Hhl, Hcount. f_equal. lia.
        -- case_bool_decide; [|done].
           destruct (u "章节") eqn:Hprefix; [by vm_compute in Hprefix|done].
    + rewrite map_app. apply StronglySorted_app_2.
      * intros a b Ha Hb. simpl in Hb.
        apply list_elem_of_singleton in Hb as ->.
        apply list_elem_of_fmap in Ha as (s & -> & Hs).
        rewrite Forall_forall in Hsaved.
        pose proof (opened_at_bound _ _ _ (Hsaved s Hs)). lia.
      * done.
      * simpl. repeat constructor.
    + rewrite length_app. simpl. lia.
  - assert (forall st',
              FallbackLoop.sections st' = FallbackLoop.sections st ->
              FallbackLoop.current_section st'
              = FallbackLoop.current_section st ->
              FallbackLoop.section_count st'
              = FallbackLoop.section_count st ->
              FallbackLoop.section_count st'
              = S (headings is_digit lines + 0)
              /\ Forall (opened_at is_digit (lines ++ [x]))
                        (open_sections st')
              /\ Forall (fun s => Section.content s <> [])
                        (FallbackLoop.sections st')
              /\ StronglySorted Z.lt
                   (map Section.start_line (open_sections st'))
              /\ (length (open_sections st')
                  <= headings is_digit lines + 0)%nat) as Hsame.
    { intros st' Hs Hc Hn. unfold open_sections. rewrite Hs, Hc, Hn.
      fold (open_sections st).
      split; [lia|]. split; [|split; [done|split; [done|lia]]].
      eapply Forall_impl; [exact Hopen|].
      intros s. apply opened_at_snoc. }
    destruct (FallbackLoop.current_section st) eqn:Hcs;
      [case_bool_decide|]; by apply Hsame.
Qed.

Lemma fallback_loop_invariant is_digit lines :
  fallback_invariant is_digit lines
    (foldl (fallback_step is_digit)
           {| FallbackLoop.sections := [];
              FallbackLoop.current_section := None;
              FallbackLoop.current_content := [];
              FallbackLoop.section_count := 1 |}
           (imap pair lines)).
Proof.
  induction lines as [|x lines IH] using rev_ind.
  - repeat split; simpl; try done; constructor.
  - rewrite imap_app, foldl_app. cbn [imap foldl].
    rewrite Nat.add_0_r. by apply fallback_step_invariant.
Qed.

(** X23. The sections of [_simple_split_fallback]: each was opened at a
    heading line of the document and starts and ends on that very line,
    so the span tells nothing of its extent; its number is the rank of
    that heading among the headings, so that a heading with no text under
    it leaves a gap in the numbers; its title and its content are not
    empty. The sections come in the order of their headings, there are at
    most as many as headings, none when no line is a heading, and
    [total_sections] counts them. *)
Theorem simple_split_fallback_sections (is_digit : N -> bool) (now : str)
  (self : SplitterState.t) (lines : list str) :
  let data := _simple_split_fallback is_digit now self lines in
  let sections := SectionsData.sections data in
  SectionsData.total_sections data = Z.of_nat (length sections)
  /\ (length sections <= headings is_digit lines)%nat
  /\ (headings is_digit lines = 0%nat -> sections = [])
  /\ StronglySorted Z.lt (map Section.start_line sections)
  /\ (forall s, s ∈ sections ->
        Section.end_line s = Section.start_line s
        /\ Section.title s <> [] /\ Section.content s <> []
        /\ exists i line,
             Section.start_line s = Z.of_nat i + 1
             /\ lines !! i = Some line
             /\ heading_line is_digit line = true
             /\ Section.section_num s
                = of_nat (headings is_digit (take (S i) lines))).
Proof.
  intros data sections. subst data sections.
  unfold _simple_split_fallback, _build_sections_data.
  cbn [SectionsData.sections SectionsData.total_sections].
  unfold fallback_sections.
  destruct (save_current_invariant _ _ _
              (fallback_loop_invariant is_digit lines))
    as (Hopen & Hcontent & Hsorted & Hlen).
  split; [done|]. split; [done|]. split; [|split; [done|]].
  - intros Hnone. rewrite Hnone in Hlen.
    by destruct (save_current _); [|simpl in Hlen; lia].
  - intros s Hs. rewrite Forall_forall in Hopen, Hcontent.
    destruct (Hopen s Hs) as (i & line & Hi & Hh & Hstart & Hend & Hn & Ht).
    split; [lia|]. split; [done|]. split; [by apply Hcontent|].
    by exists i, line.
Qed.

(** A document of eleven lines: the heading on line 6 has no text under
    it, so there is no section 2; a line that starts with a voltage is no
    heading. *)
Example simple_split_fallback_gap :
  let ascii_digit c := ((48 <=? c) && (c <=? 57))%N in
  map (fun s => (Section.section_num s, Section.title s,
                 Section.start_line s, Section.end_line s))
      (fallback_sections ascii_digit
         [u "Preface"; u "# 1 Intro"; u "  text a  "; []; u "text b";
          u "## Empty"; u "2.1 Amplifiers"; u "3.3V supply is used";
          u "1.2.3.4 x"; u "7"; u "# "])
  = [(u "1", u "Intro", 2, 2); (u "3", u "Amplifiers", 7, 7)].
Proof. by vm_compute. Qed.

(** ** The whole of the splitting *)


(** ** The main-logic stage *)

Lemma count_words_length s : forall in_word,
  (MainLogic.count_words in_word s <= length s)%nat.
Proof.
  induction s as [|c s IH]; intros in_word; simpl; [lia|].
  destruct (is_space c).
  - specialize (IH false). lia.
  - specialize (IH true). destruct in_word; lia.
Qed.

Lemma generate_main_logic_run now service sections :
  MainLogic.generate_main_logic now service (Some sections)
  = (Return
       (option_map (MainLogic._build_main_logic_kg now)
          (MainLogic._call_deepseek_with_cot_analysis
             (service (map MainLogic.section_summary sections) 0%nat))),
     1%nat).
Proof.
  unfold MainLogic.generate_main_logic, MainLogic._analyze_sections_with_cot,
    Utils.retry_on_failure.
  cbn [Utils.retry_attempts]. simpl.
  by destruct (MainLogic._call_deepseek_with_cot_analysis _).
Qed.

(** X25. [generate_main_logic] makes one request, whatever the reply: the
    decorated call catches every failure of the request itself, so nothing
    is retried. It returns the empty dictionary exactly when the request
    fails or the reply is an empty dictionary; then no main-logic graph is
    written and the fuser, which needs one, gives no graph. Otherwise the
    nodes and edges are the knowledge points and relationships of the
    reply, counted by [total_nodes] and [total_edges], and in the graph
    fused from it every knowledge point has a surviving node of its id
    that comes from the main logic, at level 0. Each section is summarised
    for the request by its length, a word count that does not exceed it,
    and a preview: the content itself up to 800 characters, else its
    first 800 followed by three dots. *)
Theorem main_logic_stage (now now1 now2 : str)
  (service : list SectionSummary.t -> nat -> MainLogic.reply)
  (sections : list Section.t) (sub_logic_kgs : list SubKG.t)
  (conns : list Conn.t) :
  let summaries := map MainLogic.section_summary sections in
  let run := MainLogic.generate_main_logic now service (Some sections) in
  snd run = 1%nat
  /\ (fst run = Return None
      <-> service summaries 0%nat = MainLogic.Failed
          \/ service summaries 0%nat = MainLogic.Parsed None)
  /\ (fst run = Return None ->
      fuse_knowledge_graphs now1 now2 None sub_logic_kgs conns = None)
  /\ (forall analysis,
        service summaries 0%nat = MainLogic.Parsed (Some analysis) ->
        exists kg,
          fst run = Return (Some kg)
          /\ MainLogicKG.nodes kg
             = (MainAnalysis.main_knowledge_points analysis).get []
          /\ MainLogicKG.edges kg
             = (MainAnalysis.section_relationships analysis).get []
          /\ MainLogicMetadata.total_nodes (MainLogicKG.metadata kg)
             = Z.of_nat (length (MainLogicKG.nodes kg))
          /\ MainLogicMetadata.total_edges (MainLogicKG.metadata kg)
             = Z.of_nat (length (MainLogicKG.edges kg))
          /\ (sub_logic_kgs <> [] ->
              exists unified,
                fuse_knowledge_graphs now1 now2
                  (Some (Pipeline.to_main_kg kg)) sub_logic_kgs conns
                = Some unified
                /\ forall point, point ∈ MainLogicKG.nodes kg ->
                     exists survivor,
                       survivor ∈ UnifiedKG.nodes unified
                       /\ UNode.id survivor = (MainNode.id point).get []
                       /\ UNode.source survivor = u "main_logic"
                       /\ UNode.level survivor = 0))
  /\ (forall section, section ∈ sections ->
        let summary := MainLogic.section_summary section in
        let content := Section.content section in
        SectionSummary.content_length summary = len content
        /\ 0 <= SectionSummary.word_count summary <= len content
        /\ (len content <= 800 ->
            SectionSummary.content_preview summary = content)
        /\ (800 < len content ->
            SectionSummary.content_preview summary
            = slice_to 800 content ++ u "..."
            /\ len (SectionSummary.content_preview summary) = 803)).
Proof.
  intros summaries run. subst run summaries.
  rewrite generate_main_logic_run. cbn [fst snd].
  split; [done|]. split; [|split; [done|split]].
  - destruct (service _ 0%nat) as [|[analysis|]]; simpl; split;
      try done; try (by left); try (by right); intros [H|H]; discriminate H.
  - intros analysis ->. simpl. eexists. split; [reflexivity|].
    cbn [MainLogic._build_main_logic_kg MainLogicKG.nodes MainLogicKG.edges
         MainLogicKG.metadata MainLogicMetadata.total_nodes
         MainLogicMetadata.total_edges].
    repeat (split; [done|]).
    intros Hsubs. destruct sub_logic_kgs as [|kg kgs]; [done|].
    eexists. split; [reflexivity|].
    intros point Hpoint.
    unfold _optimize_unified_kg. cbn [UnifiedKG.nodes].
    rewrite fuse_graphs_nodes, dedup_by_app.
    cbn [Pipeline.to_main_kg MainKG.nodes default].
    destruct (dedup_by_keeps_key UNode.id ∅
                (map unify_main_node
                   ((MainAnalysis.main_knowledge_points analysis).get []))
                (unify_main_node point))
      as (survivor & Hs & Hid).
    { apply list_elem_of_fmap. by exists point. }
    { apply not_elem_of_empty. }
    exists survivor. split; [apply elem_of_app; by left|].
    split; [exact Hid|].
    apply dedup_by_elem_of in Hs as [Hs _].
    by apply list_elem_of_fmap in Hs as (m & -> & _).
  - intros section _.
    unfold MainLogic.section_summary.
    cbn [SectionSummary.content_length SectionSummary.word_count
         SectionSummary.content_preview].
    pose proof (count_words_length (Section.content section) false) as Hw.
    split; [done|]. split; [unfold len; lia|].
    destruct (Z.ltb_spec 800 (len (Section.content section))) as [Hlong|?];
      (split; [|split]); try done; try lia.
    unfold len, slice_to in *. rewrite length_app, length_take.
    change (length (u "...")) with 3%nat. lia.
Qed.

(** ** The graph built for the metrics *)

Import Visualizer.

Lemma add_nodes_spec l : forall G,
  DiGraph.edges
    (foldl (fun G node => add_node G ((VNode.id node).get []) node) G l)
  = DiGraph.edges G
  /\ forall n,
       is_Some (DiGraph.nodes
                  (foldl (fun G node =>
                            add_node G ((VNode.id node).get []) node) G l)
                !! n)
       <-> is_Some (DiGraph.nodes G !! n) \/ n ∈ map node_id l.
Proof.
  induction l as [|node l IH]; intros G; cbn [foldl map].
  - split; [done|]. intros n. split; [by left|].
    by intros [?|?%elem_of_nil].
  - destruct (IH (add_node G ((VNode.id node).get []) node)) as [-> Hn].
    split; [done|]. intros n. rewrite Hn. cbn [add_node DiGraph.nodes].
    rewrite lookup_insert_is_Some, elem_of_cons. unfold node_id.
    destruct (decide ((VNode.id node).get [] = n)) as [<-|Hne].
    + split; intros _; [right; by left|left; by left].
    + split.
      * intros [[?|[_ ?]]|?]; [done|by left|right; by right].
      * intros [?|[?|?]]; [left; right; by split|congruence|by right].
Qed.

Lemma ensure_node_present n nodes :
  is_Some (nodes !! n) -> ensure_node n nodes = nodes.
Proof. intros [attr Hn]. unfold ensure_node. by rewrite Hn. Qed.

Lemma draw_edge_spec G edge :
  DiGraph.nodes (draw_edge G edge) = DiGraph.nodes G
  /\ (forall s t,
        is_Some (DiGraph.edges (draw_edge G edge) !! (s, t))
        <-> is_Some (DiGraph.edges G !! (s, t))
            \/ (joins s t edge /\ s <> [] /\ t <> []
                /\ is_Some (DiGraph.nodes G !! s)
                /\ is_Some (DiGraph.nodes G !! t)))
  /\ (size (DiGraph.edges (draw_edge G edge))
      <= S (size (DiGraph.edges G)))%nat.
Proof.
  unfold draw_edge, joins, has_node.
  set (source_id := (VEdge.source_id edge).get []).
  set (target_id := (VEdge.target_id edge).get []).
  match goal with
  | |- context [if ?drawn then add_edge _ _ _ _ else _] =>
    destruct drawn eqn:Hdraw
  end.
  - apply andb_true_iff in Hdraw as [Hdraw Ht].
    apply andb_true_iff in Hdraw as [Hdraw Hs].
    apply andb_true_iff in Hdraw as [Hsne Htne].
    apply negb_true_iff, bool_decide_eq_false in Hsne, Htne.
    apply bool_decide_eq_true in Hs, Ht.
    cbn [add_edge DiGraph.nodes DiGraph.edges].
    split; [|split].
    + rewrite (ensure_node_present source_id) by done.
      by rewrite ensure_node_present.
    + intros s t. rewrite lookup_insert_is_Some. split.
      * intros [[= <- <-]|[_ ?]]; [right; by repeat split|by left].
      * intros [?|([<- <-] & _)].
        -- destruct (decide ((source_id, target_id) = (s, t)));
             [by left|right; by split].
        -- by left.
    + rewrite map_size_insert.
      match goal with
      | |- context [match ?old with Some _ => _ | None => _ end] =>
        destruct old
      end; unfold id; lia.
  - split; [done|]. split; [|lia].
    intros s t. split; [by left|].
    intros [?|([<- <-] & Hsne & Htne & Hs & Ht)]; [done|].
    rewrite !bool_decide_eq_false_2 in Hdraw by done.
    rewrite !bool_decide_eq_true_2 in Hdraw by done.
    discriminate Hdraw.
Qed.

Lemma draw_edges_spec l : forall G,
  DiGraph.nodes (foldl draw_edge G l) = DiGraph.nodes G
  /\ (forall s t,
        is_Some (DiGraph.edges (foldl draw_edge G l) !! (s, t))
        <-> is_Some (DiGraph.edges G !! (s, t))
            \/ (s <> [] /\ t <> []
                /\ is_Some (DiGraph.nodes G !! s)
                /\ is_Some (DiGraph.nodes G !! t)
                /\ exists edge, edge ∈ l /\ joins s t edge))
  /\ (size (DiGraph.edges (foldl draw_edge G l))
      <= size (DiGraph.edges G) + length l)%nat.
Proof.
  induction l as [|edge l IH]; intros G; cbn [foldl].
  - split; [done|]. split; [|simpl; lia].
    intros s t. split; [by left|].
    by intros [?|(_ & _ & _ & _ & ? & ?%elem_of_nil & _)].
  - destruct (IH (draw_edge G edge)) as (-> & Hedges & Hsize).
    destruct (draw_edge_spec G edge) as (Hnodes & Hedge & Hsize1).
    split; [done|]. split; [|simpl; lia].
    intros s t. rewrite Hedges, Hedge, Hnodes. split.
    + intros [[?|(? & ? & ? & ? & ?)]
             |(? & ? & ? & ? & e & ? & ?)].
      * by left.
      * right. repeat split; try done. exists edge. split; [by left|done].
      * right. repeat split; try done. exists e. split; [by right|done].
    + intros [?|(? & ? & ? & ? & e & [->|?]%elem_of_cons & ?)].
      * left. by left.
      * left. right. split; [done|]. by repeat split.
      * right. repeat split; try done. by exists e.
Qed.

Lemma networkx_graph_spec (kg_data : VKG.t) :
  let G := _build_networkx_graph kg_data in
  let ids := map node_id ((VKG.nodes kg_data).get []) in
  let edges := (VKG.edges kg_data).get [] in
  (forall n, is_Some (DiGraph.nodes G !! n) <-> n ∈ ids)
  /\ (forall s t,
        is_Some (DiGraph.edges G !! (s, t))
        <-> s <> [] /\ t <> [] /\ s ∈ ids /\ t ∈ ids
            /\ exists edge, edge ∈ edges /\ joins s t edge)
  /\ (forall s t,
        is_Some (DiGraph.edges G !! (s, t)) ->
        is_Some (DiGraph.nodes G !! s) /\ is_Some (DiGraph.nodes G !! t))
  /\ (NoDup ids -> size (DiGraph.nodes G) = length ids)
  /\ (size (DiGraph.edges G) <= length edges)%nat.
Proof.
  intros G ids edges. subst G edges. unfold _build_networkx_graph.
  set (G0 := foldl _ _ ((VKG.nodes kg_data).get [])).
  destruct (add_nodes_spec ((VKG.nodes kg_data).get [])
              {| DiGraph.nodes := ∅; DiGraph.edges := ∅ |})
    as [Hedges0 Hnodes0].
  fold G0 in Hedges0, Hnodes0. cbn [DiGraph.nodes DiGraph.edges] in *.
  fold ids in Hnodes0.
  assert (forall n, is_Some (DiGraph.nodes G0 !! n) <-> n ∈ ids) as Hnodes.
  { intros n. rewrite Hnodes0, lookup_empty. split; [|by right].
    by intros [[? ?]|?]. }
  destruct (draw_edges_spec ((VKG.edges kg_data).get []) G0) as (Hsame & Hdrawn & Hsize).
  rewrite Hedges0 in Hdrawn, Hsize.
  assert (forall s t,
            is_Some (DiGraph.edges
                       (foldl draw_edge G0 ((VKG.edges kg_data).get []))
                     !! (s, t))
            <-> s <> [] /\ t <> [] /\ s ∈ ids /\ t ∈ ids
                /\ exists edge,
                     edge ∈ (VKG.edges kg_data).get [] /\ joins s t edge)
    as Hpairs.
  { intros s t. rewrite Hdrawn, lookup_empty, !Hnodes. split; [|by right].
    by intros [[? ?]|?]. }
  rewrite Hsame.
  split; [exact Hnodes|]. split; [exact Hpairs|]. split; [|split].
  - intros s t (_ & _ & Hs & Ht & _)%Hpairs. by rewrite !Hnodes.
  - intros Hnd. rewrite <- (size_dom (D := gset str)).
    rewrite <- (size_list_to_set (C := gset str) ids Hnd). f_equal.
    apply set_eq. intros n.
    by rewrite elem_of_dom, Hnodes, elem_of_list_to_set.
  - rewrite map_size_empty in Hsize. lia.
Qed.

(** X26. The graph [_build_networkx_graph] makes for the report, and the
    static rendering by the same loops: its nodes are the ids of the
    listed nodes, a node without id being added under the empty id. An
    ordered pair is an edge exactly when some listed edge joins it, both
    ids are not empty and both are ids of nodes: an edge with an unknown
    end is not drawn, and edges between the same two nodes in the same
    direction make one edge. So no edge of the graph dangles, there are
    as many nodes as listed nodes when their ids are distinct, and at most
    as many edges as listed edges. *)
Theorem networkx_graph_has_no_dangling_edge (kg_data : VKG.t) :
  let G := _build_networkx_graph kg_data in
  let ids := map node_id ((VKG.nodes kg_data).get []) in
  let edges := (VKG.edges kg_data).get [] in
  (forall n, is_Some (DiGraph.nodes G !! n) <-> n ∈ ids)
  /\ (forall s t,
        is_Some (DiGraph.edges G !! (s, t))
        <-> s <> [] /\ t <> [] /\ s ∈ ids /\ t ∈ ids
            /\ exists edge, edge ∈ edges /\ joins s t edge)
  /\ (forall s t,
        is_Some (DiGraph.edges G !! (s, t)) ->
        is_Some (DiGraph.nodes G !! s) /\ is_Some (DiGraph.nodes G !! t))
  /\ (NoDup ids -> size (DiGraph.nodes G) = length ids)
  /\ (size (DiGraph.edges G) <= length edges)%nat.
Proof. apply networkx_graph_spec. Qed.


(** ** The fused graph in the analysis report *)

Lemma foldl_count_lookup {A} (key : A -> str) (items : list A) (k : str) :
  foldl (fun type_counts x =>
           <[key x := (type_counts !! key x).get 0 + 1]> type_counts)
        (∅ : gmap str Z) items !! k
  = let n := Z.of_nat
               (length (List.filter (fun x => bool_decide (key x = k))
                                    items)) in
    if n =? 0 then None else Some n.
Proof.
  induction items as [|x items IH] using rev_ind; [done|].
  rewrite foldl_snoc, List.filter_app, length_app. cbn [List.filter].
  cbv zeta in IH. cbv zeta.
  set (n := length (List.filter (fun x => bool_decide (key x = k)) items))
    in *.
  case_bool_decide as Hk.
  - rewrite Hk, lookup_insert_eq, IH. cbn [length].
    destruct (Z.eqb_spec (Z.of_nat n) 0) as [Hz|Hz]; simpl.
    + destruct (Z.eqb_spec (Z.of_nat (n + 1)) 0); [lia|]. f_equal. lia.
    + destruct (Z.eqb_spec (Z.of_nat (n + 1)) 0); [lia|]. f_equal. lia.
  - rewrite lookup_insert_ne by done. rewrite IH. cbn [length].
    by rewrite Nat.add_0_r.
Qed.

Lemma count_node_types_lookup (nodes : list UNode.t) (node_type : str) :
  (_count_node_types (map Pipeline.to_vnode nodes) !! node_type).get 0
  = count (has_type node_type) nodes.
Proof.
  unfold _count_node_types.
  rewrite (foldl_count_lookup
             (fun node => (VNode.node_type node).get (u "unknown"))).
  cbv zeta. unfold count, has_type.
  assert (List.filter
            (fun x => bool_decide
                        ((VNode.node_type x).get (u "unknown") = node_type))
            (map Pipeline.to_vnode nodes)
          = map Pipeline.to_vnode
              (List.filter
                 (fun node => bool_decide (UNode.node_type node = node_type))
                 nodes)) as ->.
  { induction nodes as [|node nodes IH]; [done|]. cbn [map List.filter].
    cbn [Pipeline.to_vnode VNode.node_type default]. rewrite IH.
    unfold id. by case_bool_decide. }
  rewrite length_map.
  match goal with
  | |- context [?n =? 0] => by destruct (Z.eqb_spec n 0) as [->|]
  end.
Qed.

Lemma count_sublist {A} (p : A -> bool) (l1 l2 : list A) :
  sublist l1 l2 -> count p l1 <= count p l2.
Proof.
  unfold count. induction 1 as [|x l1 l2 _ IH|x l1 l2 _ IH]; simpl.
  - lia.
  - destruct (p x); simpl; lia.
  - destruct (p x); simpl; lia.
Qed.

Lemma fuse_graphs_type_statistics now1 now2 main_logic_kg sub_logic_kgs
  conns :
  let fused := _fuse_graphs now1 now2 main_logic_kg sub_logic_kgs conns in
  let statistics := UnifiedKG.statistics (_optimize_unified_kg fused) in
  Statistics.main_logic_nodes statistics
  = count (has_type (u "main_logic")) (UnifiedKG.nodes fused)
  /\ Statistics.basic_concept_nodes statistics
     = count (has_type (u "basic_concept")) (UnifiedKG.nodes fused)
  /\ Statistics.core_technology_nodes statistics
     = count (has_type (u "core_technology")) (UnifiedKG.nodes fused)
  /\ Statistics.circuit_application_nodes statistics
     = count (has_type (u "circuit_application")) (UnifiedKG.nodes fused)
  /\ Statistics.total_nodes statistics
     = Z.of_nat (length (UnifiedKG.nodes (_optimize_unified_kg fused))).
Proof.
  unfold _optimize_unified_kg, _fuse_graphs.
  by destruct (foldl _ _ sub_logic_kgs) as [[nodes edges] apps].
Qed.

(** X27. The fused graph in the analysis report. [_generate_analysis_report]
    builds a graph from the final graph with [_build_networkx_graph] and
    reports its metrics: that graph has as many nodes as the final
    [total_nodes] says; every edge the fuser synthesized whose two ids are
    not empty is an edge of it, and an edge with an end that is no surviving
    node is not. The distribution of node types that [_count_node_types]
    gives on the final nodes never exceeds the statistics of the fuser,
    which were counted before the dedup step, and equals them when no id
    occurs twice in the fused nodes. *)
Theorem fused_graph_in_report_metrics (now1 now2 : str)
  (main_logic_kg : MainKG.t) (sub_logic_kgs : list SubKG.t)
  (conns : list Conn.t) :
  let fused := _fuse_graphs now1 now2 main_logic_kg sub_logic_kgs conns in
  let optimized := _optimize_unified_kg fused in
  let statistics := UnifiedKG.statistics optimized in
  let G := _build_networkx_graph (Pipeline.to_vkg optimized) in
  let in_graph edge :=
    is_Some (DiGraph.edges G
             !! (UEdge.source_id edge, UEdge.target_id edge)) in
  let counted node_type :=
    (_count_node_types (map Pipeline.to_vnode (UnifiedKG.nodes optimized))
     !! node_type).get 0 in
  Z.of_nat (size (DiGraph.nodes G)) = Statistics.total_nodes statistics
  /\ (forall edge,
        edge ∈ UnifiedKG.edges optimized ->
        UEdge.edge_type edge ∈ synthesized_kinds ->
        UEdge.source_id edge <> [] -> UEdge.target_id edge <> [] ->
        in_graph edge)
  /\ (forall edge,
        edge ∈ UnifiedKG.edges optimized ->
        ~ anchored (UnifiedKG.nodes optimized) edge -> ~ in_graph edge)
  /\ counted (u "main_logic") <= Statistics.main_logic_nodes statistics
  /\ counted (u "basic_concept") <= Statistics.basic_concept_nodes statistics
  /\ counted (u "core_technology")
     <= Statistics.core_technology_nodes statistics
  /\ counted (u "circuit_application")
     <= Statistics.circuit_application_nodes statistics
  /\ (NoDup (map UNode.id (UnifiedKG.nodes fused)) ->
      counted (u "main_logic") = Statistics.main_logic_nodes statistics
      /\ counted (u "basic_concept")
         = Statistics.basic_concept_nodes statistics
      /\ counted (u "core_technology")
         = Statistics.core_technology_nodes statistics
      /\ counted (u "circuit_application")
         = Statistics.circuit_application_nodes statistics).
Proof.
  intros fused optimized statistics G in_graph counted.
  destruct (fuse_graphs_type_statistics now1 now2 main_logic_kg
              sub_logic_kgs conns) as (Hm & Hb & Hc & Ha & Ht).
  fold fused optimized statistics in Hm, Hb, Hc, Ha, Ht.
  destruct (networkx_graph_spec (Pipeline.to_vkg optimized))
    as (Hnodes & Hedges & _ & Hsize & _).
  fold G in Hnodes, Hedges, Hsize.
  cbn [Pipeline.to_vkg VKG.nodes VKG.edges default] in Hnodes, Hedges, Hsize.
  unfold id in Hnodes, Hedges, Hsize.
  assert (map node_id (map Pipeline.to_vnode (UnifiedKG.nodes optimized))
          = map UNode.id (UnifiedKG.nodes optimized)) as Hids
    by (by rewrite map_map).
  rewrite Hids in Hnodes, Hedges, Hsize.
  assert (NoDup (map UNode.id (UnifiedKG.nodes optimized))) as Hnd
    by apply dedup_by_NoDup.
  assert (forall id,
            id ∈ map UNode.id (UnifiedKG.nodes optimized)
            <-> exists node,
                  node ∈ UnifiedKG.nodes optimized /\ UNode.id node = id)
    as Hid.
  { intros id. rewrite list_elem_of_fmap. split; intros (n & ? & ?);
      by exists n. }
  assert (sublist (UnifiedKG.nodes optimized) (UnifiedKG.nodes fused))
    as Hsub by apply dedup_by_sublist.
  split; [|split; [|split]].
  - rewrite Hsize by done. by rewrite length_map, Ht.
  - intros edge Hedge Hkind Hs Htgt. subst in_graph. cbv beta.
    assert (anchored (UnifiedKG.nodes optimized) edge)
      as [(n1 & Hn1 & Hid1) (n2 & Hn2 & Hid2)].
    { subst optimized. unfold _optimize_unified_kg in *.
      cbn [UnifiedKG.nodes UnifiedKG.edges] in *.
      apply dedup_by_elem_of in Hedge as [Hedge _].
      destruct (fused_synthesized_anchored _ _ _ _ _ _ Hedge Hkind)
        as [(n1 & H1 & Hid1) (n2 & H2 & Hid2)].
      split.
      - destruct (dedup_by_keeps_key UNode.id ∅ _ n1 H1)
          as (n & Hn & Hidn); [apply not_elem_of_empty|].
        exists n. split; [done|congruence].
      - destruct (dedup_by_keeps_key UNode.id ∅ _ n2 H2)
          as (n & Hn & Hidn); [apply not_elem_of_empty|].
        exists n. split; [done|congruence]. }
    apply Hedges. split; [done|]. split; [done|].
    split; [apply Hid; by exists n1|]. split; [apply Hid; by exists n2|].
    exists (Pipeline.to_vedge edge). split; [|done].
    apply list_elem_of_fmap. by exists edge.
  - intros edge _ Hdangling Hin. apply Hdangling.
    apply Hedges in Hin as (_ & _ & Hs & Htgt & _).
    apply Hid in Hs as (n1 & ? & ?). apply Hid in Htgt as (n2 & ? & ?).
    split; [by exists n1|by exists n2].
  - subst counted. cbv beta. rewrite !count_node_types_lookup.
    rewrite Hm, Hb, Hc, Ha.
    repeat (split; [by apply count_sublist|]).
    intros Hfused.
    assert (UnifiedKG.nodes optimized = UnifiedKG.nodes fused) as ->.
    { subst optimized. unfold _optimize_unified_kg. cbn [UnifiedKG.nodes].
      apply dedup_by_fixed; [done|]. intros x _. apply not_elem_of_empty. }
    done.
Qed.

(** ** File names *)

(** X28. [safe_filename] returns the first 100 characters of the text with
    every character outside the class of word characters, hyphen,
    underscore and dot replaced by an underscore, position by position. So
    the name has at most 100 characters, all of that class; a text of at
    most 100 such characters is returned as it is, and the function
    applied to its own result changes nothing. *)
Theorem safe_filename_spec (is_word : N -> bool) (text : str) :
  let name := Utils.safe_filename is_word text in
  len name = Z.min (len text) 100
  /\ Forall (fun c => Utils.safe_char is_word c = true) name
  /\ (forall i c,
        (i < 100)%nat -> text !! i = Some c ->
        name !! i = Some (if Utils.safe_char is_word c then c else 95%N))
  /\ (Forall (fun c => Utils.safe_char is_word c = true) text ->
      len text <= 100 -> name = text)
  /\ Utils.safe_filename is_word name = name.
Proof.
  intros name. subst name. unfold Utils.safe_filename, slice_to.
  set (safe := fun c : N => if Utils.safe_char is_word c then c else 95%N).
  assert (forall c, Utils.safe_char is_word (safe c) = true) as Hsafe.
  { intros c. unfold safe.
    destruct (Utils.safe_char is_word c) eqn:Hc; [done|].
    unfold Utils.safe_char. simpl. by rewrite orb_true_r. }
  assert (forall l : str,
            Forall (fun c => Utils.safe_char is_word c = true) l ->
            map safe l = l) as Hfixed.
  { intros l Hl. induction Hl as [|c l Hc _ IH]; [done|].
    simpl. rewrite IH. unfold safe. by rewrite Hc. }
  assert (Forall (fun c => Utils.safe_char is_word c = true)
                 (take 100 (map safe text))) as Hall.
  { apply Forall_take, Forall_forall.
    intros c (c' & -> & _)%list_elem_of_fmap. apply Hsafe. }
  split; [|split; [done|split; [|split]]].
  - unfold len. rewrite length_take, length_map. lia.
  - intros i c Hi Hc. apply lookup_take_Some. split; [|done].
    change (map safe text) with (safe <$> text).
    rewrite list_lookup_fmap. unfold str in *. by rewrite Hc.
  - intros Htext Hlen. rewrite (Hfixed _ Htext).
    apply take_ge. unfold len in Hlen. lia.
  - rewrite (Hfixed _ Hall). by rewrite take_take, Nat.min_id.
Qed.

(** ** Keyword similarity *)

Lemma jaccard_le_1 (K1 K2 : gset str) : (jaccard K1 K2 <= 1)%Q.
Proof.
  unfold jaccard. case_bool_decide as Hempty; [done|].
  assert (size (K1 ∪ K2) <> 0%nat) as Hpos
    by (intros Hz; by apply size_empty_inv, leibniz_equiv in Hz).
  assert (size (K1 ∩ K2) <= size (K1 ∪ K2))%nat as Hle.
  { apply subseteq_size. intros x Hx.
    apply elem_of_intersection in Hx as [Hx _].
    apply elem_of_union. by left. }
  apply Qle_shift_div_r.
  - unfold Qlt. simpl. lia.
  - rewrite Qmult_1_l, <- Zle_Qle. lia.
Qed.

Lemma jaccard_same (K : gset str) : K <> ∅ -> (jaccard K K == 1)%Q.
Proof.
  intros Hne. unfold jaccard.
  rewrite (idemp_L (∪) K), (idemp_L (∩) K).
  rewrite bool_decide_eq_false_2 by done.
  apply Qmult_inv_r. unfold Qeq. simpl.
  assert (size K <> 0%nat)
    by (intros Hz; by apply size_empty_inv, leibniz_equiv in Hz).
  lia.
Qed.

Lemma jaccard_disjoint (K1 K2 : gset str) :
  K1 ∩ K2 = ∅ -> (jaccard K1 K2 == 0)%Q.
Proof.
  intros Hdisjoint. unfold jaccard. case_bool_decide; [done|].
  rewrite Hdisjoint, size_empty. simpl. unfold Qdiv. by rewrite Qmult_0_l.
Qed.

(** X29. [_has_keyword_similarity] does not depend on the order of its two
    nodes, nor on the order or the repetition of their keywords, only on
    the two sets. What holds at a threshold holds at every lower one, so a
    pair that passes the strong threshold 0.4 passes the default 0.2. Two
    nodes with the same non-empty set of keywords are similar at every
    threshold up to 1; nodes without a common keyword are similar at no
    positive threshold; and no two nodes are similar at a threshold above
    1. *)
Theorem keyword_similarity_properties (node1 node2 : UNode.t)
  (threshold : Q) :
  _has_keyword_similarity node1 node2 threshold
  = _has_keyword_similarity node2 node1 threshold
  /\ (forall node1' node2',
        keyword_set node1' = keyword_set node1 ->
        keyword_set node2' = keyword_set node2 ->
        _has_keyword_similarity node1' node2' threshold
        = _has_keyword_similarity node1 node2 threshold)
  /\ (forall lower,
        (lower <= threshold)%Q ->
        _has_keyword_similarity node1 node2 threshold = true ->
        _has_keyword_similarity node1 node2 lower = true)
  /\ (_has_keyword_similarity node1 node2 strong_threshold = true ->
      _has_keyword_similarity node1 node2 default_threshold = true)
  /\ (UNode.keywords node1 <> [] ->
      keyword_set node1 = keyword_set node2 -> (threshold <= 1)%Q ->
      _has_keyword_similarity node1 node2 threshold = true)
  /\ (keyword_set node1 ∩ keyword_set node2 = ∅ -> (0 < threshold)%Q ->
      _has_keyword_similarity node1 node2 threshold = false)
  /\ ((1 < threshold)%Q ->
      _has_keyword_similarity node1 node2 threshold = false).
Proof.
  assert (forall a b lower upper,
            (lower <= upper)%Q ->
            _has_keyword_similarity a b upper = true ->
            _has_keyword_similarity a b lower = true) as Hmono.
  { intros a b lower upper Hle (H1 & H2 & Hs)%has_keyword_similarity_spec.
    apply has_keyword_similarity_spec. split; [done|]. split; [done|].
    by eapply Qle_trans. }
  split; [apply has_keyword_similarity_sym|].
  split; [|split; [|split; [|split; [|split]]]].
  - intros node1' node2' H1 H2. unfold keyword_set in H1, H2.
    unfold _has_keyword_similarity. by rewrite H1, H2.
  - intros lower. apply Hmono.
  - apply Hmono. by vm_compute.
  - intros Hne Hsame Hle. apply has_keyword_similarity_spec.
    assert (keyword_set node1 <> ∅) as Hne1
      by (by rewrite keyword_set_empty).
    split; [done|]. split.
    + rewrite <- keyword_set_empty, <- Hsame. done.
    + rewrite <- Hsame, (jaccard_same _ Hne1). done.
  - intros Hdisjoint Hpos. apply not_true_is_false.
    intros (_ & _ & Hs)%has_keyword_similarity_spec.
    rewrite (jaccard_disjoint _ _ Hdisjoint) in Hs.
    by apply Qlt_not_le in Hpos.
  - intros Hbig. apply not_true_is_false.
    intros (_ & _ & Hs)%has_keyword_similarity_spec.
    apply Qlt_not_le in Hbig. apply Hbig.
    eapply Qle_trans; [exact Hs|apply jaccard_le_1].
Qed.

(** ** The batch of pairs *)

Lemma length_omap_le {A B} (f : A -> option B) (l : list A) :
  (length (omap f l) <= length l)%nat.
Proof.
  induction l as [|x l IH]; [done|]. cbn [omap list_omap].
  destruct (f x); simpl; lia.
Qed.

(** X30. In whatever order the pool completes the tasks,
    [_analyze_concurrent] returns the connections that
    [analyze_single_pair] finds for the pairs, each once: a pair without
    connection, or whose call fails to the end, adds nothing, and no pair
    is ever written to [failed_pairs]. So there are at most as many
    results as pairs, each with [has_connection] true, and none when no
    pair has a connection. *)
Theorem analyze_concurrent_returns_found
  (as_completed : forall A : Type, list A -> list A) (call : pair_call)
  (max_retries : nat) (node_pairs : list node_pair) :
  (forall (A : Type) (l : list A), as_completed A l ≡ₚ l) ->
  let batch :=
    _analyze_concurrent as_completed call max_retries node_pairs in
  fst batch ≡ₚ omap (analyze_single_pair call max_retries) node_pairs
  /\ snd batch = []
  /\ (length (fst batch) <= length node_pairs)%nat
  /\ (forall connection, connection ∈ fst batch ->
        Conn.has_connection connection = Some true)
  /\ ((forall pair, pair ∈ node_pairs ->
         analyze_single_pair call max_retries pair = None) ->
      fst batch = []).
Proof.
  intros Hperm batch. subst batch.
  pose proof (analyze_concurrent_results as_completed call max_retries
                node_pairs Hperm) as Hfound.
  split; [exact Hfound|].
  split; [by apply analyze_concurrent_never_records|].
  split; [|split].
  - rewrite Hfound. apply length_omap_le.
  - intros connection Hin. rewrite Hfound in Hin.
    apply list_elem_of_omap in Hin as (pair & _ & Hpair).
    by eapply analyze_attempts_has_connection.
  - intros Hnone. apply Permutation_nil_r. rewrite Hfound.
    clear Hfound. induction node_pairs as [|pair node_pairs IH]; [done|].
    cbn [omap list_omap]. rewrite (Hnone pair) by left.
    apply IH. intros p Hp. apply Hnone. by right.
Qed.

(** The statement above for the batch of two pairs whose first call raises
    on every attempt, tasks completing in the order of submission. *)
Lemma analyze_concurrent_returns_found_witness :
  (forall (A : Type) (l : list A), Inputs.in_order A l ≡ₚ l)
  /\ fst (_analyze_concurrent Inputs.in_order Inputs.raises_for_cross_pair
            ConnectionAnalyzer.max_retries
            [Inputs.cross_pair; Inputs.other_pair])
     ≡ₚ [Inputs.connected].
Proof.
  assert (forall (A : Type) (l : list A), Inputs.in_order A l ≡ₚ l) as Hperm
    by (intros A l; reflexivity).
  split; [exact Hperm|].
  exact (proj1 (analyze_concurrent_returns_found Inputs.in_order
                  Inputs.raises_for_cross_pair ConnectionAnalyzer.max_retries
                  [Inputs.cross_pair; Inputs.other_pair] Hperm)).
Defined.
